(** * BundleDiffReporter: a shallow embedding of [src/index.js]

    The reporter compares two bundle-size maps (name -> size in KB) and
    applies size budgets.  Everything below is translated from the
    JavaScript source, method by method, keeping its names.

    Conventions.
    - A JavaScript number is an IEEE 754 binary64 value: Rocq's primitive
      [float], with the same arithmetic, comparisons, infinities and NaN.
    - A string is a [string] (a sequence of bytes; the patterns of the
      source only ever test ASCII characters, and a non-ASCII character
      matches none of them).
    - An object used as a map from file names to values is the list of
      its own properties in insertion order ([obj]).  This is the object
      when its property names are file names, which end in [.js]
      ([file_names]): such a name is no array index (an object lists
      those first) and no member of [Object.prototype] (which [o[name]]
      would find, and whose [__proto__] an assignment would not store).
      Assignment to an existing name keeps its position, assignment to
      a new name appends.  The statements that depend on the order of
      the properties, or read a name through [o[name]], assume
      [file_names] of the stats.
    - A method that mutates [diff] takes the old value and returns the
      new one. *)

From Stdlib Require Import Bool ZArith Zpower List String Ascii Floats Lia.
From Stdlib Require Uint63.
From Stdlib Require Import Permutation.
Import ListNotations.

Local Open Scope bool_scope.
Local Open Scope string_scope.
Local Open Scope list_scope.

(** ** JavaScript numbers *)

Module Num.

Definition number := float.

(** [ToBoolean] on a number: [+0], [-0] and [NaN] are falsy. *)
Definition truthy (x : number) : bool := negb (is_zero x || is_nan x).

(** [x > y] and [x >= y]. *)
Definition gt (x y : number) : bool := (y <? x)%float.
Definition ge (x y : number) : bool := (y <=? x)%float.
Definition lt (x y : number) : bool := (x <? y)%float.

(** [Math.abs]. *)
Definition Math_abs (x : number) : number := abs x.

(** An integer below 2^53 as a number (exact). *)
Definition of_Z (n : Z) : number := of_uint63 (Uint63.of_Z n).

(** The integer [n] of [Number.prototype.toFixed(2)] for the magnitude
    of a finite number: [n / 100 - |x|] is as close to zero as
    possible, the larger [n] on a tie.  It is computed on the exact
    value [m * 2^e] of the number. *)
Definition hundredths (x : spec_float) : Z :=
  match x with
  | S754_finite _ m e =>
      match e with
      | Zneg k => (2 * (Zpos m * 100) + 2 ^ Zpos k) / 2 ^ (Zpos k + 1)
      | _ => Zpos m * 100 * 2 ^ e
      end
  | _ => 0
  end%Z.

(** 2^46: from here on two neighbouring numbers are more than 0.01
    apart, and the decimal that [toFixed(2)] prints reads back as the
    number itself (this also covers [|x| >= 1e21], where [toFixed]
    prints [ToString(x)]). *)
Definition two_46 : number := 70368744177664%float.

(** [parseFloat(x.toFixed(2))]: [toFixed] prints ["NaN"], ["Infinity"]
    or the sign and the decimal [n / 100]; [parseFloat] reads the
    nearest number back (the division of two exact numbers is
    correctly rounded, so it is that nearest number). *)
Definition round2 (x : number) : number :=
  if is_nan x || is_infinity x then x
  else if (two_46 <=? abs x)%float then x
  else
    let r := (of_Z (hundredths (Prim2SF x)) / 100)%float in
    if (x <? 0)%float then (- r)%float else r.

End Num.
Import Num.

(** ** JavaScript strings *)

Module Str.

Definition is_digit (c : ascii) : bool := (("0" <=? c) && (c <=? "9"))%char.
Definition is_upper (c : ascii) : bool := (("A" <=? c) && (c <=? "Z"))%char.

(** [0-9a-f] under the [i] flag. *)
Definition is_hex (c : ascii) : bool :=
  (is_digit c || (("a" <=? c) && (c <=? "f")) || (("A" <=? c) && (c <=? "F")))%char.

(** Case folding of the [i] flag (ASCII letters only). *)
Definition fold_case (c : ascii) : ascii :=
  if is_upper c then ascii_of_nat (nat_of_ascii c + 32) else c.

(** The whole string [s] equals the literal [lit], ignoring case. *)
Fixpoint eqb_ci (lit s : string) : bool :=
  match lit, s with
  | EmptyString, EmptyString => true
  | String a lit', String b s' =>
      Ascii.eqb (fold_case a) (fold_case b) && eqb_ci lit' s'
  | _, _ => false
  end.

(** The longest prefix of characters in a class, and the rest. *)
Fixpoint span (p : ascii -> bool) (s : string) : string * string :=
  match s with
  | EmptyString => (EmptyString, EmptyString)
  | String c s' =>
      if p c then let '(h, r) := span p s' in (String c h, r)
      else (EmptyString, s)
  end.

(** Every character of [s] is in the class [p]. *)
Fixpoint all_chars (p : ascii -> bool) (s : string) : bool :=
  match s with
  | EmptyString => true
  | String c s' => p c && all_chars p s'
  end.

(** [s.replace(re, repl)] for a pattern [re] that ends in [$]: [m]
    tells whether the pattern matches a string from its first
    character to its end; the leftmost position where it does is
    replaced, up to the end, by [repl]. *)
Fixpoint replace_to_end (m : string -> bool) (repl s : string) : string :=
  if m s then repl
  else match s with
       | EmptyString => EmptyString
       | String c s' => String c (replace_to_end m repl s')
       end.

(** [hay.includes(needle)]. *)
Fixpoint includes (needle hay : string) : bool :=
  String.prefix needle hay
  || match hay with
     | EmptyString => false
     | String _ hay' => includes needle hay'
     end.

(** The suffix that starts at the last ["."], if there is one. *)
Fixpoint from_last_dot (s : string) : option string :=
  match s with
  | EmptyString => None
  | String c s' =>
      match from_last_dot s' with
      | Some e => Some e
      | None => if Ascii.eqb c "." then Some s else None
      end
  end.

(** [path.extname] on a directory entry name (no separator in it): the
    part from the last dot, unless that dot is the first character, or
    the name is [".."]. *)
Definition extname (file : string) : string :=
  match file with
  | EmptyString => EmptyString
  | String _ rest =>
      if String.eqb file ".." then EmptyString
      else match from_last_dot rest with
           | Some e => e
           | None => EmptyString
           end
  end.

End Str.

(** ** Objects as insertion-ordered maps, arrays as lists *)

Section Obj.
Context {V : Type}.

Definition obj := list (string * V).

(** [o[k]], [undefined] being [None]. *)
Fixpoint obj_get (o : obj) (k : string) : option V :=
  match o with
  | [] => None
  | (k', v) :: o' => if String.eqb k' k then Some v else obj_get o' k
  end.

(** [o[k] = v]. *)
Fixpoint obj_set (o : obj) (k : string) (v : V) : obj :=
  match o with
  | [] => [(k, v)]
  | (k', v') :: o' =>
      if String.eqb k' k then (k', v) :: o' else (k', v') :: obj_set o' k v
  end.

(** [Object.keys(o)]; [Object.entries(o)] is [o] itself. *)
Definition obj_keys (o : obj) : list string := map fst o.

(** [Object.fromEntries(l)], and the [reduce] and [forEach] loops that
    assign each entry of an array to a fresh object. *)
Definition obj_of_entries (l : list (string * V)) : obj :=
  fold_left (fun o kv => obj_set o (fst kv) (snd kv)) l [].

(** [keys.includes(k)]. *)
Definition has_key (o : obj) (k : string) : bool :=
  existsb (String.eqb k) (obj_keys o).
End Obj.
Arguments obj : clear implicits.

(** A file name, as the keys of the stats files are: it ends in [.js]
    (every key that [generateBundleStats] writes does). *)
Fixpoint ends_in_js (name : string) : bool :=
  String.eqb name ".js"
  || match name with
     | EmptyString => false
     | String _ rest => ends_in_js rest
     end.

(** Every property name of an object is a file name.  For such an
    object [o[name]] is the lookup of an own property, [o[name] = v]
    stores one, and [Object.entries] follows the insertion order. *)
Definition file_names {V : Type} (o : obj V) : bool :=
  forallb ends_in_js (obj_keys o).

(** [array.includes(name)] on an array of strings. *)
Definition Array_includes (l : list string) (name : string) : bool :=
  existsb (String.eqb name) l.

Section Sort.
Context {A : Type}.
Variable comparefn : A -> A -> number.

(** [Array.prototype.sort(comparefn)]: the sort is stable, and [a] is
    moved behind [b] only when [comparefn(a, b) > 0] (a [NaN] result
    counts as [0]).  For a consistent comparator this insertion sort
    returns the one order the language allows. *)
Fixpoint sort_insert (x : A) (l : list A) : list A :=
  match l with
  | [] => [x]
  | y :: l' =>
      if gt (comparefn x y) 0%float then y :: sort_insert x l' else x :: l
  end.

Fixpoint Array_sort (l : list A) : list A :=
  match l with
  | [] => []
  | x :: l' => sort_insert x (Array_sort l')
  end.

(** The comparator does not ask for [b] before [a]. *)
Definition in_order (a b : A) : bool := negb (gt (comparefn a b) 0%float).
End Sort.

(** Every element of an array stands in relation [rel] to the next. *)
Fixpoint ordered_by {A : Type} (rel : A -> A -> bool) (l : list A) : bool :=
  match l with
  | a :: (b :: _) as l' => rel a b && ordered_by rel l'
  | _ => true
  end.

(** ** The data model *)

(** A value of a stats file: [{ size: <KB> }]. *)
Record BundleEntry := { size : number }.

(** A bundle map, as [readJsonFile] returns it. *)
Definition BundleMap := obj BundleEntry.

(** [options], the argument of the constructor; an absent property
    ([undefined]) is [None]. *)
Module Options.
Record t := {
  buildFolder : option string;
  outputFolder : option string;
  changeThreshold : option number;
  splittingUpperLimit : option number;
  splittingLowerLimit : option number;
  masterFile : option string;
  currentFile : option string;
  outputFile : option string;
  failureFile : option string;
  aboveAverageFiles : option (list string);
  belowAverageFiles : option (list string)
}.

(** [new BundleDiffReporter()]: the default argument [{}]. *)
Definition empty : t :=
  Build_t None None None None None None None None None None None.

(** [{ ...options, changeThreshold: x }] and its two siblings. *)
Definition with_changeThreshold (x : number) (o : t) : t :=
  Build_t (buildFolder o) (outputFolder o) (Some x) (splittingUpperLimit o)
    (splittingLowerLimit o) (masterFile o) (currentFile o) (outputFile o)
    (failureFile o) (aboveAverageFiles o) (belowAverageFiles o).
Definition with_splittingUpperLimit (x : number) (o : t) : t :=
  Build_t (buildFolder o) (outputFolder o) (changeThreshold o) (Some x)
    (splittingLowerLimit o) (masterFile o) (currentFile o) (outputFile o)
    (failureFile o) (aboveAverageFiles o) (belowAverageFiles o).
Definition with_splittingLowerLimit (x : number) (o : t) : t :=
  Build_t (buildFolder o) (outputFolder o) (changeThreshold o)
    (splittingUpperLimit o) (Some x) (masterFile o) (currentFile o)
    (outputFile o) (failureFile o) (aboveAverageFiles o) (belowAverageFiles o).
End Options.

(** [this.config]. *)
Module Config.
Record t := {
  buildFolder : string;
  outputFolder : string;
  changeThreshold : number;
  splittingUpperLimit : number;
  splittingLowerLimit : number;
  masterFile : string;
  currentFile : string;
  outputFile : string;
  failureFile : string;
  aboveAverageFiles : list string;
  belowAverageFiles : list string
}.
End Config.

(** An entry of [diff.changed]. *)
Record ChangedEntry := {
  current : number;
  master : number;
  difference : number
}.

(** [diff.summary]. *)
Record Summary := {
  totalAdded : number;
  totalRemoved : number;
  sizeIncrease : number;
  sizeDecrease : number;
  countChanged : number
}.

(** [diff]. *)
Record Diff := {
  added : obj BundleEntry;
  removed : obj BundleEntry;
  changed : obj ChangedEntry;
  same : obj number;
  summary : Summary
}.

(** An element of the failed-file arrays, [{ fileName, fileSize }]. *)
Record FailedFile := { fileName : string; fileSize : number }.

(** [this.failedFiles]. *)
Module FailedFiles.
Record t := {
  aboveAverageFiles : list FailedFile;
  belowAverageFiles : list FailedFile
}.
End FailedFiles.

(** An entry of the build folder: its name, what [statSync(..).isFile()]
    answers, and [statSync(..).size] in bytes. *)
Record DirEntry := {
  entry_name : string;
  entry_isFile : bool;
  entry_bytes : number
}.

(** ** The constructor *)

(** [a || b] on values that may be [undefined]. *)
Definition or_string (a : option string) (b : string) : string :=
  match a with
  | Some (String c s) => String c s
  | _ => b
  end.

Definition or_number (a : option number) (b : number) : number :=
  match a with
  | Some x => if truthy x then x else b
  | None => b
  end.

Definition or_array {A : Type} (a : option (list A)) (b : list A) : list A :=
  match a with
  | Some l => l
  | None => b
  end.

(** The [this.config = { ... }] of [constructor(options = {})]. *)
Definition constructor (options : Options.t) : Config.t := {|
  Config.buildFolder := or_string (Options.buildFolder options) "dist";
  Config.outputFolder := or_string (Options.outputFolder options) "bundle-analyzer";
  Config.changeThreshold := or_number (Options.changeThreshold options) 5%float;
  Config.splittingUpperLimit := or_number (Options.splittingUpperLimit options) 250%float;
  Config.splittingLowerLimit := or_number (Options.splittingLowerLimit options) 20%float;
  Config.masterFile := or_string (Options.masterFile options) "master-bundle-stats.json";
  Config.currentFile := or_string (Options.currentFile options) "current-bundle-stats.json";
  Config.outputFile := or_string (Options.outputFile options) "bundle-size-report.md";
  Config.failureFile := or_string (Options.failureFile options) "bundle-diff-stage-failed.txt";
  Config.aboveAverageFiles := or_array (Options.aboveAverageFiles options) [];
  Config.belowAverageFiles := or_array (Options.belowAverageFiles options) []
|}.

(** ** generateBundleStats *)

(** [/\.[0-9a-f]{8,}\.js$/i] and [/-[0-9a-f]{10,}\.js$/i], matched from
    the first character of [s] to its end: the separator, at least
    [min] hexadecimal digits (the run is the longest one, as the next
    character has to be a dot), then [.js]. *)
Definition matches_hash (sep : ascii) (min : nat) (s : string) : bool :=
  match s with
  | EmptyString => false
  | String c s' =>
      Ascii.eqb c sep
      && (let '(digits, rest) := Str.span Str.is_hex s' in
          (min <=? String.length digits)%nat && Str.eqb_ci ".js" rest)
  end.

(** [/\.chunk\.js$/i], matched from the first character to the end. *)
Definition matches_chunk (s : string) : bool := Str.eqb_ci ".chunk.js" s.

(** The three [replace] calls that compute [cleanName]. *)
Definition strip_content_hash : string -> string :=
  Str.replace_to_end (matches_hash "." 8) ".js".
Definition strip_chunk_hash : string -> string :=
  Str.replace_to_end (matches_hash "-" 10) ".js".
Definition strip_chunk_id : string -> string :=
  Str.replace_to_end matches_chunk ".js".

Definition cleanName (file : string) : string :=
  strip_chunk_id (strip_chunk_hash (strip_content_hash file)).

(** [parseFloat((bytes / 1024).toFixed(2))]. *)
Definition sizeKB (bytes : number) : number := round2 (bytes / 1024)%float.

(** The [filter] callback: a top-level file with the extension [.js]. *)
Definition is_js_file (e : DirEntry) : bool :=
  entry_isFile e && String.eqb (Str.extname (entry_name e)) ".js".

(** The [forEach] loop: [result[cleanName] = { size: sizeKB }]. *)
Definition collect_stats (files : list DirEntry) : BundleMap :=
  fold_left
    (fun result e =>
       obj_set result (cleanName (entry_name e))
         {| size := sizeKB (entry_bytes e) |})
    files [].

(** [([, a], [, b]) => b.size - a.size]. *)
Definition by_size_desc (a b : string * BundleEntry) : number :=
  (size (snd b) - size (snd a))%float.

(** [generateBundleStats], from the listing of the build folder to
    [sortedResult], the object that is written to the current stats
    file. *)
Definition generateBundleStats (dir : list DirEntry) : BundleMap :=
  let result := collect_stats (filter is_js_file dir) in
  let sortedEntries := Array_sort by_size_desc result in
  obj_of_entries sortedEntries.

(** ** compareBundleSizes *)

Definition initializeDiff : Diff := {|
  added := [];
  removed := [];
  changed := [];
  same := [];
  summary := {|
    totalAdded := 0%float;
    totalRemoved := 0%float;
    sizeIncrease := 0%float;
    sizeDecrease := 0%float;
    countChanged := 0%float
  |}
|}.

Definition addNewFile (diff : Diff) (file : string) (fileData : BundleEntry)
  : Diff := {|
  added := obj_set (added diff) file fileData;
  removed := removed diff;
  changed := changed diff;
  same := same diff;
  summary := {|
    totalAdded := (totalAdded (summary diff) + size fileData)%float;
    totalRemoved := totalRemoved (summary diff);
    sizeIncrease := sizeIncrease (summary diff);
    sizeDecrease := sizeDecrease (summary diff);
    countChanged := countChanged (summary diff)
  |}
|}.

(** The two constants of [processChangedFile]. *)
Definition sizeDiff (currentData masterData : BundleEntry) : number :=
  (size currentData - size masterData)%float.

Definition sizeDiffPercent (currentData masterData : BundleEntry) : number :=
  Math_abs ((sizeDiff currentData masterData / size masterData) * 100)%float.

Section Reporter.
Variable config : Config.t.

(** [diff.changed[file] = ...] and [diff.same[file] = ...] store an own
    property under the file name. *)
Definition processChangedFile (diff : Diff) (file : string)
    (currentData masterData : BundleEntry) : Diff :=
  let sizeDiff := sizeDiff currentData masterData in
  if ge (sizeDiffPercent currentData masterData) (Config.changeThreshold config)
  then {|
    added := added diff;
    removed := removed diff;
    changed :=
      obj_set (changed diff) file
        {| current := size currentData;
           master := size masterData;
           difference := round2 sizeDiff |};
    same := same diff;
    summary := {|
      totalAdded := totalAdded (summary diff);
      totalRemoved := totalRemoved (summary diff);
      sizeIncrease :=
        if gt sizeDiff 0%float
        then (sizeIncrease (summary diff) + sizeDiff)%float
        else sizeIncrease (summary diff);
      sizeDecrease :=
        if gt sizeDiff 0%float
        then sizeDecrease (summary diff)
        else (sizeDecrease (summary diff) + Math_abs sizeDiff)%float;
      countChanged := (countChanged (summary diff) + 1)%float
    |}
  |}
  else {|
    added := added diff;
    removed := removed diff;
    changed := changed diff;
    same := obj_set (same diff) file (size currentData);
    summary := summary diff
  |}.

(** [([, a], [, b]) => b.difference - a.difference]. *)
Definition by_difference_desc (a b : string * ChangedEntry) : number :=
  (difference (snd b) - difference (snd a))%float.

(** The sorted entries are assigned one by one to a fresh object, which
    keeps their order when the names are file names. *)
Definition sortChangedFiles (changedFiles : obj ChangedEntry)
  : obj ChangedEntry :=
  obj_of_entries (Array_sort by_difference_desc changedFiles).

(** The callback of the loop over [Object.entries(current)]:
    [([file, fileData]) => { if (!master[file]) ... else ... }].  For a
    file name, [master[file]] is an own property of [master] (an
    object, hence truthy) or [undefined]. *)
Definition classify (master : BundleMap) (diff : Diff)
    (entry : string * BundleEntry) : Diff :=
  let '(file, fileData) := entry in
  match obj_get master file with
  | None => addNewFile diff file fileData
  | Some masterData => processChangedFile diff file fileData masterData
  end.

Definition processAddedAndChangedFiles (master current : BundleMap)
    (diff : Diff) : Diff :=
  let diff := fold_left (classify master) current diff in
  match obj_keys (changed diff) with
  | [] => diff
  | _ :: _ => {|
      added := added diff;
      removed := removed diff;
      changed := sortChangedFiles (changed diff);
      same := same diff;
      summary := summary diff
    |}
  end.

(** The loop over [Object.entries(master)], with [!current[file]] read
    on a file name as in [classify]. *)
Definition processRemovedFiles (master current : BundleMap) (diff : Diff)
  : Diff :=
  fold_left
    (fun diff '(file, fileData) =>
       match obj_get current file with
       | None => {|
           added := added diff;
           removed := obj_set (removed diff) file fileData;
           changed := changed diff;
           same := same diff;
           summary := {|
             totalAdded := totalAdded (summary diff);
             totalRemoved := (totalRemoved (summary diff) + size fileData)%float;
             sizeIncrease := sizeIncrease (summary diff);
             sizeDecrease := sizeDecrease (summary diff);
             countChanged := countChanged (summary diff)
           |}
         |}
       | Some _ => diff
       end)
    master diff.

Definition finalizeDiff (diff : Diff) : Diff := {|
  added := added diff;
  removed := removed diff;
  changed := changed diff;
  same := same diff;
  summary := {|
    totalAdded := round2 (totalAdded (summary diff));
    totalRemoved := round2 (totalRemoved (summary diff));
    sizeIncrease := round2 (sizeIncrease (summary diff));
    sizeDecrease := round2 (sizeDecrease (summary diff));
    countChanged := countChanged (summary diff)
  |}
|}.

(** [compareBundleSizes], from the two parsed stats files on. *)
Definition compareBundleSizes (master current : BundleMap) : Diff :=
  let diff := initializeDiff in
  let diff := processAddedAndChangedFiles master current diff in
  let diff := processRemovedFiles master current diff in
  finalizeDiff diff.

(** ** checkFileSize *)

(** [{ ...addedFiles, ...changedFiles }]: for file names, the
    properties of [addedFiles] in their order, then the new ones of
    [changedFiles]. *)
Definition extractFileSizes (diff : Diff) : obj number :=
  let addedFiles :=
    obj_of_entries
      (map (fun '(fileName, fileData) => (fileName, size fileData)) (added diff)) in
  let changedFiles :=
    obj_of_entries
      (map (fun '(fileName, fileData) => (fileName, current fileData)) (changed diff)) in
  fold_left (fun o kv => obj_set o (fst kv) (snd kv)) changedFiles
    (fold_left (fun o kv => obj_set o (fst kv) (snd kv)) addedFiles []).

Definition isAboveAverageFile (fileName : string) (fileSize : number) : bool :=
  gt fileSize (Config.splittingUpperLimit config)
  && negb (Array_includes (Config.aboveAverageFiles config) fileName).

Definition isBelowAverageFile (fileName : string) (fileSize : number) : bool :=
  lt fileSize (Config.splittingLowerLimit config)
  && negb (Array_includes (Config.belowAverageFiles config) fileName)
  && negb (Str.includes "resolver" fileName).

Definition checkFileSize (diff : Diff) : FailedFiles.t :=
  let files := extractFileSizes diff in
  fold_left
    (fun failed '(fileName, fileSize) =>
       if isAboveAverageFile fileName fileSize then {|
         FailedFiles.aboveAverageFiles :=
           FailedFiles.aboveAverageFiles failed
             ++ [{| fileName := fileName; fileSize := fileSize |}];
         FailedFiles.belowAverageFiles := FailedFiles.belowAverageFiles failed
       |}
       else if isBelowAverageFile fileName fileSize then {|
         FailedFiles.aboveAverageFiles := FailedFiles.aboveAverageFiles failed;
         FailedFiles.belowAverageFiles :=
           FailedFiles.belowAverageFiles failed
             ++ [{| fileName := fileName; fileSize := fileSize |}]
       |}
       else failed)
    files
    {| FailedFiles.aboveAverageFiles := [];
       FailedFiles.belowAverageFiles := [] |}.
End Reporter.

(** ** The verdict and the failure flag *)

(** [isSuccess], with [this.failedFiles] as its argument. *)
Definition isSuccess (failedFiles : FailedFiles.t) : bool :=
  (List.length (FailedFiles.belowAverageFiles failedFiles) =? 0)%nat
  && (List.length (FailedFiles.aboveAverageFiles failedFiles) =? 0)%nat.

(** What the reporter sees of its environment: the working directory,
    the files and their contents, the paths that cannot be written, and
    the lines printed by [console.error]. *)
Record World := {
  cwd : string;
  files : obj string;
  unwritable : list string;
  console : list string
}.

(** How a call ends: it returns, or it throws an error. *)
Inductive completion :=
| Normal (w : World)
| Throw (w : World) (message : string).

(** [path.join] of well-formed segments (no normalisation is needed for
    the working directory followed by two configured names). *)
Definition path_join (parts : list string) : string := String.concat "/" parts.

(** [fs.writeFileSync(file, data)]. *)
Definition writeFileSync (w : World) (file data : string) : completion :=
  if Array_includes (unwritable w) file
  then Throw w "EACCES: permission denied"
  else Normal {|
    cwd := cwd w;
    files := obj_set (files w) file data;
    unwritable := unwritable w;
    console := console w
  |}.

(** The text of the marker, byte by byte as the literal of the source
    has it: the characters U+F8FF, U+00FC, U+00EE and U+00A5 in UTF-8,
    and a sentence. *)
Definition failure_text : string :=
  String "239" (String "163" (String "191"
    (String "195" (String "188"
      (String "195" (String "174"
        (String "194" (String "165"
          " Failed to pass bundle size check")))))))).

Definition failure_path (config : Config.t) (w : World) : string :=
  path_join [cwd w; Config.outputFolder config; Config.failureFile config].

Definition writeFailureFlag (config : Config.t) (failedFiles : FailedFiles.t)
    (w : World) : completion :=
  if negb (isSuccess failedFiles) then
    match writeFileSync w (failure_path config w) failure_text with
    | Normal w' => Normal w'
    | Throw w' message =>
        Throw {|
          cwd := cwd w';
          files := files w';
          unwritable := unwritable w';
          console :=
            console w' ++ [("Error writing failure flag file: " ++ message)%string]
        |} message
    end
  else Normal w.

(** ** Notions used in the statements *)

(** The pattern [m] matches somewhere in [s] (up to the end of [s]). *)
Fixpoint matches_somewhere (m : string -> bool) (s : string) : bool :=
  m s
  || match s with
     | EmptyString => false
     | String _ s' => matches_somewhere m s'
     end.

(** None of the three patterns of [cleanName] matches the name. *)
Definition canonical (name : string) : bool :=
  negb (matches_somewhere (matches_hash "." 8) name)
  && negb (matches_somewhere (matches_hash "-" 10) name)
  && negb (matches_somewhere matches_chunk name).

(** In how many of the four buckets of [diff] the name [file] is a key. *)
Definition buckets_holding (diff : Diff) (file : string) : nat :=
  (if has_key (added diff) file then 1 else 0)
  + (if has_key (removed diff) file then 1 else 0)
  + (if has_key (changed diff) file then 1 else 0)
  + (if has_key (same diff) file then 1 else 0).

(** Orders on the entries of [diff.changed]: by descending absolute
    difference, and by descending difference. *)
Definition abs_difference_ge (a b : string * ChangedEntry) : bool :=
  ge (Math_abs (difference (snd a))) (Math_abs (difference (snd b))).

Definition difference_ge (a b : string * ChangedEntry) : bool :=
  ge (difference (snd a)) (difference (snd b)).

(** The element pushed for an entry of [files], and the two branches of
    the loop of [checkFileSize] as filters. *)
Definition failed_of (x : string * number) : FailedFile :=
  {| fileName := fst x; fileSize := snd x |}.

Definition fails_above (config : Config.t) (x : string * number) : bool :=
  isAboveAverageFile config (fst x) (snd x).

Definition fails_below (config : Config.t) (x : string * number) : bool :=
  negb (isAboveAverageFile config (fst x) (snd x))
  && isBelowAverageFile config (fst x) (snd x).

(** The sizes that [extractFileSizes] reads: those of the added entries
    and the current ones of the changed entries. *)
Definition checked_sizes (diff : Diff) : list (string * number) :=
  map (fun '(fileName, fileData) => (fileName, size fileData)) (added diff)
  ++ map (fun '(fileName, fileData) => (fileName, current fileData)) (changed diff).

(** The names of an array are pairwise distinct (as the keys of an
    object are). *)
Fixpoint distinct (l : list string) : bool :=
  match l with
  | [] => true
  | x :: l' => negb (Array_includes l' x) && distinct l'
  end.

(** ** Sample data *)

Module Sample.
(** The configuration of [new BundleDiffReporter()]. *)
Definition config : Config.t := constructor Options.empty.

Definition entry (kb : number) : BundleEntry := {| size := kb |}.

(** A baseline and a current stats file. *)
Definition masterStats : BundleMap :=
  [("a.js", entry 100); ("b.js", entry 10); ("r.js", entry 3);
   ("z.js", entry 0); ("s.js", entry 100)]%float.

Definition currentStats : BundleMap :=
  [("a.js", entry 50); ("b.js", entry 11); ("n.js", entry 300);
   ("z.js", entry 5); ("s.js", entry 101)]%float.

(** A build folder: two files with the clean name [main.js], a style
    sheet and a directory. *)
Definition dir : list DirEntry :=
  [ {| entry_name := "main.abcdef12.js"; entry_isFile := true;
       entry_bytes := 2048 |};
    {| entry_name := "main.chunk.js"; entry_isFile := true;
       entry_bytes := 10240 |};
    {| entry_name := "vendor-0123456789ab.js"; entry_isFile := true;
       entry_bytes := 4096 |};
    {| entry_name := "main.css"; entry_isFile := true;
       entry_bytes := 512 |};
    {| entry_name := "assets.js"; entry_isFile := false;
       entry_bytes := 4096 |} ]%float.

Definition world : World :=
  {| cwd := "/repo"; files := []; unwritable := []; console := [] |}.

Definition passed : FailedFiles.t :=
  {| FailedFiles.aboveAverageFiles := [];
     FailedFiles.belowAverageFiles := [] |}.

Definition failed : FailedFiles.t :=
  {| FailedFiles.aboveAverageFiles :=
       [{| fileName := "n.js"; fileSize := 300%float |}];
     FailedFiles.belowAverageFiles := [] |}.
End Sample.

(** ** Notions used in the further statements *)

(** The order of the stats file: the size of an entry is greater than
    or equal to the size of the next. *)
Definition size_ge (a b : string * BundleEntry) : bool :=
  ge (size (snd a)) (size (snd b)).

(** The entry that the loop of [generateBundleStats] writes for a
    file. *)
Definition stats_entry (e : DirEntry) : string * BundleEntry :=
  (cleanName (entry_name e), {| size := sizeKB (entry_bytes e) |}).

(** [n] after [k] executions of [n++]. *)
Definition count_from (n : number) (k : nat) : number :=
  Nat.iter k (fun x => (x + 1)%float) n.

(** [total] after [total += x] for each [x] of an array, from left to
    right. *)
Definition sum_from (total : number) (l : list number) : number :=
  fold_left (fun acc x => (acc + x)%float) l total.

(** The sizes of the entries of a bucket, in its order. *)
Definition sizes_of (o : obj BundleEntry) : list number :=
  map (fun kv => size (snd kv)) o.

(** The entry of [diff.changed] for a file of both maps. *)
Definition changed_entry (currentData masterData : BundleEntry) : ChangedEntry :=
  {| current := size currentData;
     master := size masterData;
     difference := round2 (sizeDiff currentData masterData) |}.

(** The entries of [o] whose name is no property of [other], in the
    order of [o]. *)
Definition only_in (o other : BundleMap) : obj BundleEntry :=
  filter
    (fun kv => match obj_get other (fst kv) with
               | None => true
               | Some _ => false
               end)
    o.

(** The entries of [currentStats] whose name is in [baseline] too, in
    the order of [currentStats]: those whose percentage reaches the
    threshold, with their entry of [changed], and the others, with
    their current size. *)
Definition changed_files (config : Config.t) (baseline currentStats : BundleMap)
  : obj ChangedEntry :=
  flat_map
    (fun kv => match obj_get baseline (fst kv) with
               | Some masterData =>
                   if ge (sizeDiffPercent (snd kv) masterData)
                        (Config.changeThreshold config)
                   then [(fst kv, changed_entry (snd kv) masterData)]
                   else []
               | None => []
               end)
    currentStats.

Definition same_files (config : Config.t) (baseline currentStats : BundleMap)
  : obj number :=
  flat_map
    (fun kv => match obj_get baseline (fst kv) with
               | Some masterData =>
                   if ge (sizeDiffPercent (snd kv) masterData)
                        (Config.changeThreshold config)
                   then []
                   else [(fst kv, size (snd kv))]
               | None => []
               end)
    currentStats.

(** [total] after the updates that [processChangedFile] makes to
    [sizeIncrease], and to [sizeDecrease], for the changed entries [l],
    from left to right. *)
Definition increase_from (total : number) (l : obj ChangedEntry) : number :=
  fold_left
    (fun acc kv =>
       let sizeDiff := (current (snd kv) - master (snd kv))%float in
       if gt sizeDiff 0%float then (acc + sizeDiff)%float else acc)
    l total.

Definition decrease_from (total : number) (l : obj ChangedEntry) : number :=
  fold_left
    (fun acc kv =>
       let sizeDiff := (current (snd kv) - master (snd kv))%float in
       if gt sizeDiff 0%float then acc else (acc + Math_abs sizeDiff)%float)
    l total.

(** The [diff] in which nothing differs: every file of the stats is in
    [same], and the summary is the initial one. *)
Definition all_same (stats : BundleMap) : Diff := {|
  added := [];
  removed := [];
  changed := [];
  same := map (fun kv => (fst kv, size (snd kv))) stats;
  summary := summary initializeDiff
|}.

(** Both size totals of the summary are [>= 0]. *)
Definition sizes_ge_zero (diff : Diff) : Prop :=
  ge (sizeIncrease (summary diff)) 0%float = true
  /\ ge (sizeDecrease (summary diff)) 0%float = true.

(** The place of a number in the order of [SFcompare]: its class
    (infinities, signed finite numbers, zeros), then the exponent and
    the mantissa; and the order of these places. *)
Definition rank (x : spec_float) : Z * Z * Z :=
  match x with
  | S754_zero _ => (0, 0, 0)
  | S754_infinity s => (if s then -2 else 2, 0, 0)
  | S754_nan => (0, 0, 0)
  | S754_finite s m e => if s then (-1, - e, - Zpos m) else (1, e, Zpos m)
  end%Z.

Definition rank_le (a b : Z * Z * Z) : Prop :=
  let '(a1, a2, a3) := a in
  let '(b1, b2, b3) := b in
  (a1 < b1 \/ (a1 = b1 /\ (a2 < b2 \/ (a2 = b2 /\ a3 <= b3))))%Z.

Definition rank_lt (a b : Z * Z * Z) : Prop :=
  let '(a1, a2, a3) := a in
  let '(b1, b2, b3) := b in
  (a1 < b1 \/ (a1 = b1 /\ (a2 < b2 \/ (a2 = b2 /\ a3 < b3))))%Z.

(** * Properties *)

(** ** Objects *)

Section ObjFacts.
Context {V : Type}.
Implicit Types (o : obj V) (k : string) (v : V).

Lemma obj_get_set_same o k v : obj_get (obj_set o k v) k = Some v.
Proof.
  induction o as [|[k' v'] o IH]; simpl.
  - now rewrite String.eqb_refl.
  - destruct (String.eqb k' k) eqn:E; simpl; rewrite E; auto.
Qed.

Lemma obj_get_set_other o k k' v :
  k <> k' -> obj_get (obj_set o k v) k' = obj_get o k'.
Proof.
  intros Hne. induction o as [|[k0 v0] o IH]; simpl.
  - destruct (String.eqb_spec k k'); congruence.
  - destruct (String.eqb_spec k0 k) as [->|]; simpl.
    + destruct (String.eqb_spec k k'); congruence.
    + now rewrite IH.
Qed.

Lemma obj_keys_set o k v x :
  In x (obj_keys (obj_set o k v)) <-> x = k \/ In x (obj_keys o).
Proof.
  unfold obj_keys. induction o as [|[k' v'] o IH]; simpl.
  - intuition.
  - destruct (String.eqb_spec k' k) as [->|]; simpl; intuition.
Qed.

Lemma obj_set_NoDup o k v :
  NoDup (obj_keys o) -> NoDup (obj_keys (obj_set o k v)).
Proof.
  unfold obj_keys. induction o as [|[k' v'] o IH]; simpl; intros H.
  - constructor; [intros []|constructor].
  - inversion H as [|? ? Hn Hd]; subst.
    destruct (String.eqb_spec k' k) as [->|Hne]; simpl.
    + now constructor.
    + constructor; auto. intros Hin.
      apply (obj_keys_set o k v k') in Hin. destruct Hin; auto.
Qed.

Lemma obj_set_fresh o k v :
  ~ In k (obj_keys o) -> obj_set o k v = o ++ [(k, v)].
Proof.
  unfold obj_keys. induction o as [|[k' v'] o IH]; simpl; intros H; auto.
  destruct (String.eqb_spec k' k) as [->|]; [tauto|].
  rewrite IH; tauto.
Qed.

Lemma obj_set_Forall (P : string * V -> Prop) o k v :
  Forall P o -> P (k, v) -> Forall P (obj_set o k v).
Proof.
  intros Ho Hkv. induction o as [|[k' v'] o IH]; simpl.
  - now constructor.
  - inversion Ho; subst. destruct (String.eqb k' k) eqn:E.
    + apply String.eqb_eq in E. subst. now constructor.
    + constructor; auto.
Qed.

Lemma obj_get_None o k : obj_get o k = None <-> ~ In k (obj_keys o).
Proof.
  unfold obj_keys. induction o as [|[k' v'] o IH]; simpl.
  - tauto.
  - destruct (String.eqb_spec k' k) as [->|]; [|tauto].
    split; [discriminate|tauto].
Qed.

Lemma obj_get_Some_In o k v : obj_get o k = Some v -> In (k, v) o.
Proof.
  induction o as [|[k' v'] o IH]; simpl; [discriminate|].
  destruct (String.eqb_spec k' k) as [->|]; intros H; [left|right]; auto.
  congruence.
Qed.

Lemma obj_get_In_keys o k v : obj_get o k = Some v -> In k (obj_keys o).
Proof.
  intros H. apply obj_get_Some_In in H.
  unfold obj_keys. apply in_map_iff. now exists (k, v).
Qed.

Lemma obj_In_get o k v :
  NoDup (obj_keys o) -> In (k, v) o -> obj_get o k = Some v.
Proof.
  unfold obj_keys. induction o as [|[k' v'] o IH]; simpl; [tauto|].
  intros Hd [Heq|Hin]; inversion Hd as [|? ? Hn Hd']; subst.
  - inversion Heq; subst. now rewrite String.eqb_refl.
  - destruct (String.eqb_spec k' k) as [->|]; auto.
    exfalso. apply Hn. apply in_map_iff. now exists (k, v).
Qed.

Lemma has_key_In o k : has_key o k = true <-> In k (obj_keys o).
Proof.
  unfold has_key. rewrite existsb_exists. split.
  - intros (x & Hin & E). apply String.eqb_eq in E. now subst.
  - intros H. exists k. split; auto. apply String.eqb_refl.
Qed.

(** Assigning the entries of an object (or of any array whose keys
    are distinct) one by one rebuilds it after what was there. *)
Lemma fold_obj_set_app (l acc : list (string * V)) :
  NoDup (obj_keys (acc ++ l)) ->
  fold_left (fun o kv => obj_set o (fst kv) (snd kv)) l acc = acc ++ l.
Proof.
  revert acc. induction l as [|[k v] l IH]; intros acc Hd; simpl.
  - now rewrite app_nil_r.
  - assert (Hk : ~ In k (obj_keys acc)).
    { unfold obj_keys in *. rewrite map_app in Hd. simpl in Hd.
      apply NoDup_remove_2 in Hd. rewrite in_app_iff in Hd. tauto. }
    rewrite (obj_set_fresh _ _ _ Hk), IH, <- app_assoc; auto.
    now rewrite <- app_assoc.
Qed.

Lemma obj_of_entries_NoDup (l : list (string * V)) :
  NoDup (obj_keys l) -> obj_of_entries l = l.
Proof. intros H. unfold obj_of_entries. now rewrite fold_obj_set_app. Qed.

(** Whatever the entries, the keys of the object built are distinct,
    and they are the keys of the entries. *)
Lemma fold_obj_set_NoDup (l acc : list (string * V)) :
  NoDup (obj_keys acc) ->
  NoDup (obj_keys (fold_left (fun o kv => obj_set o (fst kv) (snd kv)) l acc)).
Proof.
  revert acc. induction l as [|[k v] l IH]; intros acc Hd; simpl; auto.
  apply IH, obj_set_NoDup, Hd.
Qed.

(** The value found after the loop is the one of the last entry with
    that key. *)
Lemma fold_obj_set_get_last (pre post acc : list (string * V)) k v :
  ~ In k (obj_keys post) ->
  obj_get (fold_left (fun o kv => obj_set o (fst kv) (snd kv))
             (pre ++ (k, v) :: post) acc) k = Some v.
Proof.
  intros Hpost. rewrite fold_left_app. simpl.
  set (o := obj_set _ k v).
  assert (Ho : obj_get o k = Some v) by apply obj_get_set_same.
  clearbody o. revert o Ho.
  induction post as [|[k' v'] post IH]; intros o Ho; simpl; auto.
  simpl in Hpost. apply IH; [tauto|].
  rewrite obj_get_set_other; auto.
Qed.

(** Looking a key up does not depend on the order of the properties. *)
Lemma obj_get_Permutation (o o' : obj V) k :
  NoDup (obj_keys o) -> Permutation o o' -> obj_get o k = obj_get o' k.
Proof.
  intros Hd Hp.
  assert (Hd' : NoDup (obj_keys o')).
  { unfold obj_keys. eapply Permutation_NoDup; [|exact Hd].
    now apply Permutation_map. }
  destruct (obj_get o k) as [v|] eqn:E.
  - symmetry. apply obj_In_get; auto.
    eapply Permutation_in; [exact Hp|]. now apply obj_get_Some_In.
  - symmetry. apply obj_get_None. apply obj_get_None in E.
    intros Hin. apply E. unfold obj_keys in *.
    eapply Permutation_in; [|exact Hin].
    apply Permutation_map. now apply Permutation_sym.
Qed.
End ObjFacts.

(** ** Sorting *)

Section SortFacts.
Context {A : Type}.
Variable comparefn : A -> A -> number.

Lemma sort_insert_Permutation x l :
  Permutation (x :: l) (sort_insert comparefn x l).
Proof.
  induction l as [|y l IH]; simpl; auto.
  destruct (gt (comparefn x y) 0%float); auto.
  eapply perm_trans; [apply perm_swap|]. now constructor.
Qed.

Lemma Array_sort_Permutation l : Permutation l (Array_sort comparefn l).
Proof.
  induction l as [|x l IH]; simpl; auto.
  eapply perm_trans; [|apply sort_insert_Permutation]. now constructor.
Qed.

(** The comparator never asks for both orders of a pair. *)
Hypothesis comparefn_antisym :
  forall a b,
    gt (comparefn a b) 0%float = true -> gt (comparefn b a) 0%float = false.

Lemma sort_insert_ordered x l :
  ordered_by (in_order comparefn) l = true ->
  ordered_by (in_order comparefn) (sort_insert comparefn x l) = true.
Proof.
  induction l as [|y l IH]; intros Hs; [reflexivity|].
  cbn [sort_insert]. destruct (gt (comparefn x y) 0%float) eqn:E.
  - destruct l as [|z l].
    + cbn. unfold in_order. now rewrite (comparefn_antisym _ _ E).
    + cbn [ordered_by] in Hs. apply andb_true_iff in Hs as [Hyz Hs].
      specialize (IH Hs). cbn [sort_insert] in IH |- *.
      destruct (gt (comparefn x z) 0%float) eqn:Ez.
      * cbn [ordered_by]. rewrite Hyz. exact IH.
      * cbn [ordered_by]. unfold in_order at 1.
        rewrite (comparefn_antisym _ _ E). exact IH.
  - cbn [ordered_by]. unfold in_order at 1. rewrite E. exact Hs.
Qed.

Lemma Array_sort_ordered l :
  ordered_by (in_order comparefn) (Array_sort comparefn l) = true.
Proof.
  induction l as [|x l IH]; [reflexivity|].
  now apply sort_insert_ordered.
Qed.
End SortFacts.

(** ** The specification of binary64 arithmetic *)

Section SpecFloatFacts.
Local Open Scope Z_scope.

(** The number of binary digits of a mantissa bounds it on both sides. *)
Lemma digits2_size m : digits2_pos m = Pos.size m.
Proof. induction m; simpl; congruence. Qed.

Lemma digits2_upper m : Zpos m < 2 ^ Zpos (digits2_pos m).
Proof.
  rewrite digits2_size. pose proof (Pos.size_gt m) as H.
  apply Pos2Z.pos_lt_pos in H. now rewrite Pos2Z.inj_pow in H.
Qed.

Lemma digits2_lower m : 2 ^ (Zpos (digits2_pos m) - 1) <= Zpos m.
Proof.
  rewrite digits2_size. pose proof (Pos.size_le m) as H.
  apply Pos2Z.pos_le_pos in H. rewrite Pos2Z.inj_pow in H.
  replace (Zpos (Pos.size m)) with (Zpos (Pos.size m) - 1 + 1) in H by lia.
  rewrite Z.pow_add_r in H by lia. change (2 ^ 1) with 2 in H.
  change (Z.pos m~0) with (2 * Z.pos m) in H. lia.
Qed.

Lemma shl_align_value m e ez :
  ez <= e -> Zpos (fst (shl_align m e ez)) = Zpos m * 2 ^ (e - ez).
Proof.
  intros H. unfold shl_align.
  destruct (ez - e) as [|d|d] eqn:E; try lia.
  - replace (e - ez) with 0 by lia. simpl. lia.
  - cbn [fst]. change (Pos.iter xO m d) with (shift_pos d m).
    rewrite shift_pos_correct.
    replace (e - ez) with (Zpos d) by lia.
    change (2 ^ Z.pos d) with (Z.pow_pos 2 d). lia.
Qed.

(** Shifting a mantissa to the right divides it. *)
Lemma shr_1_m mrs : 0 <= shr_m mrs -> shr_m (shr_1 mrs) = shr_m mrs / 2.
Proof.
  destruct mrs as [m r s]. simpl. intros H.
  destruct m as [|[p|p|]|p]; simpl; try reflexivity; try lia.
  - rewrite Pos2Z.inj_xI. apply Z.div_unique with 1; lia.
  - rewrite Pos2Z.inj_xO. apply Z.div_unique with 0; lia.
Qed.

Lemma iter_shr_1_m n : forall mrs,
  0 <= shr_m mrs ->
  shr_m (iter_pos shr_1 n mrs) = shr_m mrs / 2 ^ Zpos n.
Proof.
  induction n as [n IH|n IH|]; intros mrs H; simpl iter_pos.
  - assert (H1 : 0 <= shr_m (shr_1 mrs)).
    { rewrite shr_1_m by auto. apply Z.div_pos; lia. }
    assert (H2 : 0 <= shr_m (iter_pos shr_1 n (shr_1 mrs))).
    { rewrite IH by auto. apply Z.div_pos; lia. }
    rewrite IH, IH, shr_1_m by auto.
    rewrite !Z.div_div by lia. f_equal.
    replace (Z.pos n~1) with (1 + Z.pos n + Z.pos n) by lia.
    rewrite !Z.pow_add_r by lia. change (2 ^ 1) with 2. ring.
  - assert (H2 : 0 <= shr_m (iter_pos shr_1 n mrs)).
    { rewrite IH by auto. apply Z.div_pos; lia. }
    rewrite IH, IH by auto. rewrite Z.div_div by lia. f_equal.
    replace (Z.pos n~0) with (Z.pos n + Z.pos n) by lia.
    now rewrite Z.pow_add_r by lia.
  - rewrite shr_1_m by auto. reflexivity.
Qed.

Lemma fexp_emin x : -1074 <= fexp prec emax x.
Proof. unfold fexp, SpecFloat.emin, prec, emax. lia. Qed.

Lemma shr_record_of_loc_m m l : shr_m (shr_record_of_loc m l) = m.
Proof. now destruct l as [|[]]. Qed.

(** Rounding a positive mantissa at an exponent of at least [emin]
    gives a positive result: the shift leaves its leading digit. *)
Lemma shr_fexp_pos m e l :
  0 < m -> -1074 <= e ->
  0 < shr_m (fst (shr_fexp prec emax m e l))
  /\ -1074 <= snd (shr_fexp prec emax m e l).
Proof.
  intros Hm He. unfold shr_fexp, shr.
  destruct m as [|pm|pm]; try lia.
  destruct (fexp prec emax (Zdigits2 (Z.pos pm) + e) - e) as [|p|p] eqn:E;
    cbn [fst snd]; rewrite ?shr_record_of_loc_m; try (split; lia).
  rewrite iter_shr_1_m by (rewrite shr_record_of_loc_m; lia).
  rewrite shr_record_of_loc_m. split; [|lia].
  pose proof (digits2_lower pm) as Hl.
  assert (Hp : Z.pos p <= Z.pos (digits2_pos pm) - 1).
  { revert E. unfold fexp, SpecFloat.emin, prec, emax. simpl Zdigits2. lia. }
  assert (2 ^ Z.pos p <= 2 ^ (Z.pos (digits2_pos pm) - 1))
    by (apply Z.pow_le_mono_r; lia).
  apply Z.div_str_pos. split; [apply Z.pow_pos_nonneg|]; lia.
Qed.

Lemma binary_round_aux_pos m e l :
  0 < m -> -1074 <= e ->
  SFltb (S754_zero false) (binary_round_aux prec emax false m e l) = true.
Proof.
  intros Hm He. unfold binary_round_aux.
  pose proof (shr_fexp_pos m e l Hm He) as [H1 H2].
  destruct (shr_fexp prec emax m e l) as [mrs' e']. cbn [fst snd] in H1, H2.
  set (m' := round_nearest_even (shr_m mrs') (loc_of_shr_record mrs')).
  assert (Hm' : 0 < m').
  { unfold m', round_nearest_even.
    destruct (loc_of_shr_record mrs') as [|[]]; try lia.
    destruct (Z.even (shr_m mrs')); lia. }
  pose proof (shr_fexp_pos m' e' loc_Exact Hm' H2) as [H3 H4].
  destruct (shr_fexp prec emax m' e' loc_Exact) as [mrs'' e''].
  cbn [fst snd] in H3, H4.
  destruct (shr_m mrs'') as [|p|p]; try lia.
  now destruct (e'' <=? emax - prec).
Qed.

Lemma binary_round_pos m e :
  -1074 <= e ->
  SFltb (S754_zero false) (binary_round prec emax false m e) = true.
Proof.
  intros He. unfold binary_round.
  destruct (shl_align m e _) as [mz ez] eqn:E.
  apply binary_round_aux_pos; [lia|].
  unfold shl_align in E.
  destruct (fexp prec emax (Z.pos (digits2_pos m) + e) - e) eqn:E';
    inversion E; subst; auto. apply fexp_emin.
Qed.

(** The exponent of a canonical representation is at least [emin]. *)
Lemma bounded_emin m e : bounded prec emax m e = true -> -1074 <= e.
Proof.
  unfold bounded, canonical_mantissa. intros H.
  apply andb_true_iff in H. destruct H as [H _]. apply Z.eqb_eq in H.
  rewrite <- H. apply fexp_emin.
Qed.

(** Of two canonical representations, the one with the larger exponent
    is the larger number. *)
Lemma bounded_lt m1 e1 m2 e2 :
  bounded prec emax m1 e1 = true -> bounded prec emax m2 e2 = true ->
  e1 < e2 -> Zpos m1 < Zpos m2 * 2 ^ (e2 - e1).
Proof.
  unfold bounded, canonical_mantissa. intros H1 H2 He.
  apply andb_true_iff in H1. destruct H1 as [H1 _]. apply Z.eqb_eq in H1.
  apply andb_true_iff in H2. destruct H2 as [H2 _]. apply Z.eqb_eq in H2.
  unfold fexp, SpecFloat.emin, prec, emax in H1, H2.
  pose proof (digits2_upper m1) as U1. pose proof (digits2_lower m2) as L2.
  assert (D1 : Z.pos (digits2_pos m1) <= 53) by lia.
  assert (D2 : Z.pos (digits2_pos m2) = 53) by lia.
  rewrite D2 in L2. change (2 ^ (53 - 1)) with 4503599627370496 in L2.
  assert (2 ^ Z.pos (digits2_pos m1) <= 2 ^ 53) by (apply Z.pow_le_mono_r; lia).
  change (2 ^ 53) with 9007199254740992 in *.
  assert (2 ^ 1 <= 2 ^ (e2 - e1)) by (apply Z.pow_le_mono_r; lia).
  change (2 ^ 1) with 2 in *. nia.
Qed.

(** On numbers, [y > x] makes [y - x] positive: the difference of the
    aligned mantissas is positive, and rounding keeps it so. *)
Lemma SF64sub_positive y x :
  valid_binary y = true -> valid_binary x = true ->
  SFcompare y x = Some Gt ->
  SFltb (S754_zero false) (SF64sub y x) = true.
Proof.
  unfold SF64sub.
  destruct y as [sy|sy| |sy my ey], x as [sx|sx| |sx mx ex]; simpl;
    intros Vy Vx H; try discriminate;
    try (destruct sy; simpl in *; try discriminate; reflexivity);
    try (destruct sx; simpl in *; try discriminate; reflexivity);
    try (destruct sy, sx; simpl in *; try discriminate; reflexivity).
  pose proof (bounded_emin _ _ Vy) as Ey.
  pose proof (bounded_emin _ _ Vx) as Ex.
  rewrite !shl_align_value by lia.
  set (ez := Z.min ey ex).
  assert (Hpos : 0 < cond_Zopp sy (Z.pos my * 2 ^ (ey - ez))
                     - cond_Zopp sx (Z.pos mx * 2 ^ (ex - ez))).
  { assert (Py : 0 < Z.pos my * 2 ^ (ey - ez))
      by (apply Z.mul_pos_pos; [lia|apply Z.pow_pos_nonneg; lia]).
    assert (Px : 0 < Z.pos mx * 2 ^ (ex - ez))
      by (apply Z.mul_pos_pos; [lia|apply Z.pow_pos_nonneg; lia]).
    destruct sy, sx; unfold cond_Zopp; try discriminate; try lia.
    - destruct (Z.compare_spec ey ex) as [E|E|E]; try discriminate.
      + subst ex. replace (ey - ez) with 0 by lia. rewrite Z.pow_0_r.
        assert (Pos.compare_cont Eq my mx = Lt)
          by (destruct (Pos.compare_cont Eq my mx); simpl in H; congruence).
        assert (Z.pos my < Z.pos mx) by (now apply Pos2Z.pos_lt_pos).
        lia.
      + pose proof (bounded_lt _ _ _ _ Vy Vx E).
        replace (ey - ez) with 0 by lia.
        replace (ex - ez) with (ex - ey) by lia.
        rewrite Z.pow_0_r. lia.
    - destruct (Z.compare_spec ey ex) as [E|E|E]; try discriminate.
      + subst ex. replace (ey - ez) with 0 by lia. rewrite Z.pow_0_r.
        assert (Z.pos mx < Z.pos my).
        { apply Pos2Z.pos_lt_pos, Pos.gt_lt. unfold Pos.gt, Pos.compare.
          congruence. }
        lia.
      + pose proof (bounded_lt _ _ _ _ Vx Vy E).
        replace (ex - ez) with 0 by lia.
        replace (ey - ez) with (ey - ex) by lia.
        rewrite Z.pow_0_r. lia. }
  destruct (cond_Zopp sy _ - cond_Zopp sx _) as [|p|p]; try lia.
  simpl. apply binary_round_pos. unfold ez. lia.
Qed.

Lemma SFcompare_None y x : SFcompare y x = None -> y = S754_nan \/ x = S754_nan.
Proof.
  destruct y as [sy|sy| |sy my ey], x as [sx|sx| |sx mx ex]; simpl; auto;
    discriminate.
Qed.

(** Rounding a non-negative mantissa does not give [NaN]. *)
Lemma shr_fexp_nonneg m e l :
  0 <= m -> 0 <= shr_m (fst (shr_fexp prec emax m e l)).
Proof.
  intros Hm. unfold shr_fexp, shr.
  destruct (fexp prec emax (Zdigits2 m + e) - e) as [|p|p];
    cbn [fst]; rewrite ?shr_record_of_loc_m; auto.
  rewrite iter_shr_1_m by (now rewrite shr_record_of_loc_m).
  rewrite shr_record_of_loc_m. apply Z.div_pos; lia.
Qed.

Lemma binary_round_aux_not_nan s m e l :
  0 <= m -> binary_round_aux prec emax s m e l <> S754_nan.
Proof.
  intros Hm. unfold binary_round_aux.
  pose proof (shr_fexp_nonneg m e l Hm) as H1.
  destruct (shr_fexp prec emax m e l) as [mrs' e']. cbn [fst] in H1.
  set (m' := round_nearest_even (shr_m mrs') (loc_of_shr_record mrs')).
  assert (Hm' : 0 <= m').
  { unfold m', round_nearest_even.
    destruct (loc_of_shr_record mrs') as [|[]]; try lia.
    destruct (Z.even (shr_m mrs')); lia. }
  pose proof (shr_fexp_nonneg m' e' loc_Exact Hm') as H3.
  destruct (shr_fexp prec emax m' e' loc_Exact) as [mrs'' e''].
  cbn [fst] in H3.
  destruct (shr_m mrs'') as [|p|p]; try lia; try discriminate.
  destruct (e'' <=? emax - prec); discriminate.
Qed.

Lemma SFdiv_core_nonneg m1 e1 m2 e2 :
  0 <= fst (fst (SFdiv_core_binary prec emax (Zpos m1) e1 (Zpos m2) e2)).
Proof.
  unfold SFdiv_core_binary.
  set (s := (_ - _ - _)).
  set (m' := match s with
             | Z.pos _ => Z.shiftl (Z.pos m1) s
             | 0 => Z.pos m1
             | Z.neg _ => 0
             end).
  assert (Hm' : 0 <= m').
  { unfold m'. destruct s; try lia. apply Z.shiftl_nonneg. lia. }
  pose proof (Z_div_mod m' (Z.pos m2) eq_refl) as H.
  destruct (Z.div_eucl m' (Z.pos m2)) as [q r]. cbn [fst].
  destruct H as [H1 H2]. nia.
Qed.
End SpecFloatFacts.

(** ** Numbers *)

Section NumberFacts.
Local Open Scope float_scope.

Lemma SFcompare_refl x : x <> S754_nan -> SFcompare x x = Some Eq.
Proof.
  destruct x as [s|s| |s m e]; simpl; intros H; try congruence.
  - now destruct s.
  - rewrite Z.compare_refl, Pos.compare_cont_refl. now destruct s.
Qed.

Lemma is_nan_spec x : is_nan x = true <-> Prim2SF x = S754_nan.
Proof.
  unfold is_nan. rewrite eqb_spec. unfold SFeqb. split.
  - intros H. destruct (Prim2SF x) eqn:E; auto;
      rewrite SFcompare_refl in H; discriminate.
  - intros ->. reflexivity.
Qed.

Lemma is_zero_spec x : is_zero x = true <-> exists s, Prim2SF x = S754_zero s.
Proof.
  unfold is_zero. rewrite eqb_spec.
  change (Prim2SF zero) with (S754_zero false). unfold SFeqb. split.
  - destruct (Prim2SF x) as [s|s| |s m e]; simpl; eauto; try discriminate;
      destruct s; discriminate.
  - intros [s ->]. reflexivity.
Qed.

(** A result rounded with the negative sign is not above zero. *)
Lemma binary_round_aux_neg m e l :
  SFltb (S754_zero false) (binary_round_aux prec emax true m e l) = false.
Proof.
  unfold binary_round_aux.
  destruct (shr_fexp prec emax m e l) as [mrs' e'].
  destruct (shr_fexp prec emax _ e' loc_Exact) as [mrs'' e''].
  destruct (shr_m mrs''); auto.
  destruct (e'' <=? emax - prec)%Z; auto.
Qed.

Lemma binary_round_neg m e :
  SFltb (S754_zero false) (binary_round prec emax true m e) = false.
Proof.
  unfold binary_round. destruct (shl_align m e _) as [mz ez].
  apply binary_round_aux_neg.
Qed.

Lemma SF64sub_antisym x y :
  SFltb (S754_zero false) (SF64sub x y) = true ->
  SFltb (S754_zero false) (SF64sub y x) = false.
Proof.
  unfold SF64sub.
  destruct x as [sx|sx| |sx mx ex], y as [sy|sy| |sy my ey]; simpl;
    try discriminate;
    try (destruct sx; simpl; try discriminate; try reflexivity; fail);
    try (destruct sy; simpl; try discriminate; try reflexivity; fail);
    try (destruct sx, sy; simpl; try discriminate; try reflexivity; fail).
  rewrite (Z.min_comm ey ex).
  set (a := cond_Zopp sx _). set (b := cond_Zopp sy _).
  replace (b - a)%Z with (- (a - b))%Z by lia.
  destruct (a - b)%Z as [|p|p]; simpl; intros H.
  - reflexivity.
  - apply binary_round_neg.
  - rewrite binary_round_neg in H. discriminate.
Qed.

(** [a - b > 0] and [b - a > 0] never hold together. *)
Lemma sub_positive_antisym a b :
  gt (a - b) 0 = true -> gt (b - a) 0 = false.
Proof.
  unfold gt. rewrite !ltb_spec, !sub_spec.
  apply SF64sub_antisym.
Qed.

Lemma SFcompare_Eq_sym x y :
  SFcompare x y = Some Eq -> SFcompare y x = Some Eq.
Proof.
  destruct x as [sx|sx| |sx mx ex], y as [sy|sy| |sy my ey]; simpl; auto;
    try (destruct sx; discriminate); try (destruct sy; discriminate);
    try (destruct sx, sy; auto; discriminate).
  intros H.
  assert (He : ex = ey /\ mx = my).
  { destruct sx, sy; try discriminate;
      destruct (Z.compare_spec ex ey); try discriminate;
      split; auto; apply Pos.compare_eq; unfold Pos.compare;
      destruct (Pos.compare_cont Eq mx my); simpl in H; congruence. }
  destruct He as [-> ->].
  rewrite Z.compare_refl, Pos.compare_cont_refl. now destruct sx, sy.
Qed.

(** [x == y] implies [x >= y]. *)
Lemma eqb_ge x y : (x =? y) = true -> ge x y = true.
Proof.
  unfold ge. rewrite eqb_spec, leb_spec. unfold SFeqb, SFleb.
  destruct (SFcompare (Prim2SF x) (Prim2SF y)) as [[]|] eqn:E;
    try discriminate.
  now rewrite (SFcompare_Eq_sym _ _ E).
Qed.

(** [Infinity >= t] for every number [t], and [NaN >= t] for none. *)
Lemma infinity_ge t : is_nan t = false -> ge infinity t = true.
Proof.
  intros H. unfold ge. rewrite leb_spec.
  change (Prim2SF infinity) with (S754_infinity false).
  destruct (Prim2SF t) as [s|s| |s m e] eqn:E; try reflexivity.
  - now destruct s.
  - apply is_nan_spec in E. congruence.
Qed.

Lemma nan_ge x t : is_nan x = true -> ge x t = false.
Proof.
  intros H. apply is_nan_spec in H. unfold ge. rewrite leb_spec, H.
  unfold SFleb. now destruct (Prim2SF t).
Qed.

Lemma Prim2SF_100 : Prim2SF 100 = S754_finite false 7036874417766400 (-46).
Proof. reflexivity. Qed.

(** Dividing by a zero baseline: [Infinity] for a size that is neither
    zero nor [NaN], [NaN] otherwise. *)
Lemma percent_of_zero_baseline c m :
  is_zero m = true -> truthy c = true ->
  abs ((c - m) / m * 100) = infinity.
Proof.
  intros Hm Hc. apply Prim2SF_inj.
  rewrite abs_spec, mul_spec, div_spec, sub_spec, Prim2SF_100.
  apply is_zero_spec in Hm. destruct Hm as [sm ->].
  unfold truthy in Hc. apply negb_true_iff, orb_false_iff in Hc.
  destruct Hc as [Hz Hn].
  destruct (Prim2SF c) as [s|s| |s mc ec] eqn:E.
  - assert (is_zero c = true) by (apply is_zero_spec; eauto). congruence.
  - reflexivity.
  - apply is_nan_spec in E. congruence.
  - reflexivity.
Qed.

Lemma percent_of_zero_by_zero c m :
  is_zero m = true -> truthy c = false ->
  is_nan (abs ((c - m) / m * 100)) = true.
Proof.
  intros Hm Hc. apply is_nan_spec.
  rewrite abs_spec, mul_spec, div_spec, sub_spec, Prim2SF_100.
  apply is_zero_spec in Hm. destruct Hm as [sm ->].
  unfold truthy in Hc. apply negb_false_iff, orb_true_iff in Hc.
  destruct Hc as [Hz|Hn].
  - apply is_zero_spec in Hz. destruct Hz as [sc ->].
    now destruct sc, sm.
  - apply is_nan_spec in Hn. now rewrite Hn.
Qed.

Lemma truthy_not_zero x : truthy x = true -> is_zero x = false.
Proof.
  unfold truthy. intros H. apply negb_true_iff, orb_false_iff in H. tauto.
Qed.

Lemma is_nan_false_spec x : is_nan x = false <-> Prim2SF x <> S754_nan.
Proof.
  rewrite <- is_nan_spec. destruct (is_nan x); split; congruence.
Qed.

(** On numbers, [b - a > 0] fails exactly when [a >= b]. *)
Lemma sub_not_positive_ge a b :
  is_nan a = false -> is_nan b = false ->
  gt (b - a) 0 = false -> ge a b = true.
Proof.
  unfold gt, ge. rewrite ltb_spec, sub_spec, leb_spec.
  change (Prim2SF 0) with (S754_zero false).
  intros Ha Hb H. apply is_nan_false_spec in Ha, Hb.
  unfold SFleb. destruct (SFcompare (Prim2SF b) (Prim2SF a)) as [[]|] eqn:E;
    auto.
  - pose proof (SF64sub_positive _ _ (Prim2SF_valid b) (Prim2SF_valid a) E).
    congruence.
  - apply SFcompare_None in E. tauto.
Qed.

Lemma of_Z_div_100_not_nan n : is_nan (of_Z n / 100) = false.
Proof.
  apply is_nan_false_spec. unfold of_Z.
  rewrite div_spec, of_uint63_spec, Prim2SF_100.
  pose proof (Uint63.to_Z_bounded (Uint63.of_Z n)) as [Hn _].
  destruct (Uint63.to_Z (Uint63.of_Z n)) as [|p|p]; try lia.
  - discriminate.
  - cbn [binary_normalize].
    pose proof (binary_round_pos p 0 ltac:(lia)) as Hp.
    destruct (binary_round prec emax false p 0) as [s|s| |s m e];
      try discriminate.
    unfold SF64div, SFdiv.
    pose proof (SFdiv_core_nonneg m e 7036874417766400 (-46)) as Hq.
    destruct (SFdiv_core_binary prec emax (Z.pos m) e _ _) as [[mz ez] lz].
    cbn [fst] in Hq. now apply binary_round_aux_not_nan.
Qed.

Lemma opp_not_nan x : is_nan x = false -> is_nan (- x) = false.
Proof.
  rewrite !is_nan_false_spec, opp_spec. now destruct (Prim2SF x).
Qed.

Lemma round2_not_nan x : is_nan x = false -> is_nan (round2 x) = false.
Proof.
  intros H. unfold round2.
  destruct (is_nan x || is_infinity x); auto.
  destruct (two_46 <=? abs x); auto.
  destruct (x <? 0); [apply opp_not_nan|]; apply of_Z_div_100_not_nan.
Qed.

Lemma percent_ge_not_nan c m t :
  ge (abs ((c - m) / m * 100)) t = true -> is_nan (c - m) = false.
Proof.
  intros H. destruct (is_nan (c - m)) eqn:E; auto.
  rewrite nan_ge in H; [discriminate|].
  apply is_nan_spec in E. apply is_nan_spec.
  now rewrite abs_spec, mul_spec, div_spec, E.
Qed.
End NumberFacts.

(** [parseFloat(x.toFixed(2))] on a few numbers: 1.005 is printed as
    [1.00], [-0.001] as [-0.00], [-0] as [0.00], 1e22 as [1e+22]. *)
Example round2_examples :
  (round2 6 = 6
   /\ round2 (1500 / 1024) = 146 / 100
   /\ round2 (1005 / 1000) = 1
   /\ round2 (3 / 10 - 1 / 10) = 2 / 10
   /\ round2 (-25 / 10) = -25 / 10
   /\ round2 (-1 / 1000) = neg_zero
   /\ round2 neg_zero = 0
   /\ round2 infinity = infinity
   /\ round2 (1000000000000000000000 * 10) = 1000000000000000000000 * 10)%float.
Proof. repeat split. Qed.

(** ** The constructor *)

Lemma or_number_truthy a b : truthy b = true -> truthy (or_number a b) = true.
Proof.
  intros Hb. unfold or_number. destruct a as [x|]; auto.
  destruct (truthy x) eqn:E; auto.
Qed.

Lemma or_number_falsy x b : truthy x = false -> or_number (Some x) b = b.
Proof. intros H. unfold or_number. now rewrite H. Qed.

(** C10. The numeric options go through [||]: a threshold or a limit of
    [0] is replaced by its default (5, 250, 20), and so is any falsy
    number; whatever the options, the configured threshold and limits
    are never zero (nor [NaN]). *)
Theorem constructor_zero_is_default (options : Options.t) :
  Config.changeThreshold
    (constructor (Options.with_changeThreshold 0%float options)) = 5%float
  /\ Config.splittingUpperLimit
       (constructor (Options.with_splittingUpperLimit 0%float options)) = 250%float
  /\ Config.splittingLowerLimit
       (constructor (Options.with_splittingLowerLimit 0%float options)) = 20%float
  /\ (forall x, truthy x = false ->
        Config.changeThreshold
          (constructor (Options.with_changeThreshold x options)) = 5%float
        /\ Config.splittingUpperLimit
             (constructor (Options.with_splittingUpperLimit x options)) = 250%float
        /\ Config.splittingLowerLimit
             (constructor (Options.with_splittingLowerLimit x options)) = 20%float)
  /\ truthy (Config.changeThreshold (constructor options)) = true
  /\ truthy (Config.splittingUpperLimit (constructor options)) = true
  /\ truthy (Config.splittingLowerLimit (constructor options)) = true
  /\ is_zero (Config.changeThreshold (constructor options)) = false
  /\ is_zero (Config.splittingUpperLimit (constructor options)) = false
  /\ is_zero (Config.splittingLowerLimit (constructor options)) = false.
Proof.
  assert (H5 : truthy (Config.changeThreshold (constructor options)) = true)
    by (now apply or_number_truthy).
  assert (H250 : truthy (Config.splittingUpperLimit (constructor options)) = true)
    by (now apply or_number_truthy).
  assert (H20 : truthy (Config.splittingLowerLimit (constructor options)) = true)
    by (now apply or_number_truthy).
  repeat split; try reflexivity; auto using truthy_not_zero;
    cbn; now apply or_number_falsy.
Qed.

(** ** The verdict and the failure flag *)

Lemma isSuccess_spec failedFiles :
  isSuccess failedFiles = true
  <-> FailedFiles.aboveAverageFiles failedFiles = []
      /\ FailedFiles.belowAverageFiles failedFiles = [].
Proof.
  unfold isSuccess. rewrite andb_true_iff, !Nat.eqb_eq, !length_zero_iff_nil.
  tauto.
Qed.

(** C2. The verdict is pass exactly when both lists are empty.  On pass
    [writeFailureFlag] returns and leaves the world as it was; otherwise
    it calls [writeFileSync] on the marker path: where that path can be
    written, the marker is there afterwards with its text and no other
    file changes; where it cannot, the error is logged and thrown again,
    and no file changes. *)
Theorem verdict_and_failure_flag
    (config : Config.t) (failedFiles : FailedFiles.t) (w : World) :
  (isSuccess failedFiles = true
   <-> FailedFiles.aboveAverageFiles failedFiles = []
       /\ FailedFiles.belowAverageFiles failedFiles = [])
  /\ (isSuccess failedFiles = true ->
      writeFailureFlag config failedFiles w = Normal w)
  /\ (isSuccess failedFiles = false ->
      Array_includes (unwritable w) (failure_path config w) = false ->
      exists w',
        writeFailureFlag config failedFiles w = Normal w'
        /\ obj_get (files w') (failure_path config w) = Some failure_text
        /\ (forall p, p <> failure_path config w ->
              obj_get (files w') p = obj_get (files w) p))
  /\ (isSuccess failedFiles = false ->
      Array_includes (unwritable w) (failure_path config w) = true ->
      exists w' message,
        writeFailureFlag config failedFiles w = Throw w' message
        /\ files w' = files w).
Proof.
  split; [apply isSuccess_spec|].
  unfold writeFailureFlag, writeFileSync.
  split; [|split]; intros Hs; rewrite Hs; simpl.
  - reflexivity.
  - intros ->. eexists. split; [reflexivity|]. simpl. split.
    + apply obj_get_set_same.
    + intros p Hp. apply obj_get_set_other. congruence.
  - intros ->. do 2 eexists. split; reflexivity.
Qed.

(** ** checkFileSize *)

Section CheckFacts.
Variable config : Config.t.


(** The loop of [checkFileSize] appends, in order, the files that fail
    each check. *)
Lemma checkFileSize_loop (files : obj number) (acc : FailedFiles.t) :
  fold_left
    (fun failed '(fileName, fileSize) =>
       if isAboveAverageFile config fileName fileSize then {|
         FailedFiles.aboveAverageFiles :=
           FailedFiles.aboveAverageFiles failed
             ++ [{| fileName := fileName; fileSize := fileSize |}];
         FailedFiles.belowAverageFiles := FailedFiles.belowAverageFiles failed
       |}
       else if isBelowAverageFile config fileName fileSize then {|
         FailedFiles.aboveAverageFiles := FailedFiles.aboveAverageFiles failed;
         FailedFiles.belowAverageFiles :=
           FailedFiles.belowAverageFiles failed
             ++ [{| fileName := fileName; fileSize := fileSize |}]
       |}
       else failed)
    files acc
  = {| FailedFiles.aboveAverageFiles :=
         FailedFiles.aboveAverageFiles acc ++ map failed_of (filter (fails_above config) files);
       FailedFiles.belowAverageFiles :=
         FailedFiles.belowAverageFiles acc ++ map failed_of (filter (fails_below config) files) |}.
Proof.
  revert acc. induction files as [|[n s] files IH]; intros acc; simpl.
  - rewrite !app_nil_r. now destruct acc.
  - rewrite IH. unfold fails_above, fails_below. simpl.
    destruct (isAboveAverageFile config n s); simpl.
    + now rewrite <- app_assoc.
    + destruct (isBelowAverageFile config n s); simpl; auto.
      now rewrite <- app_assoc.
Qed.

Lemma checkFileSize_above diff f :
  In f (FailedFiles.aboveAverageFiles (checkFileSize config diff))
  <-> In (fileName f, fileSize f) (extractFileSizes diff)
      /\ isAboveAverageFile config (fileName f) (fileSize f) = true.
Proof.
  unfold checkFileSize. rewrite checkFileSize_loop. simpl.
  rewrite in_map_iff. split.
  - intros ([n s] & <- & Hin). apply filter_In in Hin. exact Hin.
  - intros [Hin Ha]. exists (fileName f, fileSize f). split.
    + now destruct f.
    + apply filter_In. auto.
Qed.

Lemma checkFileSize_below diff f :
  In f (FailedFiles.belowAverageFiles (checkFileSize config diff))
  <-> In (fileName f, fileSize f) (extractFileSizes diff)
      /\ isAboveAverageFile config (fileName f) (fileSize f) = false
      /\ isBelowAverageFile config (fileName f) (fileSize f) = true.
Proof.
  unfold checkFileSize. rewrite checkFileSize_loop. simpl.
  rewrite in_map_iff. split.
  - intros ([n s] & <- & Hin). apply filter_In in Hin.
    destruct Hin as [Hin Hb]. unfold fails_below in Hb.
    apply andb_true_iff in Hb. rewrite negb_true_iff in Hb. tauto.
  - intros (Hin & Ha & Hb). exists (fileName f, fileSize f). split.
    + now destruct f.
    + apply filter_In. split; auto. unfold fails_below. simpl.
      now rewrite Ha, Hb.
Qed.
End CheckFacts.

Lemma Array_includes_In l name : Array_includes l name = true <-> In name l.
Proof.
  unfold Array_includes. rewrite existsb_exists. split.
  - intros (x & Hin & E). apply String.eqb_eq in E. now subst.
  - intros H. exists name. split; auto. apply String.eqb_refl.
Qed.

Lemma Array_includes_not_In l name :
  Array_includes l name = false <-> ~ In name l.
Proof.
  rewrite <- Array_includes_In. destruct (Array_includes l name); split;
    congruence.
Qed.

Lemma extractFileSizes_NoDup diff : NoDup (obj_keys (extractFileSizes diff)).
Proof.
  unfold extractFileSizes. apply fold_obj_set_NoDup, fold_obj_set_NoDup.
  constructor.
Qed.

(** C8. A checked file is in [aboveAverageFiles] exactly when its size
    exceeds the upper limit and its name is not in the allowlist; it is
    in [belowAverageFiles] exactly when it is not in [aboveAverageFiles],
    its size is under the lower limit, its name is not in the other
    allowlist and does not contain ["resolver"].  Hence no entry, and no
    file name, is in both lists. *)
Theorem checkFileSize_membership (config : Config.t) (diff : Diff) :
  let failed := checkFileSize config diff in
  let files := extractFileSizes diff in
  (forall f,
     In f (FailedFiles.aboveAverageFiles failed)
     <-> In (fileName f, fileSize f) files
         /\ gt (fileSize f) (Config.splittingUpperLimit config) = true
         /\ ~ In (fileName f) (Config.aboveAverageFiles config))
  /\ (forall f,
        In f (FailedFiles.belowAverageFiles failed)
        <-> In (fileName f, fileSize f) files
            /\ ~ In f (FailedFiles.aboveAverageFiles failed)
            /\ lt (fileSize f) (Config.splittingLowerLimit config) = true
            /\ ~ In (fileName f) (Config.belowAverageFiles config)
            /\ Str.includes "resolver" (fileName f) = false)
  /\ (forall f g,
        In f (FailedFiles.aboveAverageFiles failed) ->
        In g (FailedFiles.belowAverageFiles failed) ->
        fileName f <> fileName g).
Proof.
  intros failed files.
  assert (Habove : forall f,
     In f (FailedFiles.aboveAverageFiles failed)
     <-> In (fileName f, fileSize f) files
         /\ gt (fileSize f) (Config.splittingUpperLimit config) = true
         /\ ~ In (fileName f) (Config.aboveAverageFiles config)).
  { intros f. unfold failed. rewrite checkFileSize_above.
    unfold isAboveAverageFile.
    rewrite andb_true_iff, negb_true_iff, Array_includes_not_In. tauto. }
  split; [exact Habove|]. split.
  - intros f. unfold failed at 1. rewrite checkFileSize_below.
    unfold isBelowAverageFile.
    rewrite !andb_true_iff, !negb_true_iff, Array_includes_not_In.
    split.
    + intros (Hin & Ha & (Hlt & Hallow) & Hres). repeat split; auto.
      unfold failed. rewrite checkFileSize_above. intros [_ Ha'].
      congruence.
    + intros (Hin & Ha & Hlt & Hallow & Hres). repeat split; auto.
      destruct (isAboveAverageFile config (fileName f) (fileSize f)) eqn:E;
        auto.
      exfalso. apply Ha. unfold failed. rewrite checkFileSize_above. auto.
  - intros f g Hf Hg Heq. unfold failed in Hf, Hg.
    apply checkFileSize_above in Hf. apply checkFileSize_below in Hg.
    destruct Hf as [Hf Ha]. destruct Hg as (Hg & Hna & _).
    pose proof (extractFileSizes_NoDup diff) as Hd.
    apply (obj_In_get _ _ _ Hd) in Hf. apply (obj_In_get _ _ _ Hd) in Hg.
    rewrite Heq in Hf. rewrite Hf in Hg. inversion Hg as [Hs].
    rewrite Heq, Hs in Ha. congruence.
Qed.

(** ** compareBundleSizes *)

(** Sorting [diff.changed] keeps what stands under each name. *)
Lemma sortChangedFiles_sorted (o : obj ChangedEntry) :
  NoDup (obj_keys o) -> sortChangedFiles o = Array_sort by_difference_desc o.
Proof.
  intros Hd. unfold sortChangedFiles. apply obj_of_entries_NoDup.
  unfold obj_keys. eapply Permutation_NoDup; [|exact Hd].
  apply Permutation_map, Array_sort_Permutation.
Qed.

Lemma sortChangedFiles_get (o : obj ChangedEntry) k :
  NoDup (obj_keys o) -> obj_get (sortChangedFiles o) k = obj_get o k.
Proof.
  intros Hd. rewrite sortChangedFiles_sorted by assumption.
  symmetry. apply obj_get_Permutation; auto using Array_sort_Permutation.
Qed.

Lemma sortChangedFiles_NoDup (o : obj ChangedEntry) :
  NoDup (obj_keys o) -> NoDup (obj_keys (sortChangedFiles o)).
Proof.
  intros Hd. rewrite sortChangedFiles_sorted by assumption.
  unfold obj_keys. eapply Permutation_NoDup; [|exact Hd].
  apply Permutation_map, Array_sort_Permutation.
Qed.

Section CompareFacts.
Variable config : Config.t.
Variable baseline : BundleMap.


Lemma classify_removed diff entry :
  removed (classify config baseline diff entry) = removed diff.
Proof.
  destruct entry as [file fileData]. unfold classify.
  destruct (obj_get baseline file); [unfold processChangedFile|reflexivity].
  now destruct (ge _ _).
Qed.

Lemma classify_NoDup diff entry :
  NoDup (obj_keys (added diff)) /\ NoDup (obj_keys (changed diff))
  /\ NoDup (obj_keys (same diff)) ->
  NoDup (obj_keys (added (classify config baseline diff entry)))
  /\ NoDup (obj_keys (changed (classify config baseline diff entry)))
  /\ NoDup (obj_keys (same (classify config baseline diff entry))).
Proof.
  destruct entry as [file fileData]. intros (Ha & Hc & Hs).
  unfold classify.
  destruct (obj_get baseline file); [unfold processChangedFile|].
  - destruct (ge _ _); simpl; auto using obj_set_NoDup.
  - simpl; auto using obj_set_NoDup.
Qed.

(** Where a name other than the one processed stands is not touched. *)
Lemma classify_other diff file fileData k :
  file <> k ->
  let diff' := classify config baseline diff (file, fileData) in
  obj_get (added diff') k = obj_get (added diff) k
  /\ obj_get (changed diff') k = obj_get (changed diff) k
  /\ obj_get (same diff') k = obj_get (same diff) k.
Proof.
  intros Hne. cbn zeta. unfold classify.
  destruct (obj_get baseline file); [unfold processChangedFile|].
  - destruct (ge _ _); simpl; rewrite ?obj_get_set_other; auto.
  - simpl. rewrite obj_get_set_other; auto.
Qed.

(** Every entry of [changed] carries a difference that is a number. *)
Lemma classify_difference diff entry :
  Forall (fun e => is_nan (difference (snd e)) = false) (changed diff) ->
  Forall (fun e => is_nan (difference (snd e)) = false)
    (changed (classify config baseline diff entry)).
Proof.
  destruct entry as [file fileData]. intros H. unfold classify.
  destruct (obj_get baseline file) as [m|]; [unfold processChangedFile|auto].
  destruct (ge _ _) eqn:E; auto. cbn [changed].
  apply obj_set_Forall; auto. cbn [snd difference].
  apply round2_not_nan. eapply percent_ge_not_nan. exact E.
Qed.

Lemma loop_difference l diff :
  Forall (fun e => is_nan (difference (snd e)) = false) (changed diff) ->
  Forall (fun e => is_nan (difference (snd e)) = false)
    (changed (fold_left (classify config baseline) l diff)).
Proof.
  revert diff. induction l as [|e l IH]; intros diff H; simpl; auto.
  apply IH, classify_difference, H.
Qed.

Lemma loop_removed l diff :
  removed (fold_left (classify config baseline) l diff) = removed diff.
Proof.
  revert diff. induction l as [|e l IH]; intros diff; simpl; auto.
  now rewrite IH, classify_removed.
Qed.

Lemma loop_NoDup l diff :
  NoDup (obj_keys (added diff)) /\ NoDup (obj_keys (changed diff))
  /\ NoDup (obj_keys (same diff)) ->
  NoDup (obj_keys (added (fold_left (classify config baseline) l diff)))
  /\ NoDup (obj_keys (changed (fold_left (classify config baseline) l diff)))
  /\ NoDup (obj_keys (same (fold_left (classify config baseline) l diff))).
Proof.
  revert diff. induction l as [|e l IH]; intros diff H; simpl; auto.
  apply IH, classify_NoDup, H.
Qed.

(** What the loop leaves under a name [k]: the classification of the
    entry of [k] in [current], or what was there before. *)
Lemma loop_get (l : BundleMap) diff k :
  NoDup (obj_keys l) ->
  let diff' := fold_left (classify config baseline) l diff in
  obj_get (added diff') k
  = match obj_get l k, obj_get baseline k with
    | Some c, None => Some c
    | _, _ => obj_get (added diff) k
    end
  /\ obj_get (changed diff') k
     = match obj_get l k, obj_get baseline k with
       | Some c, Some m =>
           if ge (sizeDiffPercent c m) (Config.changeThreshold config)
           then Some {| current := size c;
                        master := size m;
                        difference := round2 (sizeDiff c m) |}
           else obj_get (changed diff) k
       | _, _ => obj_get (changed diff) k
       end
  /\ obj_get (same diff') k
     = match obj_get l k, obj_get baseline k with
       | Some c, Some m =>
           if ge (sizeDiffPercent c m) (Config.changeThreshold config)
           then obj_get (same diff) k
           else Some (size c)
       | _, _ => obj_get (same diff) k
       end.
Proof.
  revert diff. induction l as [|[k0 c0] l IH]; intros diff Hd; cbn zeta.
  - simpl. destruct (obj_get baseline k); auto.
  - inversion Hd as [|? ? Hn Hd']; subst.
    specialize (IH (classify config baseline diff (k0, c0)) Hd'). cbn zeta in IH.
    cbn [fold_left]. destruct IH as (Ia & Ic & Is).
    rewrite Ia, Ic, Is. clear Ia Ic Is.
    cbn [obj_get]. destruct (String.eqb_spec k0 k) as [->|Hne].
    + assert (Hl : obj_get l k = None) by now apply obj_get_None.
      rewrite Hl. unfold classify.
      destruct (obj_get baseline k) as [m|]; [unfold processChangedFile|].
      * destruct (ge _ _); simpl; rewrite ?obj_get_set_same; auto.
      * simpl. rewrite obj_get_set_same. auto.
    + destruct (classify_other diff k0 c0 k Hne) as (Ea & Ec & Es).
      rewrite Ea, Ec, Es. auto.
Qed.

Lemma processAddedAndChangedFiles_buckets current diff :
  let loop := fold_left (classify config baseline) current diff in
  let diff' := processAddedAndChangedFiles config baseline current diff in
  added diff' = added loop /\ removed diff' = removed diff
  /\ same diff' = same loop
  /\ ((changed loop = [] /\ changed diff' = changed loop)
      \/ changed diff' = sortChangedFiles (changed loop)).
Proof.
  cbn zeta. unfold processAddedAndChangedFiles.
  rewrite <- (loop_removed current diff).
  destruct (changed (fold_left (classify config baseline) current diff)) eqn:E;
    simpl; auto.
Qed.

End CompareFacts.

(** The loop over [Object.entries(master)] ([baseline] here). *)
Lemma processRemovedFiles_buckets (baseline current : BundleMap) diff :
  let diff' := processRemovedFiles baseline current diff in
  added diff' = added diff /\ changed diff' = changed diff
  /\ same diff' = same diff
  /\ (NoDup (obj_keys (removed diff)) -> NoDup (obj_keys (removed diff')))
  /\ forall k,
       In k (obj_keys (removed diff'))
       <-> In k (obj_keys (removed diff))
           \/ (In k (obj_keys baseline) /\ obj_get current k = None).
Proof.
  cbn zeta. unfold processRemovedFiles.
  generalize baseline as l. intros l. revert diff.
  induction l as [|[k0 m0] l IH]; intros diff; cbn [fold_left].
  - simpl. intuition.
  - match goal with |- context [fold_left ?f l ?d] =>
      specialize (IH d); set (d1 := d) in * end.
    destruct IH as (Ia & Ic & Is & Id & Ik).
    rewrite Ia, Ic, Is.
    assert (E : added d1 = added diff /\ changed d1 = changed diff
                /\ same d1 = same diff
                /\ (NoDup (obj_keys (removed diff)) ->
                    NoDup (obj_keys (removed d1)))
                /\ forall k, In k (obj_keys (removed d1))
                     <-> In k (obj_keys (removed diff))
                         \/ (k = k0 /\ obj_get current k0 = None)).
    { subst d1. destruct (obj_get current k0) eqn:E; simpl.
      - repeat split; auto. intros [?|[_ ?]]; [auto|discriminate].
      - repeat split; auto using obj_set_NoDup.
        + rewrite obj_keys_set. tauto.
        + rewrite obj_keys_set. tauto. }
    destruct E as (Ea & Ec & Es & Ed & Ek).
    repeat split; auto.
    + intros Hk. apply Ik in Hk. rewrite Ek in Hk. simpl.
      destruct Hk as [[?|[-> ?]]|[? ?]]; auto.
    + intros Hk. apply Ik. rewrite Ek. simpl in Hk.
      destruct Hk as [?|[[<-|?] ?]]; auto.
Qed.


(** The four buckets of the result, name by name. *)
Lemma compareBundleSizes_buckets
    (config : Config.t) (masterStats currentStats : BundleMap) (k : string) :
  NoDup (obj_keys currentStats) ->
  let diff := compareBundleSizes config masterStats currentStats in
  obj_get (added diff) k
  = match obj_get currentStats k, obj_get masterStats k with
    | Some c, None => Some c
    | _, _ => None
    end
  /\ obj_get (changed diff) k
     = match obj_get currentStats k, obj_get masterStats k with
       | Some c, Some m =>
           if ge (sizeDiffPercent c m) (Config.changeThreshold config)
           then Some {| current := size c;
                        master := size m;
                        difference := round2 (sizeDiff c m) |}
           else None
       | _, _ => None
       end
  /\ obj_get (same diff) k
     = match obj_get currentStats k, obj_get masterStats k with
       | Some c, Some m =>
           if ge (sizeDiffPercent c m) (Config.changeThreshold config)
           then None
           else Some (size c)
       | _, _ => None
       end
  /\ (In k (obj_keys (removed diff))
      <-> In k (obj_keys masterStats) /\ obj_get currentStats k = None).
Proof.
  intros Hd. cbn zeta. unfold compareBundleSizes, finalizeDiff. cbn [added removed changed same].
  set (d1 := processAddedAndChangedFiles config masterStats currentStats initializeDiff).
  destruct (processRemovedFiles_buckets masterStats currentStats d1)
    as (Ea & Ec & Es & _ & Ek).
  rewrite Ea, Ec, Es, Ek. clear Ea Ec Es Ek.
  destruct (processAddedAndChangedFiles_buckets config masterStats
              currentStats initializeDiff) as (Ea & Er & Es & Ec).
  fold d1 in Ea, Er, Es, Ec. rewrite Ea, Er, Es.
  destruct (loop_get config masterStats currentStats initializeDiff k Hd)
    as (La & Lc & Ls).
  rewrite La, Ls.
  assert (Hc : obj_get (changed d1) k
               = obj_get (changed (fold_left (classify config masterStats)
                                     currentStats initializeDiff)) k).
  { destruct Ec as [[_ ->] | ->]; auto. apply sortChangedFiles_get.
    apply (loop_NoDup config masterStats currentStats initializeDiff).
    simpl. repeat split; constructor. }
  rewrite Hc, Lc. simpl.
  repeat split; try tauto;
    destruct (obj_get currentStats k), (obj_get masterStats k); auto;
    destruct (ge _ _); auto.
Qed.

Lemma compareBundleSizes_NoDup
    (config : Config.t) (masterStats currentStats : BundleMap) :
  let diff := compareBundleSizes config masterStats currentStats in
  NoDup (obj_keys (added diff)) /\ NoDup (obj_keys (removed diff))
  /\ NoDup (obj_keys (changed diff)) /\ NoDup (obj_keys (same diff)).
Proof.
  cbn zeta. unfold compareBundleSizes, finalizeDiff. cbn [added removed changed same].
  set (d1 := processAddedAndChangedFiles config masterStats currentStats initializeDiff).
  destruct (processRemovedFiles_buckets masterStats currentStats d1)
    as (Ea & Ec & Es & Ed & _).
  rewrite Ea, Ec, Es.
  destruct (processAddedAndChangedFiles_buckets config masterStats
              currentStats initializeDiff) as (Fa & Fr & Fs & Fc).
  fold d1 in Fa, Fr, Fs, Fc.
  destruct (loop_NoDup config masterStats currentStats initializeDiff)
    as (Na & Nc & Ns); [simpl; repeat split; constructor|].
  rewrite Fa, Fs. repeat split; auto.
  - apply Ed. rewrite Fr. constructor.
  - destruct Fc as [[_ ->] | ->]; auto using sortChangedFiles_NoDup.
Qed.

Lemma has_key_not_In {V : Type} (o : obj V) k :
  has_key o k = false <-> ~ In k (obj_keys o).
Proof.
  rewrite <- has_key_In. destruct (has_key o k); split; congruence.
Qed.

Lemma obj_keys_In_get {V : Type} (o : obj V) k :
  In k (obj_keys o) <-> obj_get o k <> None.
Proof.
  split.
  - intros H E. apply obj_get_None in E. tauto.
  - intros H. destruct (obj_get o k) eqn:E; [|congruence].
    eapply obj_get_In_keys; eauto.
Qed.

(** The keys of the four buckets. *)
Lemma compareBundleSizes_keys
    (config : Config.t) (masterStats currentStats : BundleMap) (file : string) :
  NoDup (obj_keys currentStats) ->
  let diff := compareBundleSizes config masterStats currentStats in
  (In file (obj_keys (added diff))
   <-> In file (obj_keys currentStats) /\ ~ In file (obj_keys masterStats))
  /\ (In file (obj_keys (removed diff))
      <-> In file (obj_keys masterStats) /\ ~ In file (obj_keys currentStats))
  /\ (In file (obj_keys (changed diff)) \/ In file (obj_keys (same diff))
      <-> In file (obj_keys currentStats) /\ In file (obj_keys masterStats))
  /\ ~ (In file (obj_keys (changed diff)) /\ In file (obj_keys (same diff))).
Proof.
  intros Hd diff.
  destruct (compareBundleSizes_buckets config masterStats currentStats file Hd)
    as (Ha & Hc & Hs & Hr).
  fold diff in Ha, Hc, Hs, Hr.
  rewrite Hr, !obj_keys_In_get, Ha, Hc, Hs.
  destruct (obj_get currentStats file) as [c|],
           (obj_get masterStats file) as [m|];
    try destruct (ge (sizeDiffPercent c m) (Config.changeThreshold config));
    simpl; intuition congruence.
Qed.

(** C1. Every name of the two maps is a key of exactly one bucket:
    [added] holds the names that are only in [current], [removed] those
    that are only in the baseline, and a name of both is in exactly one
    of [changed] and [same].  (The keys of the two maps are file names,
    and those of [current] are distinct, as the keys of an object
    are.) *)
Theorem compareBundleSizes_partition
    (config : Config.t) (masterStats currentStats : BundleMap) (file : string) :
  file_names masterStats = true -> file_names currentStats = true ->
  NoDup (obj_keys currentStats) ->
  let diff := compareBundleSizes config masterStats currentStats in
  (In file (obj_keys (added diff))
   <-> In file (obj_keys currentStats) /\ ~ In file (obj_keys masterStats))
  /\ (In file (obj_keys (removed diff))
      <-> In file (obj_keys masterStats) /\ ~ In file (obj_keys currentStats))
  /\ (In file (obj_keys (changed diff)) \/ In file (obj_keys (same diff))
      <-> In file (obj_keys currentStats) /\ In file (obj_keys masterStats))
  /\ ~ (In file (obj_keys (changed diff)) /\ In file (obj_keys (same diff)))
  /\ (In file (obj_keys masterStats) \/ In file (obj_keys currentStats) ->
      buckets_holding diff file = 1)
  /\ (buckets_holding diff file <> 0 ->
      In file (obj_keys masterStats) \/ In file (obj_keys currentStats)).
Proof.
  intros _ _ Hd diff.
  destruct (compareBundleSizes_keys config masterStats currentStats file Hd)
    as (Ka & Kr & Kcs & Kx).
  fold diff in Ka, Kr, Kcs, Kx.
  repeat (split; [assumption|]).
  unfold buckets_holding.
  destruct (has_key (added diff) file) eqn:Ea,
           (has_key (removed diff) file) eqn:Er,
           (has_key (changed diff) file) eqn:Ec,
           (has_key (same diff) file) eqn:Es;
    repeat match goal with
           | H : has_key _ _ = true |- _ => apply has_key_In in H
           | H : has_key _ _ = false |- _ => apply has_key_not_In in H
           end;
    simpl; split; intros H; try lia; try tauto.
Qed.

(** C3. A file of both maps is [changed] exactly when
    [abs((current.size - master.size) / master.size * 100)] is at least
    the threshold, the value on the threshold included; otherwise it is
    [same] with its current size.  When changed, [difference] is the size
    difference rounded to two decimals; and when the loop over the
    entries of [current] comes to the file, [countChanged] goes up by
    one and the size difference is added to [sizeIncrease] when
    positive, its absolute value to [sizeDecrease] when not, while for
    a file that is [same] the summary stays as it is.  (The keys of the
    two maps are file names.  The statement does not need the baseline
    size to be non-zero.) *)
Theorem changed_iff_percent_reaches_threshold
    (config : Config.t) (masterStats currentStats : BundleMap)
    (file : string) (c m : BundleEntry) :
  file_names masterStats = true -> file_names currentStats = true ->
  NoDup (obj_keys currentStats) ->
  obj_get currentStats file = Some c ->
  obj_get masterStats file = Some m ->
  let diff := compareBundleSizes config masterStats currentStats in
  let percent := abs ((size c - size m) / size m * 100)%float in
  let threshold := Config.changeThreshold config in
  (ge percent threshold = true ->
   obj_get (changed diff) file
   = Some {| current := size c;
             master := size m;
             difference := round2 (size c - size m)%float |}
   /\ obj_get (same diff) file = None)
  /\ (ge percent threshold = false ->
      obj_get (same diff) file = Some (size c)
      /\ obj_get (changed diff) file = None)
  /\ ((percent =? threshold)%float = true ->
      ge percent threshold = true
      /\ obj_get (changed diff) file
         = Some {| current := size c;
                   master := size m;
                   difference := round2 (size c - size m)%float |})
  /\ (forall pre post : BundleMap,
        currentStats = pre ++ (file, c) :: post ->
        let loop l := fold_left (classify config masterStats) l initializeDiff in
        let before := summary (loop pre) in
        let after := summary (loop (pre ++ [(file, c)])) in
        (ge percent threshold = true ->
         countChanged after = (countChanged before + 1)%float
         /\ (gt (size c - size m)%float 0%float = true ->
             sizeIncrease after
             = (sizeIncrease before + (size c - size m))%float
             /\ sizeDecrease after = sizeDecrease before)
         /\ (gt (size c - size m)%float 0%float = false ->
             sizeDecrease after
             = (sizeDecrease before + abs (size c - size m))%float
             /\ sizeIncrease after = sizeIncrease before)
         /\ totalAdded after = totalAdded before
         /\ totalRemoved after = totalRemoved before)
        /\ (ge percent threshold = false -> after = before)).
Proof.
  intros _ _ Hd Hc Hm diff percent threshold.
  destruct (compareBundleSizes_buckets config masterStats currentStats file Hd)
    as (_ & Ec & Es & _).
  fold diff in Ec, Es. rewrite Hc, Hm in Ec, Es.
  change (sizeDiffPercent c m) with percent in Ec, Es.
  fold threshold in Ec, Es. unfold sizeDiff in Ec.
  split; [|split; [|split]].
  - intros H. rewrite H in Ec, Es. auto.
  - intros H. rewrite H in Ec, Es. auto.
  - intros H. apply eqb_ge in H. rewrite H in Ec. auto.
  - intros pre post _. cbv beta zeta. rewrite fold_left_app.
    set (d := fold_left (classify config masterStats) pre initializeDiff).
    cbn [fold_left]. unfold classify. rewrite Hm. unfold processChangedFile.
    change (sizeDiffPercent c m) with percent. fold threshold.
    unfold sizeDiff, Math_abs. split; intros H; rewrite H.
    + cbn [summary countChanged sizeIncrease sizeDecrease totalAdded
             totalRemoved].
      split; [reflexivity|].
      split; [intros E; rewrite E; auto|].
      split; [intros E; rewrite E; auto|]. auto.
    + reflexivity.
Qed.

(** C5 (as the code has it). Nothing guards the division by a baseline
    size of zero.  For a file of both maps whose baseline size is [0]
    (or [-0]): when the current size is a number other than zero, the
    percentage is [Infinity] and, the threshold being a number, the file
    is [changed]; when the current size is zero too (or [NaN]), the
    percentage is [NaN] and the file is [same].  Either way the file is
    classified, by the same comparison as every other file.  (The keys
    of the two maps are file names.) *)
Theorem zero_baseline_division_is_unguarded
    (config : Config.t) (masterStats currentStats : BundleMap)
    (file : string) (c m : BundleEntry) :
  file_names masterStats = true -> file_names currentStats = true ->
  NoDup (obj_keys currentStats) ->
  obj_get currentStats file = Some c ->
  obj_get masterStats file = Some m ->
  is_zero (size m) = true ->
  let diff := compareBundleSizes config masterStats currentStats in
  (truthy (size c) = true ->
   sizeDiffPercent c m = infinity
   /\ (is_nan (Config.changeThreshold config) = false ->
       obj_get (changed diff) file
       = Some {| current := size c;
                 master := size m;
                 difference := round2 (size c - size m)%float |}
       /\ obj_get (same diff) file = None))
  /\ (truthy (size c) = false ->
      is_nan (sizeDiffPercent c m) = true
      /\ obj_get (same diff) file = Some (size c)
      /\ obj_get (changed diff) file = None).
Proof.
  intros _ _ Hd Hc Hm Hz diff.
  destruct (compareBundleSizes_buckets config masterStats currentStats file Hd)
    as (_ & Ec & Es & _).
  fold diff in Ec, Es. rewrite Hc, Hm in Ec, Es.
  split; intros Ht.
  - assert (Hp : sizeDiffPercent c m = infinity)
      by (now apply percent_of_zero_baseline).
    split; auto. intros Hn.
    rewrite Hp, (infinity_ge _ Hn) in Ec, Es. auto.
  - assert (Hp : is_nan (sizeDiffPercent c m) = true)
      by (now apply percent_of_zero_by_zero).
    split; auto.
    rewrite (nan_ge _ (Config.changeThreshold config) Hp) in Ec, Es. auto.
Qed.

(** The entries of [changed] are in the order of the comparator
    [b.difference - a.difference]: no entry is followed by one that the
    comparator puts before it. *)
Lemma changed_in_comparator_order
    (config : Config.t) (masterStats currentStats : BundleMap) :
  ordered_by (in_order by_difference_desc)
    (changed (compareBundleSizes config masterStats currentStats)) = true.
Proof.
  unfold compareBundleSizes, finalizeDiff. cbn [changed].
  set (d1 := processAddedAndChangedFiles config masterStats currentStats initializeDiff).
  destruct (processRemovedFiles_buckets masterStats currentStats d1)
    as (_ & -> & _).
  destruct (processAddedAndChangedFiles_buckets config masterStats
              currentStats initializeDiff) as (_ & _ & _ & Fc).
  fold d1 in Fc. destruct Fc as [[E ->] | ->].
  - now rewrite E.
  - rewrite sortChangedFiles_sorted.
    + apply Array_sort_ordered. intros a b. apply sub_positive_antisym.
    + apply (loop_NoDup config masterStats currentStats initializeDiff).
      simpl. repeat split; constructor.
Qed.

Lemma ordered_by_weaken {A : Type} (P : A -> Prop) (r1 r2 : A -> A -> bool) l :
  (forall a b, P a -> P b -> r1 a b = true -> r2 a b = true) ->
  Forall P l -> ordered_by r1 l = true -> ordered_by r2 l = true.
Proof.
  intros Hr. induction l as [|a [|b l] IH]; intros HP H; auto.
  cbn [ordered_by] in *. apply andb_true_iff in H. destruct H as [H1 H2].
  inversion HP as [|? ? Pa HP']; subst. inversion HP'; subst.
  rewrite (Hr a b), IH; auto.
Qed.

Lemma compareBundleSizes_differences
    (config : Config.t) (masterStats currentStats : BundleMap) :
  Forall (fun e => is_nan (difference (snd e)) = false)
    (changed (compareBundleSizes config masterStats currentStats)).
Proof.
  unfold compareBundleSizes, finalizeDiff. cbn [changed].
  set (d1 := processAddedAndChangedFiles config masterStats currentStats initializeDiff).
  destruct (processRemovedFiles_buckets masterStats currentStats d1)
    as (_ & -> & _).
  destruct (processAddedAndChangedFiles_buckets config masterStats
              currentStats initializeDiff) as (_ & _ & _ & Fc).
  fold d1 in Fc.
  pose proof (loop_difference config masterStats currentStats initializeDiff
                (Forall_nil _)) as Hl.
  destruct Fc as [[_ ->] | ->]; auto.
  rewrite sortChangedFiles_sorted.
  - rewrite Forall_forall in *. intros e He. apply Hl.
    eapply Permutation_in; [|exact He].
    apply Permutation_sym, Array_sort_Permutation.
  - apply (loop_NoDup config masterStats currentStats initializeDiff).
    simpl. repeat split; constructor.
Qed.

(** C4 (as the code has it). The entries of [changed] are in descending
    order of the signed difference: each entry has a difference greater
    than or equal to that of the next one.  ([sortChangedFiles] compares
    with [b.difference - a.difference]; every difference in [changed] is
    a number, and on numbers that comparator is the descending order.
    The keys of the two maps are file names, so that the object rebuilt
    from the sorted entries lists them in that order.) *)
Theorem changed_sorted_by_descending_difference
    (config : Config.t) (masterStats currentStats : BundleMap) :
  file_names masterStats = true -> file_names currentStats = true ->
  ordered_by difference_ge
    (changed (compareBundleSizes config masterStats currentStats)) = true.
Proof.
  intros _ _.
  apply (ordered_by_weaken
           (fun e => is_nan (difference (snd e)) = false)
           (in_order by_difference_desc)).
  - intros a b Ha Hb H. unfold in_order, by_difference_desc in H.
    apply negb_true_iff in H. unfold difference_ge.
    now apply sub_not_positive_ge.
  - apply compareBundleSizes_differences.
  - apply changed_in_comparator_order.
Qed.

(** ** checkFileSize on the result of compareBundleSizes *)

Lemma obj_set_In {V : Type} (o : obj V) k v x :
  In x (obj_set o k v) -> x = (k, v) \/ In x o.
Proof.
  induction o as [|[k' v'] o IH]; simpl.
  - intuition.
  - destruct (String.eqb_spec k' k) as [->|]; simpl; intuition.
Qed.

Lemma fold_obj_set_In {V : Type} (l acc : list (string * V)) x :
  In x (fold_left (fun o kv => obj_set o (fst kv) (snd kv)) l acc) ->
  In x acc \/ In x l.
Proof.
  revert acc. induction l as [|[k v] l IH]; intros acc H; simpl in *; auto.
  apply IH in H. destruct H as [H|H]; auto.
  apply obj_set_In in H. intuition.
Qed.

Lemma extractFileSizes_In diff x :
  In x (extractFileSizes diff) -> In x (checked_sizes diff).
Proof.
  unfold extractFileSizes, checked_sizes, obj_of_entries. intros H.
  apply in_app_iff.
  apply fold_obj_set_In in H. destruct H as [H|H].
  - apply fold_obj_set_In in H. destruct H as [H|H]; [destruct H|].
    apply fold_obj_set_In in H. destruct H as [H|H]; [destruct H|]. auto.
  - apply fold_obj_set_In in H. destruct H as [H|H]; [destruct H|]. auto.
Qed.

Lemma checked_sizes_keys diff name s :
  In (name, s) (checked_sizes diff) ->
  In name (obj_keys (added diff)) \/ In name (obj_keys (changed diff)).
Proof.
  unfold checked_sizes. rewrite in_app_iff. intros [H|H]; [left|right];
    apply in_map_iff in H; destruct H as ([n e] & E & H);
    inversion E; subst; unfold obj_keys; apply in_map_iff;
    exists (name, e); auto.
Qed.

(** C7. Whatever the diff, an entry of either failed list carries the
    name and size of an added entry, or the name and current size of a
    changed entry.  On a diff computed by [compareBundleSizes], no name
    of [removed] or [same] is in either list. *)
Theorem checkFileSize_reads_added_and_changed_only (config : Config.t) :
  (forall (diff : Diff) (f : FailedFile),
     let failed := checkFileSize config diff in
     In f (FailedFiles.aboveAverageFiles failed
           ++ FailedFiles.belowAverageFiles failed) ->
     In (fileName f, fileSize f) (checked_sizes diff)
     /\ (In (fileName f) (obj_keys (added diff))
         \/ In (fileName f) (obj_keys (changed diff))))
  /\ (forall (masterStats currentStats : BundleMap) (f : FailedFile),
        NoDup (obj_keys currentStats) ->
        let diff := compareBundleSizes config masterStats currentStats in
        let failed := checkFileSize config diff in
        In f (FailedFiles.aboveAverageFiles failed
              ++ FailedFiles.belowAverageFiles failed) ->
        ~ In (fileName f) (obj_keys (removed diff))
        /\ ~ In (fileName f) (obj_keys (same diff))).
Proof.
  assert (H1 : forall (diff : Diff) (f : FailedFile),
     let failed := checkFileSize config diff in
     In f (FailedFiles.aboveAverageFiles failed
           ++ FailedFiles.belowAverageFiles failed) ->
     In (fileName f, fileSize f) (checked_sizes diff)
     /\ (In (fileName f) (obj_keys (added diff))
         \/ In (fileName f) (obj_keys (changed diff)))).
  { intros diff f failed Hin.
    assert (Hx : In (fileName f, fileSize f) (checked_sizes diff)).
    { apply extractFileSizes_In. apply in_app_iff in Hin.
      destruct Hin as [Hin|Hin].
      - now apply checkFileSize_above in Hin.
      - now apply checkFileSize_below in Hin. }
    split; auto. eapply checked_sizes_keys; eauto. }
  split; [exact H1|].
  intros masterStats currentStats f Hd diff failed Hin.
  destruct (H1 diff f Hin) as [_ Hk].
  destruct (compareBundleSizes_keys config masterStats currentStats
              (fileName f) Hd) as (Ha & Hr & Hcs & Hx).
  fold diff in Ha, Hr, Hcs, Hx.
  rewrite Hr. destruct Hk as [Hk|Hk].
  - apply Ha in Hk. split; [tauto|]. intros Hs.
    assert (In (fileName f) (obj_keys currentStats)
            /\ In (fileName f) (obj_keys masterStats)) by (apply Hcs; auto).
    tauto.
  - assert (In (fileName f) (obj_keys currentStats)
            /\ In (fileName f) (obj_keys masterStats)) by (apply Hcs; auto).
    split; [tauto|]. intros Hs. apply Hx. auto.
Qed.

(** ** Name normalisation *)

Section ReplaceFacts.
Variable m : string -> bool.
Variable repl : string.

Lemma replace_to_end_no_match s :
  matches_somewhere m s = false -> Str.replace_to_end m repl s = s.
Proof.
  induction s as [|c s IH]; simpl; intros H;
    apply orb_false_iff in H; destruct H as [H1 H2]; rewrite H1; auto.
  now rewrite IH.
Qed.

(** Every match is longer than the replacement. *)
Hypothesis match_longer :
  forall t, m t = true -> String.length repl < String.length t.

Lemma replace_to_end_shorter s :
  matches_somewhere m s = true ->
  String.length (Str.replace_to_end m repl s) < String.length s.
Proof.
  induction s as [|c s IH]; cbn [matches_somewhere Str.replace_to_end];
    intros H.
  - rewrite orb_false_r in H. rewrite H. now apply match_longer.
  - destruct (m (String c s)) eqn:E.
    + now apply match_longer.
    + simpl in H. apply IH in H. simpl. lia.
Qed.

Lemma replace_to_end_not_longer s :
  String.length (Str.replace_to_end m repl s) <= String.length s.
Proof.
  destruct (matches_somewhere m s) eqn:E.
  - apply replace_to_end_shorter in E. lia.
  - rewrite replace_to_end_no_match; auto.
Qed.
End ReplaceFacts.

Lemma eqb_ci_length lit s :
  Str.eqb_ci lit s = true -> String.length s = String.length lit.
Proof.
  revert s. induction lit as [|a lit IH]; intros [|b s]; simpl;
    try discriminate; auto.
  intros H. apply andb_true_iff in H. destruct H as [_ H]. f_equal. auto.
Qed.

Lemma span_length p s :
  String.length s
  = String.length (fst (Str.span p s)) + String.length (snd (Str.span p s)).
Proof.
  induction s as [|c s IH]; simpl; auto.
  destruct (p c); simpl; auto.
  destruct (Str.span p s) as [h r]. simpl in *. lia.
Qed.

Lemma matches_hash_longer sep min t :
  matches_hash sep min t = true -> String.length ".js" < String.length t.
Proof.
  destruct t as [|c t]; [discriminate|]. unfold matches_hash. intros H.
  apply andb_true_iff in H. destruct H as [_ H].
  pose proof (span_length Str.is_hex t) as Hl.
  destruct (Str.span Str.is_hex t) as [digits rest]. cbn [fst snd] in Hl.
  apply andb_true_iff in H. destruct H as [_ H].
  apply eqb_ci_length in H.
  change (String.length ".js") with 3 in *. cbn [String.length]. lia.
Qed.

Lemma matches_chunk_longer t :
  matches_chunk t = true -> String.length ".js" < String.length t.
Proof.
  unfold matches_chunk. intros H. apply eqb_ci_length in H. rewrite H.
  cbn. lia.
Qed.

Lemma span_append p s :
  s = (fst (Str.span p s) ++ snd (Str.span p s))%string
  /\ Str.all_chars p (fst (Str.span p s)) = true.
Proof.
  induction s as [|c s [IH1 IH2]]; simpl; auto.
  destruct (p c) eqn:E; simpl; auto.
  destruct (Str.span p s) as [h r]. simpl in *. rewrite E, IH2. split; auto.
  congruence.
Qed.

Lemma span_stop p h r :
  Str.all_chars p h = true ->
  match r with EmptyString => True | String c _ => p c = false end ->
  Str.span p (h ++ r) = (h, r).
Proof.
  intros Hh Hr. induction h as [|c h IH]; simpl in *.
  - destruct r as [|c r]; simpl; auto. now rewrite Hr.
  - apply andb_true_iff in Hh. destruct Hh as [Hc Hh]. rewrite Hc, IH; auto.
Qed.

Lemma eqb_ci_js_starts_with_dot ext :
  Str.eqb_ci ".js" ext = true ->
  match ext with EmptyString => True | String c _ => Str.is_hex c = false end.
Proof.
  destruct ext as [|c ext]; auto. cbn [Str.eqb_ci]. intros H.
  apply andb_true_iff in H. destruct H as [H _].
  destruct c as [[] [] [] [] [] [] [] []]; try discriminate H; reflexivity.
Qed.

(** The hash patterns, read as a regular expression reads them: the
    separator, at least [min] hexadecimal digits, [.js], the end. *)
Lemma matches_hash_iff sep min s :
  matches_hash sep min s = true
  <-> exists digits ext,
        s = String sep (digits ++ ext)
        /\ Str.all_chars Str.is_hex digits = true
        /\ min <= String.length digits
        /\ Str.eqb_ci ".js" ext = true.
Proof.
  split.
  - destruct s as [|c s]; [discriminate|]. unfold matches_hash. intros H.
    apply andb_true_iff in H. destruct H as [Hc H].
    apply Ascii.eqb_eq in Hc. subst c.
    destruct (span_append Str.is_hex s) as [Hs Hh].
    destruct (Str.span Str.is_hex s) as [digits rest]. cbn [fst snd] in *.
    apply andb_true_iff in H. destruct H as [Hmin Hext].
    apply Nat.leb_le in Hmin. exists digits, rest. subst s. auto.
  - intros (digits & ext & -> & Hh & Hmin & Hext). unfold matches_hash.
    rewrite Ascii.eqb_refl, span_stop, Hext; auto.
    + apply Nat.leb_le in Hmin. now rewrite Hmin.
    + now apply eqb_ci_js_starts_with_dot.
Qed.

(** A name is left as it is exactly when no pattern matches it. *)
Lemma cleanName_fixed_iff name : cleanName name = name <-> canonical name = true.
Proof.
  unfold canonical, cleanName, strip_chunk_id, strip_chunk_hash,
    strip_content_hash.
  rewrite !andb_true_iff, !negb_true_iff. split.
  - intros H.
    pose proof (replace_to_end_not_longer (matches_hash "." 8) ".js"
                  (matches_hash_longer "." 8) name) as L1.
    pose proof (replace_to_end_not_longer (matches_hash "-" 10) ".js"
                  (matches_hash_longer "-" 10)
                  (Str.replace_to_end (matches_hash "." 8) ".js" name)) as L2.
    pose proof (replace_to_end_not_longer matches_chunk ".js"
                  matches_chunk_longer
                  (Str.replace_to_end (matches_hash "-" 10) ".js"
                     (Str.replace_to_end (matches_hash "." 8) ".js" name)))
      as L3.
    rewrite H in L3.
    destruct (matches_somewhere (matches_hash "." 8) name) eqn:E1.
    { apply (replace_to_end_shorter _ ".js" (matches_hash_longer "." 8)) in E1.
      lia. }
    rewrite (replace_to_end_no_match _ _ _ E1) in *.
    destruct (matches_somewhere (matches_hash "-" 10) name) eqn:E2.
    { apply (replace_to_end_shorter _ ".js" (matches_hash_longer "-" 10)) in E2.
      lia. }
    rewrite (replace_to_end_no_match _ _ _ E2) in *.
    destruct (matches_somewhere matches_chunk name) eqn:E3; auto.
    apply (replace_to_end_shorter _ ".js" matches_chunk_longer) in E3.
    rewrite H in E3. lia.
  - intros [[E1 E2] E3].
    now rewrite (replace_to_end_no_match _ _ _ E1),
      (replace_to_end_no_match _ _ _ E2), (replace_to_end_no_match _ _ _ E3).
Qed.

(** C6 (as the code has it). Each of the three patterns is applied
    once, in the order content hash, chunk hash, [.chunk.js].  A second
    pass leaves a normalised name as it is exactly when no pattern
    matches that name any more. *)
Theorem cleanName_idempotent_iff_canonical (file : string) :
  cleanName (cleanName file) = cleanName file
  <-> canonical (cleanName file) = true.
Proof. apply cleanName_fixed_iff. Qed.

(** ** generateBundleStats *)

(** The entry that the loop writes for a file. *)
Lemma collect_stats_entries files :
  collect_stats files
  = obj_of_entries
      (map (fun e => (cleanName (entry_name e),
                      {| size := sizeKB (entry_bytes e) |})) files).
Proof.
  unfold collect_stats, obj_of_entries. generalize (@nil (string * BundleEntry)).
  induction files as [|e files IH]; intros acc; simpl; auto.
Qed.

Lemma collect_stats_NoDup files : NoDup (obj_keys (collect_stats files)).
Proof.
  rewrite collect_stats_entries. apply fold_obj_set_NoDup. constructor.
Qed.

(** Sorting by size and rebuilding the object keeps what stands under
    each name. *)
Lemma generateBundleStats_get dir name :
  obj_get (generateBundleStats dir) name
  = obj_get (collect_stats (filter is_js_file dir)) name.
Proof.
  unfold generateBundleStats.
  pose proof (collect_stats_NoDup (filter is_js_file dir)) as Hd.
  pose proof (Array_sort_Permutation by_size_desc
                (collect_stats (filter is_js_file dir))) as Hp.
  rewrite obj_of_entries_NoDup.
  - symmetry. now apply obj_get_Permutation.
  - unfold obj_keys. eapply Permutation_NoDup; [|exact Hd].
    now apply Permutation_map.
Qed.

(** C9. When several files of the build folder get the same clean name,
    the entry of that name in the output holds the size of the one that
    is processed last: with [e] a file of the listing and no later file
    of the same clean name, the entry is [{ size: sizeKB(e) }], whatever
    files of that name came before. *)
Theorem generateBundleStats_last_write_wins
    (dir pre post : list DirEntry) (e : DirEntry) :
  filter is_js_file dir = pre ++ e :: post ->
  (forall e', In e' post ->
     cleanName (entry_name e') <> cleanName (entry_name e)) ->
  obj_get (generateBundleStats dir) (cleanName (entry_name e))
  = Some {| size := sizeKB (entry_bytes e) |}.
Proof.
  intros Hfiles Hpost. rewrite generateBundleStats_get, Hfiles.
  rewrite collect_stats_entries. unfold obj_of_entries.
  rewrite map_app. cbn [map]. apply fold_obj_set_get_last.
  unfold obj_keys. rewrite map_map. cbn [fst]. intros Hin.
  apply in_map_iff in Hin. destruct Hin as (e' & Heq & Hin).
  exact (Hpost e' Hin Heq).
Qed.

(** * The statements on sample data *)

Lemma distinct_NoDup l : distinct l = true -> NoDup l.
Proof.
  induction l as [|x l IH]; simpl; intros H; constructor;
    apply andb_true_iff in H; destruct H as [H1 H2]; auto.
  apply negb_true_iff in H1. now apply Array_includes_not_In.
Defined.

Lemma sample_currentStats_NoDup : NoDup (obj_keys Sample.currentStats).
Proof. apply distinct_NoDup. reflexivity. Defined.

(** C1 on the sample: [a.js] is in both maps, and in one bucket. *)
Lemma compareBundleSizes_partition_sample :
  let diff :=
    compareBundleSizes Sample.config Sample.masterStats Sample.currentStats in
  (In "a.js" (obj_keys (added diff))
   <-> In "a.js" (obj_keys Sample.currentStats)
       /\ ~ In "a.js" (obj_keys Sample.masterStats))
  /\ (In "a.js" (obj_keys (removed diff))
      <-> In "a.js" (obj_keys Sample.masterStats)
          /\ ~ In "a.js" (obj_keys Sample.currentStats))
  /\ (In "a.js" (obj_keys (changed diff)) \/ In "a.js" (obj_keys (same diff))
      <-> In "a.js" (obj_keys Sample.currentStats)
          /\ In "a.js" (obj_keys Sample.masterStats))
  /\ ~ (In "a.js" (obj_keys (changed diff)) /\ In "a.js" (obj_keys (same diff)))
  /\ (In "a.js" (obj_keys Sample.masterStats)
      \/ In "a.js" (obj_keys Sample.currentStats) ->
      buckets_holding diff "a.js" = 1)
  /\ (buckets_holding diff "a.js" <> 0 ->
      In "a.js" (obj_keys Sample.masterStats)
      \/ In "a.js" (obj_keys Sample.currentStats)).
Proof.
  exact (compareBundleSizes_partition Sample.config Sample.masterStats
           Sample.currentStats "a.js" eq_refl eq_refl
           sample_currentStats_NoDup).
Defined.

(** C2 on the sample: nothing is written on pass, the marker on fail. *)
Lemma verdict_and_failure_flag_sample :
  writeFailureFlag Sample.config Sample.passed Sample.world
  = Normal Sample.world
  /\ exists w',
       writeFailureFlag Sample.config Sample.failed Sample.world = Normal w'
       /\ obj_get (files w') (failure_path Sample.config Sample.world)
          = Some failure_text
       /\ (forall p, p <> failure_path Sample.config Sample.world ->
             obj_get (files w') p = obj_get (files Sample.world) p).
Proof.
  split.
  - exact (proj1 (proj2 (verdict_and_failure_flag Sample.config Sample.passed
                           Sample.world)) eq_refl).
  - exact (proj1 (proj2 (proj2 (verdict_and_failure_flag Sample.config
                                  Sample.failed Sample.world)))
             eq_refl eq_refl).
Defined.

(** C3 on the sample, at the threshold of 5.  [b.js] goes from 10 to
    11 KB, 10 percent: it is changed, and when the loop comes to it,
    after the decrease of [a.js], it adds 1 to [countChanged] and to
    [sizeIncrease].  [a.js] goes from 100 to 50 KB: it adds 50 to
    [sizeDecrease].  [s.js] goes from 100 to 101 KB, 1 percent: it is
    same, and leaves the summary as it is. *)
Lemma changed_iff_percent_reaches_threshold_sample :
  let diff :=
    compareBundleSizes Sample.config Sample.masterStats Sample.currentStats in
  let loop l :=
    summary (fold_left (classify Sample.config Sample.masterStats) l
               initializeDiff) in
  let a := ("a.js", Sample.entry 50%float) in
  let b := ("b.js", Sample.entry 11%float) in
  let n := ("n.js", Sample.entry 300%float) in
  let z := ("z.js", Sample.entry 5%float) in
  let s := ("s.js", Sample.entry 101%float) in
  ((obj_get (changed diff) "b.js"
    = Some {| current := 11; master := 10; difference := 1 |}
    /\ obj_get (same diff) "b.js" = None)
   /\ (obj_get (same diff) "s.js" = Some 101
       /\ obj_get (changed diff) "s.js" = None)
   /\ (countChanged (loop [a; b]) = 2
       /\ sizeIncrease (loop [a; b]) = 1
       /\ sizeDecrease (loop [a; b]) = sizeDecrease (loop [a]))
   /\ (countChanged (loop [a]) = 1
       /\ sizeDecrease (loop [a]) = 50
       /\ sizeIncrease (loop [a]) = 0)
   /\ loop [a; b; n; z; s] = loop [a; b; n; z])%float.
Proof.
  intros diff loop a b n z s.
  pose proof (changed_iff_percent_reaches_threshold Sample.config
                Sample.masterStats Sample.currentStats "b.js"
                (Sample.entry 11%float) (Sample.entry 10%float)
                eq_refl eq_refl sample_currentStats_NoDup eq_refl eq_refl)
    as (Hb & _ & _ & Lb).
  pose proof (changed_iff_percent_reaches_threshold Sample.config
                Sample.masterStats Sample.currentStats "a.js"
                (Sample.entry 50%float) (Sample.entry 100%float)
                eq_refl eq_refl sample_currentStats_NoDup eq_refl eq_refl)
    as (_ & _ & _ & La).
  pose proof (changed_iff_percent_reaches_threshold Sample.config
                Sample.masterStats Sample.currentStats "s.js"
                (Sample.entry 101%float) (Sample.entry 100%float)
                eq_refl eq_refl sample_currentStats_NoDup eq_refl eq_refl)
    as (_ & Hs & _ & Ls).
  destruct (Lb [a] [n; z; s] eq_refl) as [Lb' _].
  destruct (Lb' eq_refl) as (Cb & Ib & _ & _).
  destruct (La [] [b; n; z; s] eq_refl) as [La' _].
  destruct (La' eq_refl) as (Ca & _ & Da & _).
  destruct (Ls [a; b; n; z] [] eq_refl) as [_ Ls'].
  split; [exact (Hb eq_refl)|].
  split; [exact (Hs eq_refl)|].
  split; [split; [exact Cb|exact (Ib eq_refl)]|].
  split; [split; [exact Ca|exact (Da eq_refl)]|].
  exact (Ls' eq_refl).
Defined.

(** The scenarios of the specification: 100 to 106 KB at a threshold of
    5 is changed, with a difference of 6; so is 100 to 105 KB, on the
    threshold; a file of the baseline only is removed. *)
Example scenario_changed :
  compareBundleSizes Sample.config
    [("a.js", Sample.entry 100%float)] [("a.js", Sample.entry 106%float)]
  = {| added := []; removed := [];
       changed := [("a.js", {| current := 106; master := 100;
                               difference := 6 |})];
       same := [];
       summary := {| totalAdded := 0; totalRemoved := 0; sizeIncrease := 6;
                     sizeDecrease := 0; countChanged := 1 |} |}%float.
Proof. reflexivity. Qed.

Example scenario_on_threshold :
  changed (compareBundleSizes Sample.config
             [("a.js", Sample.entry 100%float)]
             [("a.js", Sample.entry 105%float)])
  = [("a.js", {| current := 105; master := 100; difference := 5 |})]%float.
Proof. reflexivity. Qed.

Example scenario_removed :
  let diff :=
    compareBundleSizes Sample.config [("b.js", Sample.entry 50%float)] [] in
  removed diff = [("b.js", Sample.entry 50%float)]
  /\ totalRemoved (summary diff) = 50%float.
Proof. split; reflexivity. Qed.

(** C4, the claim as stated, on the sample: [b.js] (+1 KB) comes before
    [a.js] (-50 KB), so the entries are not in descending order of the
    absolute difference. *)
Lemma changed_not_in_abs_difference_order :
  let diff :=
    compareBundleSizes Sample.config
      [("a.js", Sample.entry 100%float); ("b.js", Sample.entry 10%float)]
      [("a.js", Sample.entry 50%float); ("b.js", Sample.entry 11%float)] in
  changed diff
  = [("b.js", {| current := 11; master := 10; difference := 1 |});
     ("a.js", {| current := 50; master := 100; difference := -50 |})]%float
  /\ ordered_by abs_difference_ge (changed diff) = false.
Proof. split; reflexivity. Qed.

(** C4 as the code has it, on the sample stats: [z.js] (+5), [b.js]
    (+1), [a.js] (-50). *)
Lemma changed_sorted_by_descending_difference_sample :
  obj_keys
    (changed
       (compareBundleSizes Sample.config Sample.masterStats
          Sample.currentStats))
  = ["z.js"; "b.js"; "a.js"]
  /\ ordered_by difference_ge
       (changed
          (compareBundleSizes Sample.config Sample.masterStats
             Sample.currentStats))
     = true.
Proof.
  split; [reflexivity|].
  exact (changed_sorted_by_descending_difference Sample.config
           Sample.masterStats Sample.currentStats eq_refl eq_refl).
Defined.

(** C5, the claim as stated, on the sample: with a baseline size of 0
    the percentage is [Infinity] for a current size of 5 and [NaN] for a
    current size of 0; the first file is [changed], the second [same]. *)
Lemma zero_baseline_percent_is_not_finite :
  sizeDiffPercent (Sample.entry 5%float) (Sample.entry 0%float) = infinity
  /\ is_nan (sizeDiffPercent (Sample.entry 0%float) (Sample.entry 0%float))
     = true
  /\ (let diff :=
        compareBundleSizes Sample.config
          [("z.js", Sample.entry 0%float); ("e.js", Sample.entry 0%float)]
          [("z.js", Sample.entry 5%float); ("e.js", Sample.entry 0%float)] in
      obj_keys (changed diff) = ["z.js"] /\ obj_keys (same diff) = ["e.js"]).
Proof. repeat split; reflexivity. Qed.

(** C5 as the code has it, on the sample: [z.js], from 0 to 5 KB. *)
Lemma zero_baseline_division_is_unguarded_sample :
  let c := Sample.entry 5%float in
  let m := Sample.entry 0%float in
  let diff :=
    compareBundleSizes Sample.config Sample.masterStats Sample.currentStats in
  (truthy (size c) = true ->
   sizeDiffPercent c m = infinity
   /\ (is_nan (Config.changeThreshold Sample.config) = false ->
       obj_get (changed diff) "z.js"
       = Some {| current := size c;
                 master := size m;
                 difference := round2 (size c - size m)%float |}
       /\ obj_get (same diff) "z.js" = None))
  /\ (truthy (size c) = false ->
      is_nan (sizeDiffPercent c m) = true
      /\ obj_get (same diff) "z.js" = Some (size c)
      /\ obj_get (changed diff) "z.js" = None).
Proof.
  exact (zero_baseline_division_is_unguarded Sample.config Sample.masterStats
           Sample.currentStats "z.js" (Sample.entry 5%float)
           (Sample.entry 0%float) eq_refl eq_refl sample_currentStats_NoDup
           eq_refl eq_refl eq_refl).
Defined.

(** C6, the claim as stated, on two names: of [app.chunk.chunk.js] the
    first pass strips one [.chunk] and the second pass the other; of
    [main.8d3f2a1b.chunk.js] the first pass strips [.chunk] and the
    second pass the hash. *)
Lemma cleanName_not_idempotent :
  (cleanName "app.chunk.chunk.js" = "app.chunk.js"
   /\ cleanName (cleanName "app.chunk.chunk.js") = "app.js"
   /\ cleanName (cleanName "app.chunk.chunk.js")
      <> cleanName "app.chunk.chunk.js")
  /\ (cleanName "main.8d3f2a1b.chunk.js" = "main.8d3f2a1b.js"
      /\ cleanName (cleanName "main.8d3f2a1b.chunk.js") = "main.js"
      /\ cleanName (cleanName "main.8d3f2a1b.chunk.js")
         <> cleanName "main.8d3f2a1b.chunk.js").
Proof. repeat split; discriminate. Qed.

(** C7 on the sample: [n.js] fails the upper limit; it was added. *)
Lemma checkFileSize_reads_added_and_changed_only_sample :
  let f := {| fileName := "n.js"; fileSize := 300%float |} in
  let diff :=
    compareBundleSizes Sample.config Sample.masterStats Sample.currentStats in
  (In (fileName f, fileSize f) (checked_sizes diff)
   /\ (In (fileName f) (obj_keys (added diff))
       \/ In (fileName f) (obj_keys (changed diff))))
  /\ ~ In (fileName f) (obj_keys (removed diff))
  /\ ~ In (fileName f) (obj_keys (same diff)).
Proof.
  split.
  - apply (proj1 (checkFileSize_reads_added_and_changed_only Sample.config)).
    left. reflexivity.
  - apply (proj2 (checkFileSize_reads_added_and_changed_only Sample.config)
             Sample.masterStats Sample.currentStats);
      [exact sample_currentStats_NoDup | left; reflexivity].
Defined.

(** C9 on the sample: [main.abcdef12.js] (2 KB) and [main.chunk.js]
    (10 KB) both become [main.js]; the second one is kept. *)
Lemma generateBundleStats_last_write_wins_sample :
  obj_get (generateBundleStats Sample.dir) "main.js"
  = Some {| size := 10%float |}.
Proof.
  refine (generateBundleStats_last_write_wins Sample.dir
            [ {| entry_name := "main.abcdef12.js"; entry_isFile := true;
                 entry_bytes := 2048%float |} ]
            [ {| entry_name := "vendor-0123456789ab.js"; entry_isFile := true;
                 entry_bytes := 4096%float |} ]
            {| entry_name := "main.chunk.js"; entry_isFile := true;
               entry_bytes := 10240%float |} eq_refl _).
  intros e' [<-|[]]. discriminate.
Defined.

(** C8 on the sample: [n.js] (300 KB) is above the upper limit, [z.js]
    (5 KB) is below the lower limit, and they are two files. *)
Lemma checkFileSize_membership_sample :
  let n := {| fileName := "n.js"; fileSize := 300%float |} in
  let z := {| fileName := "z.js"; fileSize := 5%float |} in
  let diff :=
    compareBundleSizes Sample.config Sample.masterStats Sample.currentStats in
  let failed := checkFileSize Sample.config diff in
  (In n (FailedFiles.aboveAverageFiles failed)
   <-> In (fileName n, fileSize n) (extractFileSizes diff)
       /\ gt (fileSize n) (Config.splittingUpperLimit Sample.config) = true
       /\ ~ In (fileName n) (Config.aboveAverageFiles Sample.config))
  /\ (In z (FailedFiles.belowAverageFiles failed)
      <-> In (fileName z, fileSize z) (extractFileSizes diff)
          /\ ~ In z (FailedFiles.aboveAverageFiles failed)
          /\ lt (fileSize z) (Config.splittingLowerLimit Sample.config) = true
          /\ ~ In (fileName z) (Config.belowAverageFiles Sample.config)
          /\ Str.includes "resolver" (fileName z) = false)
  /\ fileName n <> fileName z.
Proof.
  pose proof (checkFileSize_membership Sample.config
                (compareBundleSizes Sample.config Sample.masterStats
                   Sample.currentStats)) as (Ha & Hb & Hx).
  split; [apply Ha|]. split; [apply Hb|].
  apply Hx; left; reflexivity.
Defined.

(** C10 on the sample: a threshold of [0], and limits of [-0] and
    [NaN], passed to the constructor. *)
Lemma constructor_zero_is_default_sample :
  Config.changeThreshold
    (constructor (Options.with_changeThreshold 0%float Options.empty))
  = 5%float
  /\ Config.splittingUpperLimit
       (constructor (Options.with_splittingUpperLimit neg_zero Options.empty))
     = 250%float
  /\ Config.splittingLowerLimit
       (constructor (Options.with_splittingLowerLimit nan Options.empty))
     = 20%float.
Proof.
  pose proof (constructor_zero_is_default Options.empty)
    as (H0 & _ & _ & Hx & _).
  split; [exact H0|]. split.
  - apply (Hx neg_zero). reflexivity.
  - apply (Hx nan). reflexivity.
Defined.

(** * Further properties *)

(** What the methods guarantee beyond the statements above: the shape
    of the stats, the buckets and the summary in closed form, and how
    the verdict depends on the configuration. *)

(** ** Lists and objects *)

Lemma filter_none {A : Type} (f : A -> bool) l :
  (forall x, In x l -> f x = false) -> filter f l = [].
Proof.
  induction l as [|x l IH]; intros H; simpl; auto.
  rewrite (H x (or_introl eq_refl)). apply IH. intros y Hy. apply H. now right.
Qed.

Lemma filter_all {A : Type} (f : A -> bool) l :
  (forall x, In x l -> f x = true) -> filter f l = l.
Proof.
  induction l as [|x l IH]; intros H; simpl; auto.
  rewrite (H x (or_introl eq_refl)). f_equal. apply IH. intros y Hy.
  apply H. now right.
Qed.

Lemma flat_map_map {A B : Type} (g : A -> list B) (h : A -> B) l :
  (forall x, In x l -> g x = [h x]) -> flat_map g l = map h l.
Proof.
  induction l as [|x l IH]; intros H; simpl; auto.
  rewrite (H x (or_introl eq_refl)). cbn [app]. f_equal. apply IH.
  intros y Hy. apply H. now right.
Qed.

Lemma flat_map_none {A B : Type} (g : A -> list B) l :
  (forall x, In x l -> g x = []) -> flat_map g l = [].
Proof.
  induction l as [|x l IH]; intros H; simpl; auto.
  rewrite (H x (or_introl eq_refl)). apply IH. intros y Hy. apply H. now right.
Qed.

Lemma filter_keys_NoDup {V : Type} (f : string * V -> bool) (o : obj V) :
  NoDup (obj_keys o) -> NoDup (obj_keys (filter f o)).
Proof.
  unfold obj_keys. induction o as [|[k v] o IH]; intros Hd; simpl; auto.
  inversion Hd as [|? ? Hk Hd']; subst. destruct (f (k, v)); auto.
  simpl. constructor; auto. intros Hin. apply Hk.
  apply in_map_iff in Hin. destruct Hin as (x & <- & Hx).
  apply filter_In in Hx. apply in_map. tauto.
Qed.

(** The keys after a loop of assignments are the keys before it and
    the keys assigned. *)
Lemma fold_obj_set_keys {V : Type} (l acc : list (string * V)) k :
  In k (obj_keys (fold_left (fun o kv => obj_set o (fst kv) (snd kv)) l acc))
  <-> In k (obj_keys acc) \/ In k (obj_keys l).
Proof.
  revert acc. induction l as [|[k' v] l IH]; intros acc; cbn [fold_left].
  - simpl. tauto.
  - rewrite IH. cbn [fst snd]. rewrite obj_keys_set. simpl.
    intuition (subst; auto).
Qed.

Lemma Permutation_filter {A : Type} (f : A -> bool) l l' :
  Permutation l l' -> Permutation (filter f l) (filter f l').
Proof.
  induction 1; simpl; auto.
  - destruct (f x); auto.
  - destruct (f x), (f y); auto. apply perm_swap.
  - eapply perm_trans; eauto.
Qed.

Lemma fold_obj_set_get {V : Type} (l acc : list (string * V)) k :
  NoDup (obj_keys l) ->
  obj_get (fold_left (fun o kv => obj_set o (fst kv) (snd kv)) l acc) k
  = match obj_get l k with
    | Some v => Some v
    | None => obj_get acc k
    end.
Proof.
  revert acc. induction l as [|[k' v] l IH]; intros acc Hd; auto.
  inversion Hd as [|? ? Hk Hd']; subst. cbn [fold_left fst snd obj_get].
  rewrite IH by assumption.
  destruct (String.eqb_spec k' k) as [->|Hne].
  - apply obj_get_None in Hk. rewrite Hk. apply obj_get_set_same.
  - now rewrite obj_get_set_other.
Qed.

Lemma obj_get_map {V W : Type} (f : V -> W) (o : obj V) k :
  obj_get (map (fun '(name, v) => (name, f v)) o) k
  = option_map f (obj_get o k).
Proof.
  induction o as [|[k' v] o IH]; auto. cbn [map obj_get].
  now destruct (String.eqb k' k).
Qed.

Lemma obj_keys_map {V W : Type} (f : V -> W) (o : obj V) :
  obj_keys (map (fun '(name, v) => (name, f v)) o) = obj_keys o.
Proof.
  unfold obj_keys. rewrite map_map. apply map_ext. now intros [k v].
Qed.

Lemma sample_masterStats_NoDup : NoDup (obj_keys Sample.masterStats).
Proof. apply distinct_NoDup. reflexivity. Defined.

(** ** The order and the signs of numbers *)

Section OrderFacts.
Local Open Scope Z_scope.

Lemma SFleb_rank x y :
  SFleb x y = true <-> x <> S754_nan /\ y <> S754_nan /\ rank_le (rank x) (rank y).
Proof.
  unfold SFleb.
  destruct x as [sx|sx| |sx mx ex], y as [sy|sy| |sy my ey]; cbn;
    try (destruct sx); try (destruct sy); cbn;
    try (split; [intros _; repeat split; try discriminate; lia
                |intros (H1 & H2 & H3); try congruence; lia]);
    try (split; [discriminate|intros (H1 & H2 & H3); try congruence; lia]).
  - destruct (Z.compare_spec ex ey) as [->|H|H]; cbn.
    + fold (Pos.compare mx my).
      destruct (Pos.compare_spec mx my) as [->|H|H]; cbn;
        (split; [intros E; try discriminate E; repeat split; try discriminate; lia
                |intros (H1 & H2 & H3); try reflexivity; lia]).
    + split; [discriminate|intros (H1 & H2 & H3); lia].
    + split; [intros _; repeat split; try discriminate; lia|reflexivity].
  - destruct (Z.compare_spec ex ey) as [->|H|H]; cbn.
    + fold (Pos.compare mx my).
      destruct (Pos.compare_spec mx my) as [->|H|H]; cbn;
        (split; [intros E; try discriminate E; repeat split; try discriminate; lia
                |intros (H1 & H2 & H3); try reflexivity; lia]).
    + split; [intros _; repeat split; try discriminate; lia|reflexivity].
    + split; [discriminate|intros (H1 & H2 & H3); lia].
Qed.

Lemma SFleb_trans x y z :
  SFleb x y = true -> SFleb y z = true -> SFleb x z = true.
Proof.
  rewrite !SFleb_rank. intros (Hx & _ & Hxy) (_ & Hz & Hyz).
  split; auto. split; auto. unfold rank_le in *.
  destruct (rank x) as [[a1 a2] a3], (rank y) as [[b1 b2] b3],
    (rank z) as [[c1 c2] c3]. lia.
Qed.

(** The strict order, on the same places. *)
Lemma SFltb_rank x y :
  SFltb x y = true <-> x <> S754_nan /\ y <> S754_nan /\ rank_lt (rank x) (rank y).
Proof.
  unfold SFltb.
  destruct x as [sx|sx| |sx mx ex], y as [sy|sy| |sy my ey]; cbn;
    try (destruct sx); try (destruct sy); cbn;
    try (split; [intros _; repeat split; try discriminate; lia
                |intros (H1 & H2 & H3); try congruence; lia]);
    try (split; [discriminate|intros (H1 & H2 & H3); try congruence; lia]).
  - destruct (Z.compare_spec ex ey) as [->|H|H]; cbn.
    + fold (Pos.compare mx my).
      destruct (Pos.compare_spec mx my) as [->|H|H]; cbn;
        (split; [intros E; try discriminate E; repeat split; try discriminate; lia
                |intros (H1 & H2 & H3); try reflexivity; lia]).
    + split; [discriminate|intros (H1 & H2 & H3); lia].
    + split; [intros _; repeat split; try discriminate; lia|reflexivity].
  - destruct (Z.compare_spec ex ey) as [->|H|H]; cbn.
    + fold (Pos.compare mx my).
      destruct (Pos.compare_spec mx my) as [->|H|H]; cbn;
        (split; [intros E; try discriminate E; repeat split; try discriminate; lia
                |intros (H1 & H2 & H3); try reflexivity; lia]).
    + split; [intros _; repeat split; try discriminate; lia|reflexivity].
    + split; [discriminate|intros (H1 & H2 & H3); lia].
Qed.

Lemma SFltb_leb_trans x y z :
  SFltb x y = true -> SFleb y z = true -> SFltb x z = true.
Proof.
  rewrite !SFltb_rank, SFleb_rank. intros (Hx & _ & Hxy) (_ & Hz & Hyz).
  split; auto. split; auto. unfold rank_le, rank_lt in *.
  destruct (rank x) as [[a1 a2] a3], (rank y) as [[b1 b2] b3],
    (rank z) as [[c1 c2] c3]. lia.
Qed.

Lemma SFleb_ltb_trans x y z :
  SFleb x y = true -> SFltb y z = true -> SFltb x z = true.
Proof.
  rewrite !SFltb_rank, SFleb_rank. intros (Hx & _ & Hxy) (_ & Hz & Hyz).
  split; auto. split; auto. unfold rank_le, rank_lt in *.
  destruct (rank x) as [[a1 a2] a3], (rank y) as [[b1 b2] b3],
    (rank z) as [[c1 c2] c3]. lia.
Qed.

(** Two numbers are in one of the two orders. *)
Lemma SFltb_or_leb x y :
  x <> S754_nan -> y <> S754_nan -> SFltb x y = true \/ SFleb y x = true.
Proof.
  intros Hx Hy. rewrite SFltb_rank, SFleb_rank. unfold rank_le, rank_lt.
  destruct (rank x) as [[a1 a2] a3], (rank y) as [[b1 b2] b3].
  assert (H : (a1 < b1 \/ a1 = b1 /\ (a2 < b2 \/ a2 = b2 /\ a3 < b3))
              \/ (b1 < a1 \/ b1 = a1 /\ (b2 < a2 \/ b2 = a2 /\ b3 <= a3))) by lia.
  destruct H; [left|right]; auto.
Qed.

(** Numbers that compare equal have a difference that is not above
    zero, and not below. *)
Lemma SF64sub_of_equal y x :
  SFcompare y x = Some Eq ->
  SFltb (S754_zero false) (SF64sub y x) = false
  /\ SFltb (SF64sub y x) (S754_zero false) = false.
Proof.
  unfold SF64sub.
  destruct y as [sy|sy| |sy my ey], x as [sx|sx| |sx mx ex]; cbn [SFcompare];
    try discriminate;
    try (destruct sy; discriminate); try (destruct sx; discriminate).
  - intros _. destruct sy, sx; split; reflexivity.
  - destruct sy, sx; try discriminate; intros _; split; reflexivity.
  - intros H.
    assert (He : ey = ex /\ my = mx /\ sy = sx).
    { destruct sy, sx; try discriminate;
        destruct (Z.compare_spec ey ex); try discriminate;
        repeat split; auto; apply Pos.compare_eq; unfold Pos.compare;
        destruct (Pos.compare_cont Eq my mx); simpl in H; congruence. }
    destruct He as (-> & -> & ->). cbn [SFsub].
    rewrite Z.sub_diag. split; reflexivity.
Qed.
End OrderFacts.

Section SignFacts.
Local Open Scope float_scope.

(** [a >= b] and [b >= c] give [a >= c]. *)
Lemma ge_trans a b c : ge a b = true -> ge b c = true -> ge a c = true.
Proof.
  unfold ge. rewrite !leb_spec. intros Hab Hbc.
  exact (SFleb_trans _ _ _ Hbc Hab).
Qed.

(** The numbers that are [>= 0], and those that are [> 0]. *)
Lemma ge_zero_spec x :
  ge x 0 = true
  <-> (exists s, Prim2SF x = S754_zero s)
      \/ Prim2SF x = S754_infinity false
      \/ exists m e, Prim2SF x = S754_finite false m e.
Proof.
  unfold ge. rewrite leb_spec. change (Prim2SF 0) with (S754_zero false).
  destruct (Prim2SF x) as [s|s| |s m e]; cbn.
  - split; eauto.
  - destruct s; split; auto; try discriminate.
    intros [[? H]|[H|(? & ? & H)]]; discriminate.
  - split; [discriminate|]. intros [[? H]|[H|(? & ? & H)]]; discriminate.
  - destruct s; split; eauto; try discriminate.
    intros [[? H]|[H|(? & ? & H)]]; discriminate.
Qed.

Lemma gt_zero_spec x :
  gt x 0 = true
  <-> Prim2SF x = S754_infinity false
      \/ exists m e, Prim2SF x = S754_finite false m e.
Proof.
  unfold gt. rewrite ltb_spec. change (Prim2SF 0) with (S754_zero false).
  destruct (Prim2SF x) as [s|s| |s m e]; cbn.
  - split; [discriminate|]. intros [H|(? & ? & H)]; discriminate.
  - destruct s; split; auto; try discriminate.
    intros [H|(? & ? & H)]; discriminate.
  - split; [discriminate|]. intros [H|(? & ? & H)]; discriminate.
  - destruct s; split; eauto; try discriminate.
    intros [H|(? & ? & H)]; discriminate.
Qed.

Lemma gt_zero_ge x : gt x 0 = true -> ge x 0 = true.
Proof. rewrite gt_zero_spec, ge_zero_spec. tauto. Qed.

(** A rounded result carries the sign it is given. *)
Lemma binary_round_aux_sign s m e l :
  (0 <= m)%Z ->
  binary_round_aux prec emax s m e l = S754_zero s
  \/ binary_round_aux prec emax s m e l = S754_infinity s
  \/ exists m' e', binary_round_aux prec emax s m e l = S754_finite s m' e'.
Proof.
  intros Hm. pose proof (binary_round_aux_not_nan s m e l Hm) as Hn.
  revert Hn. unfold binary_round_aux.
  destruct (shr_fexp prec emax m e l) as [mrs' e'].
  destruct (shr_fexp prec emax _ e' loc_Exact) as [mrs'' e''].
  destruct (shr_m mrs''); eauto; [|congruence].
  destruct (e'' <=? emax - prec)%Z; eauto.
Qed.

Lemma binary_round_sign s m e :
  binary_round prec emax s m e = S754_zero s
  \/ binary_round prec emax s m e = S754_infinity s
  \/ exists m' e', binary_round prec emax s m e = S754_finite s m' e'.
Proof.
  unfold binary_round. destruct (shl_align m e _) as [mz ez].
  apply binary_round_aux_sign. lia.
Qed.

(** The sum of two numbers [>= 0] is [>= 0]. *)
Lemma add_ge_zero a b : ge a 0 = true -> ge b 0 = true -> ge (a + b) 0 = true.
Proof.
  rewrite !ge_zero_spec, add_spec. unfold SF64add.
  intros [[sa ->]|[->|(ma & ea & ->)]] [[sb ->]|[->|(mb & eb & ->)]];
    cbn [SFadd];
    try (left; eexists; reflexivity); try (right; left; reflexivity);
    try (right; right; eexists; eexists; reflexivity).
  - destruct sa, sb; left; eexists; reflexivity.
  - cbn [cond_Zopp].
    destruct (shl_align ma ea (Z.min ea eb)) as [ma' ea'].
    destruct (shl_align mb eb (Z.min ea eb)) as [mb' eb'].
    cbn [fst Z.add binary_normalize].
    destruct (binary_round_sign false (ma' + mb') (Z.min ea eb))
      as [->|[->|(m' & e' & ->)]]; eauto 6.
Qed.

Lemma abs_ge_zero x : is_nan x = false -> ge (abs x) 0 = true.
Proof.
  rewrite is_nan_false_spec, ge_zero_spec, abs_spec.
  destruct (Prim2SF x) as [s|s| |s m e]; cbn; eauto 6; congruence.
Qed.

Lemma ge_zero_not_lt x : ge x 0 = true -> (x <? 0) = false.
Proof.
  rewrite ge_zero_spec, ltb_spec. change (Prim2SF 0) with (S754_zero false).
  now intros [[s ->]|[->|(m & e & ->)]].
Qed.

Lemma ge_zero_not_nan x : ge x 0 = true -> is_nan x = false.
Proof.
  rewrite ge_zero_spec, is_nan_false_spec.
  intros [[s ->]|[->|(m & e & ->)]]; discriminate.
Qed.

Lemma of_Z_div_100_ge_zero n : ge (of_Z n / 100) 0 = true.
Proof.
  apply ge_zero_spec. unfold of_Z.
  rewrite div_spec, of_uint63_spec, Prim2SF_100.
  pose proof (Uint63.to_Z_bounded (Uint63.of_Z n)) as [Hn _].
  destruct (Uint63.to_Z (Uint63.of_Z n)) as [|p|p]; try lia.
  - left. now exists false.
  - cbn [binary_normalize].
    destruct (binary_round_sign false p 0) as [->|[->|(m & e & ->)]].
    + left. now exists false.
    + right. now left.
    + unfold SF64div, SFdiv.
      pose proof (SFdiv_core_nonneg m e 7036874417766400 (-46)) as Hq.
      destruct (SFdiv_core_binary prec emax (Z.pos m) e _ _) as [[mz ez] lz].
      cbn [fst] in Hq. cbn [xorb].
      destruct (binary_round_aux_sign false mz ez lz Hq)
        as [->|[->|(m' & e' & ->)]]; eauto 6.
Qed.

Lemma round2_ge_zero x : ge x 0 = true -> ge (round2 x) 0 = true.
Proof.
  intros H. unfold round2.
  destruct (is_nan x || is_infinity x); auto.
  destruct (two_46 <=? abs x); auto.
  rewrite (ge_zero_not_lt x H). apply of_Z_div_100_ge_zero.
Qed.

(** Bytes to KB: a number stays a number, and a number [>= 0] stays
    [>= 0]. *)
Lemma div_1024_not_nan x : is_nan x = false -> is_nan (x / 1024) = false.
Proof.
  rewrite !is_nan_false_spec, div_spec.
  change (Prim2SF 1024) with (S754_finite false 4503599627370496 (-42)).
  destruct (Prim2SF x) as [s|s| |s m e]; try discriminate; try congruence.
  intros _. unfold SF64div, SFdiv.
  pose proof (SFdiv_core_nonneg m e 4503599627370496 (-42)) as Hq.
  destruct (SFdiv_core_binary prec emax (Z.pos m) e _ _) as [[mz ez] lz].
  cbn [fst] in Hq. now apply binary_round_aux_not_nan.
Qed.

Lemma div_1024_ge_zero x : ge x 0 = true -> ge (x / 1024) 0 = true.
Proof.
  rewrite !ge_zero_spec, div_spec.
  change (Prim2SF 1024) with (S754_finite false 4503599627370496 (-42)).
  intros [[s ->]|[->|(m & e & ->)]].
  - left. cbn. eauto.
  - right. now left.
  - unfold SF64div, SFdiv.
    pose proof (SFdiv_core_nonneg m e 4503599627370496 (-42)) as Hq.
    destruct (SFdiv_core_binary prec emax (Z.pos m) e _ _) as [[mz ez] lz].
    cbn [fst] in Hq. cbn [xorb].
    destruct (binary_round_aux_sign false mz ez lz Hq)
      as [->|[->|(m' & e' & ->)]]; eauto 6.
Qed.

Lemma sizeKB_not_nan x : is_nan x = false -> is_nan (sizeKB x) = false.
Proof. intros H. unfold sizeKB. now apply round2_not_nan, div_1024_not_nan. Qed.

Lemma sizeKB_ge_zero x : ge x 0 = true -> ge (sizeKB x) 0 = true.
Proof. intros H. unfold sizeKB. now apply round2_ge_zero, div_1024_ge_zero. Qed.

(** A size compared with itself: the percentage is [0] or [NaN], below
    every positive threshold. *)
Lemma self_percent_below x t :
  gt t 0 = true -> ge (abs ((x - x) / x * 100)) t = false.
Proof.
  rewrite gt_zero_spec. unfold ge.
  rewrite leb_spec, abs_spec, mul_spec, div_spec, sub_spec, Prim2SF_100.
  intros Ht. unfold SF64sub.
  destruct (Prim2SF x) as [s|s| |s m e]; cbn [SFsub].
  - destruct s; cbn; unfold SFleb; now destruct (Prim2SF t).
  - destruct s; cbn; unfold SFleb; now destruct (Prim2SF t).
  - cbn. unfold SFleb. now destruct (Prim2SF t).
  - rewrite Z.sub_diag. cbn.
    destruct Ht as [->|(m' & e' & ->)]; reflexivity.
Qed.

(** [x == y] and a [NaN] operand make both strict comparisons fail. *)
Lemma eqb_not_lt x y : (x =? y) = true -> (x <? y) = false /\ (y <? x) = false.
Proof.
  rewrite eqb_spec, !ltb_spec. unfold SFeqb, SFltb. intros H.
  destruct (SFcompare (Prim2SF x) (Prim2SF y)) as [[]|] eqn:E; try discriminate.
  now rewrite (SFcompare_Eq_sym _ _ E).
Qed.

Lemma nan_not_lt x y :
  is_nan x = true -> (x <? y) = false /\ (y <? x) = false.
Proof.
  intros H. apply is_nan_spec in H. rewrite !ltb_spec, H. unfold SFltb.
  split; [reflexivity|]. now destruct (Prim2SF y).
Qed.

Lemma SF64sub_not_nan y x :
  SF64sub y x <> S754_nan -> y <> S754_nan /\ x <> S754_nan.
Proof.
  destruct y as [sy|sy| |sy my ey], x as [sx|sx| |sx mx ex]; cbn;
    intros H; split; congruence.
Qed.

Lemma SFltb_not_nan x y : SFltb x y = true -> x <> S754_nan /\ y <> S754_nan.
Proof. rewrite SFltb_rank. tauto. Qed.

Lemma SFltb_asym x y : SFltb x y = true -> SFltb y x = false.
Proof.
  intros H. destruct (SFltb y x) eqn:E; auto.
  rewrite SFltb_rank in H, E. exfalso. unfold rank_lt in *.
  destruct H as (_ & _ & H), E as (_ & _ & E).
  destruct (rank x) as [[a1 a2] a3], (rank y) as [[b1 b2] b3]. lia.
Qed.

(** The sign of a difference tells the order of its operands. *)
Lemma sub_sign a b :
  (gt (b - a) 0 = true -> gt b a = true)
  /\ (lt (b - a) 0 = true -> lt b a = true).
Proof.
  unfold gt, lt. rewrite !ltb_spec, sub_spec.
  change (Prim2SF 0) with (S754_zero false).
  assert (Hcases :
            SF64sub (Prim2SF b) (Prim2SF a) <> S754_nan ->
            SFltb (Prim2SF a) (Prim2SF b) = true
            \/ SFltb (Prim2SF b) (Prim2SF a) = true
            \/ SFcompare (Prim2SF b) (Prim2SF a) = Some Eq).
  { intros Hn. apply SF64sub_not_nan in Hn. destruct Hn as [Hb Ha].
    destruct (SFltb_or_leb (Prim2SF a) (Prim2SF b) Ha Hb) as [H|H]; auto.
    right. unfold SFleb, SFltb in *.
    destruct (SFcompare (Prim2SF b) (Prim2SF a)) as [[]|]; auto; try discriminate. }
  assert (Hpos : forall y x, SFltb (Prim2SF x) (Prim2SF y) = true ->
                 SFltb (S754_zero false) (SF64sub (Prim2SF y) (Prim2SF x)) = true).
  { intros y x H. apply SF64sub_positive; try apply Prim2SF_valid.
    pose proof (SFltb_asym _ _ H) as Hyx.
    pose proof (SFltb_not_nan _ _ H) as [Hx Hy].
    unfold SFltb in H, Hyx.
    destruct (SFcompare (Prim2SF y) (Prim2SF x)) as [[]|] eqn:E; auto;
      try discriminate.
    - apply SFcompare_Eq_sym in E. rewrite E in H. discriminate.
    - apply SFcompare_None in E. tauto. }
  split; intros H.
  - destruct Hcases as [Hc|[Hc|Hc]]; auto.
    + intros E. rewrite E in H. discriminate.
    + apply Hpos, SF64sub_antisym in Hc. congruence.
    + apply SF64sub_of_equal in Hc. destruct Hc. congruence.
  - destruct Hcases as [Hc|[Hc|Hc]]; auto.
    + intros E. rewrite E in H. discriminate.
    + apply Hpos in Hc. apply SFltb_asym in H. congruence.
    + apply SF64sub_of_equal in Hc. destruct Hc. congruence.
Qed.

Lemma opp_ge_zero_not_gt r : ge r 0 = true -> gt (- r) 0 = false.
Proof.
  rewrite ge_zero_spec. unfold gt. rewrite ltb_spec, opp_spec.
  change (Prim2SF 0) with (S754_zero false).
  now intros [[s ->]|[->|(m & e & ->)]].
Qed.

(** Rounding to two decimals keeps a sign or gives zero. *)
Lemma round2_sign x :
  (gt (round2 x) 0 = true -> gt x 0 = true)
  /\ (lt (round2 x) 0 = true -> lt x 0 = true).
Proof.
  unfold round2.
  destruct (is_nan x || is_infinity x); [tauto|].
  destruct (two_46 <=? abs x); [tauto|].
  pose proof (of_Z_div_100_ge_zero (hundredths (Prim2SF x))) as Hr.
  destruct (x <? 0) eqn:Ex; split; intros H.
  - rewrite (opp_ge_zero_not_gt _ Hr) in H. discriminate.
  - exact Ex.
  - apply gt_zero_spec. unfold gt in H. rewrite ltb_spec in Ex.
    change (Prim2SF 0) with (S754_zero false) in Ex.
    destruct (Prim2SF x) as [s|s| |s m e] eqn:E.
    + cbn [hundredths] in H. vm_compute in H. discriminate.
    + destruct s; [discriminate|]. now left.
    + cbn [hundredths] in H. vm_compute in H. discriminate.
    + destruct s; [discriminate|]. right. eauto.
  - unfold lt in H. rewrite (ge_zero_not_lt _ Hr) in H. discriminate.
Qed.
End SignFacts.

(** ** The constructor: names and allowlists *)

Lemma or_string_not_empty a b : b <> "" -> or_string a b <> "".
Proof. destruct a as [[|c s]|]; simpl; auto. discriminate. Qed.

(** X1. Every folder and file name of the configuration is a non-empty
    string: an option given as the empty string is falsy and gets the
    default, as an absent one does.  The two allowlists are taken as
    they are given, the empty array included. *)
Theorem constructor_names_not_empty (options : Options.t) :
  let config := constructor options in
  (Config.buildFolder config <> "" /\ Config.outputFolder config <> ""
   /\ Config.masterFile config <> "" /\ Config.currentFile config <> ""
   /\ Config.outputFile config <> "" /\ Config.failureFile config <> "")
  /\ (Options.outputFolder options = Some "" ->
      Config.outputFolder config = "bundle-analyzer")
  /\ (Options.failureFile options = Some "" ->
      Config.failureFile config = "bundle-diff-stage-failed.txt")
  /\ (forall l, Options.aboveAverageFiles options = Some l ->
        Config.aboveAverageFiles config = l)
  /\ (forall l, Options.belowAverageFiles options = Some l ->
        Config.belowAverageFiles config = l).
Proof.
  cbv zeta. unfold constructor.
  cbn [Config.buildFolder Config.outputFolder Config.masterFile
         Config.currentFile Config.outputFile Config.failureFile
         Config.aboveAverageFiles Config.belowAverageFiles].
  split; [repeat split; apply or_string_not_empty; discriminate|].
  split; [now intros ->|]. split; [now intros ->|].
  split; intros l ->; reflexivity.
Qed.

(** X1 on a sample: an empty output folder, and an empty allowlist. *)
Lemma constructor_names_not_empty_sample :
  let options :=
    Options.Build_t None (Some "") None None None None None None None
      (Some []) None in
  Config.outputFolder (constructor options) = "bundle-analyzer"
  /\ Config.aboveAverageFiles (constructor options) = [].
Proof.
  intros options.
  pose proof (constructor_names_not_empty options) as (_ & Ho & _ & Ha & _).
  split; [apply Ho; reflexivity|apply Ha; reflexivity].
Defined.

(** ** Name normalisation: what is stripped *)

Section AppendFacts.
Variable m : string -> bool.
Variable repl : string.

(** With a match at the start of [t], and none that starts before [t],
    it is [t] that is replaced. *)
Lemma replace_to_end_app pre t :
  m t = true ->
  (forall p c q, pre = (p ++ String c q)%string -> m (String c q ++ t) = false) ->
  Str.replace_to_end m repl (pre ++ t) = (pre ++ repl)%string.
Proof.
  intros Ht. induction pre as [|c pre IH]; intros Hpre.
  - destruct t; simpl in *; now rewrite Ht.
  - pose proof (Hpre EmptyString c pre eq_refl) as H0.
    cbn [append Str.replace_to_end] in *. rewrite H0. f_equal. apply IH.
    intros p c' q ->. apply (Hpre (String c p) c' q). reflexivity.
Qed.

Lemma matches_somewhere_app pre t :
  (forall p c q, pre = (p ++ String c q)%string -> m (String c q ++ t) = false) ->
  matches_somewhere m (pre ++ t) = matches_somewhere m t.
Proof.
  induction pre as [|c pre IH]; intros Hpre; auto.
  pose proof (Hpre EmptyString c pre eq_refl) as H0.
  cbn [append matches_somewhere] in *. rewrite H0. cbn [orb]. apply IH.
  intros p c' q ->. apply (Hpre (String c p) c' q). reflexivity.
Qed.

(** The result is the string itself, or a prefix of it followed by the
    replacement. *)
Lemma replace_to_end_shape s :
  Str.replace_to_end m repl s = s
  \/ exists p, Str.replace_to_end m repl s = (p ++ repl)%string.
Proof.
  induction s as [|c s IH]; cbn [Str.replace_to_end].
  - destruct (m ""); auto. right. now exists "".
  - destruct (m (String c s)).
    + right. now exists "".
    + destruct IH as [->|[p ->]]; auto. right. now exists (String c p).
Qed.
End AppendFacts.

Lemma length_append a b :
  String.length (a ++ b) = String.length a + String.length b.
Proof. induction a; simpl; auto. Qed.

Lemma span_rest_length p a d r :
  p d = false ->
  String.length (String d r) <= String.length (snd (Str.span p (a ++ String d r))).
Proof.
  intros Hd. induction a as [|c a IH].
  - cbn [append Str.span]. rewrite Hd. cbn [snd]. lia.
  - cbn [append Str.span]. destruct (p c).
    + destruct (Str.span p (a ++ String d r)). cbn [snd] in *. exact IH.
    + cbn [snd].
      change (String c (a ++ String d r)) with (String c a ++ String d r)%string.
      rewrite length_append. lia.
Qed.

(** A hash pattern does not match where a character that is no digit,
    and more than [.js], come after the separator and the digits. *)
Lemma matches_hash_blocked sep min c q d r :
  Str.is_hex d = false -> 3 <= String.length r ->
  matches_hash sep min (String c q ++ String d r) = false.
Proof.
  intros Hd Hr. cbn [append matches_hash].
  pose proof (span_rest_length Str.is_hex q d r Hd) as Hl.
  destruct (Str.span Str.is_hex (q ++ String d r)) as [digits rest].
  cbn [snd] in Hl. destruct (Str.eqb_ci ".js" rest) eqn:E.
  - apply eqb_ci_length in E. cbn [String.length] in *. lia.
  - now rewrite !andb_false_r.
Qed.

Lemma matches_chunk_blocked c q :
  matches_chunk (String c q ++ ".chunk.js") = false.
Proof.
  unfold matches_chunk. destruct (Str.eqb_ci _ _) eqn:E; auto.
  apply eqb_ci_length in E. cbn [append] in E. cbn [String.length] in E.
  rewrite length_append in E. cbn in E. lia.
Qed.

Lemma is_hex_not_dot c : Str.is_hex c = true -> Ascii.eqb c "." = false.
Proof. destruct c as [[] [] [] [] [] [] [] []]; try discriminate; reflexivity. Qed.

(** No content hash is found in a run of digits followed by [.js]. *)
Lemma content_hash_not_in_digits h :
  Str.all_chars Str.is_hex h = true ->
  matches_somewhere (matches_hash "." 8) (h ++ ".js") = false.
Proof.
  induction h as [|c h IH]; intros Hh; [reflexivity|].
  cbn [Str.all_chars] in Hh. apply andb_true_iff in Hh. destruct Hh as [Hc Hh].
  cbn [append matches_somewhere matches_hash].
  rewrite (is_hex_not_dot c Hc). cbn [andb orb]. auto.
Qed.

Lemma hash_matches sep min h :
  Str.all_chars Str.is_hex h = true -> min <= String.length h ->
  matches_hash sep min (String sep (h ++ ".js")) = true.
Proof.
  intros Hh Hmin. apply matches_hash_iff. exists h, ".js". auto.
Qed.

Lemma hash_tail_length (h : string) : 3 <= String.length (h ++ ".js").
Proof. rewrite length_append. cbn. lia. Qed.

(** The first two [replace] calls on a name that ends in a hash. *)
Lemma strip_content_hash_app stem h :
  Str.all_chars Str.is_hex h = true -> 8 <= String.length h ->
  strip_content_hash (stem ++ String "." (h ++ ".js")) = (stem ++ ".js")%string.
Proof.
  intros Hh Hmin. unfold strip_content_hash. apply replace_to_end_app.
  - now apply hash_matches.
  - intros p c q _. apply matches_hash_blocked; [reflexivity|apply hash_tail_length].
Qed.

Lemma strip_content_hash_chunk_hash stem h :
  Str.all_chars Str.is_hex h = true ->
  strip_content_hash (stem ++ String "-" (h ++ ".js"))
  = (stem ++ String "-" (h ++ ".js"))%string.
Proof.
  intros Hh. unfold strip_content_hash. apply replace_to_end_no_match.
  rewrite matches_somewhere_app.
  - cbn [matches_somewhere matches_hash]. cbn [Ascii.eqb Bool.eqb andb orb].
    now apply content_hash_not_in_digits.
  - intros p c q _. apply matches_hash_blocked; [reflexivity|apply hash_tail_length].
Qed.

Lemma strip_chunk_hash_app stem h :
  Str.all_chars Str.is_hex h = true -> 10 <= String.length h ->
  strip_chunk_hash (stem ++ String "-" (h ++ ".js")) = (stem ++ ".js")%string.
Proof.
  intros Hh Hmin. unfold strip_chunk_hash. apply replace_to_end_app.
  - now apply hash_matches.
  - intros p c q _. apply matches_hash_blocked; [reflexivity|apply hash_tail_length].
Qed.

(** X2. Two file names that differ only in their content hash (a dot,
    eight or more hexadecimal digits, [.js] at the end) get the same
    clean name, whatever stands before the hash: the bundles of two
    builds are compared under one key. *)
Theorem cleanName_content_hash_independent (stem h1 h2 : string) :
  Str.all_chars Str.is_hex h1 = true -> 8 <= String.length h1 ->
  Str.all_chars Str.is_hex h2 = true -> 8 <= String.length h2 ->
  cleanName (stem ++ String "." (h1 ++ ".js"))
  = cleanName (stem ++ String "." (h2 ++ ".js")).
Proof.
  intros H1 L1 H2 L2. unfold cleanName.
  now rewrite !strip_content_hash_app.
Qed.

(** X2 on a sample: two builds of [main]. *)
Lemma cleanName_content_hash_independent_sample :
  cleanName "main.abcdef12.js" = cleanName "main.0123456789ABCDEF.js".
Proof.
  exact (cleanName_content_hash_independent "main" "abcdef12" "0123456789ABCDEF"
           eq_refl ltac:(cbn; lia) eq_refl ltac:(cbn; lia)).
Defined.

(** X3. Two file names that differ only in their chunk hash (a hyphen,
    ten or more hexadecimal digits, [.js] at the end) get the same
    clean name. *)
Theorem cleanName_chunk_hash_independent (stem h1 h2 : string) :
  Str.all_chars Str.is_hex h1 = true -> 10 <= String.length h1 ->
  Str.all_chars Str.is_hex h2 = true -> 10 <= String.length h2 ->
  cleanName (stem ++ String "-" (h1 ++ ".js"))
  = cleanName (stem ++ String "-" (h2 ++ ".js")).
Proof.
  intros H1 L1 H2 L2. unfold cleanName.
  now rewrite !strip_content_hash_chunk_hash, !strip_chunk_hash_app.
Qed.

(** X3 on a sample: two builds of [vendor]. *)
Lemma cleanName_chunk_hash_independent_sample :
  cleanName "vendor-0123456789ab.js" = cleanName "vendor-ffffffffff.js".
Proof.
  exact (cleanName_chunk_hash_independent "vendor" "0123456789ab" "ffffffffff"
           eq_refl ltac:(cbn; lia) eq_refl ltac:(cbn; lia)).
Defined.

(** X4. When [stem.js] matches none of the three patterns, the clean
    name of [stem.<hash>.js] (eight digits or more) and of
    [stem-<hash>.js] (ten or more) is [stem.js]: the hash goes, and
    nothing else. *)
Theorem cleanName_strips_hash (stem h : string) :
  Str.all_chars Str.is_hex h = true ->
  canonical (stem ++ ".js") = true ->
  (8 <= String.length h ->
   cleanName (stem ++ String "." (h ++ ".js")) = (stem ++ ".js")%string)
  /\ (10 <= String.length h ->
      cleanName (stem ++ String "-" (h ++ ".js")) = (stem ++ ".js")%string).
Proof.
  intros Hh Hc. unfold canonical in Hc.
  rewrite !andb_true_iff, !negb_true_iff in Hc. destruct Hc as [[Ha Hb] Hk].
  split; intros Hmin; unfold cleanName.
  - rewrite strip_content_hash_app; auto.
    unfold strip_chunk_hash, strip_chunk_id.
    now rewrite (replace_to_end_no_match _ _ _ Hb), (replace_to_end_no_match _ _ _ Hk).
  - rewrite strip_content_hash_chunk_hash, strip_chunk_hash_app; auto.
    unfold strip_chunk_id. now rewrite (replace_to_end_no_match _ _ _ Hk).
Qed.

(** X4 on a sample: a hash of ten digits, after a dot and after a
    hyphen. *)
Lemma cleanName_strips_hash_sample :
  cleanName "main.abcdef1234.js" = "main.js"
  /\ cleanName "main-abcdef1234.js" = "main.js".
Proof.
  pose proof (cleanName_strips_hash "main" "abcdef1234" eq_refl eq_refl)
    as [H8 H10].
  split; [apply H8|apply H10]; cbn; lia.
Defined.

(** X5. The clean name of a file name that ends in [.chunk.js] is the
    name with [.chunk] taken out, whatever stands before it: neither
    hash pattern matches such a name. *)
Theorem cleanName_strips_chunk_suffix (stem : string) :
  cleanName (stem ++ ".chunk.js") = (stem ++ ".js")%string.
Proof.
  unfold cleanName, strip_content_hash, strip_chunk_hash, strip_chunk_id.
  assert (Ha : matches_somewhere (matches_hash "." 8) (stem ++ ".chunk.js") = false).
  { rewrite matches_somewhere_app; [reflexivity|]. intros p c q _.
    apply (matches_hash_blocked "." 8 c q "." "chunk.js"); [reflexivity|cbn; lia]. }
  assert (Hb : matches_somewhere (matches_hash "-" 10) (stem ++ ".chunk.js") = false).
  { rewrite matches_somewhere_app; [reflexivity|]. intros p c q _.
    apply (matches_hash_blocked "-" 10 c q "." "chunk.js"); [reflexivity|cbn; lia]. }
  rewrite (replace_to_end_no_match _ _ _ Ha), (replace_to_end_no_match _ _ _ Hb).
  apply replace_to_end_app; [reflexivity|].
  intros p c q _. apply matches_chunk_blocked.
Qed.

(** ** generateBundleStats: keys, order and sizes *)

Lemma from_last_dot_suffix s e :
  Str.from_last_dot s = Some e -> exists p, s = (p ++ e)%string.
Proof.
  revert e. induction s as [|c s IH]; intros e; cbn [Str.from_last_dot];
    [discriminate|].
  destruct (Str.from_last_dot s) as [e'|].
  - intros [= <-]. destruct (IH e' eq_refl) as [p ->]. now exists (String c p).
  - destruct (Ascii.eqb c "."); [|discriminate]. intros [= <-]. now exists "".
Qed.

Lemma extname_suffix file :
  Str.extname file = ".js" -> exists p, file = (p ++ ".js")%string.
Proof.
  destruct file as [|c rest]; [discriminate|]. unfold Str.extname.
  destruct (String.eqb (String c rest) ".."); [discriminate|].
  destruct (Str.from_last_dot rest) as [e|] eqn:E; [|discriminate].
  intros ->. apply from_last_dot_suffix in E. destruct E as [p ->].
  now exists (String c p).
Qed.

Lemma replace_to_end_keeps_js m s :
  (exists p, s = (p ++ ".js")%string) ->
  exists p, Str.replace_to_end m ".js" s = (p ++ ".js")%string.
Proof.
  intros Hs. destruct (replace_to_end_shape m ".js" s) as [->|H]; auto.
Qed.

Lemma cleanName_keeps_js file :
  (exists p, file = (p ++ ".js")%string) ->
  exists p, cleanName file = (p ++ ".js")%string.
Proof.
  intros H. unfold cleanName, strip_chunk_id, strip_chunk_hash, strip_content_hash.
  now repeat apply replace_to_end_keeps_js.
Qed.

Lemma generateBundleStats_In_keys dir name :
  In name (obj_keys (generateBundleStats dir))
  <-> In name (map (fun e => cleanName (entry_name e)) (filter is_js_file dir)).
Proof.
  rewrite obj_keys_In_get, generateBundleStats_get, <- obj_keys_In_get.
  rewrite collect_stats_entries. unfold obj_of_entries.
  rewrite fold_obj_set_keys. unfold obj_keys. rewrite map_map. cbn [fst].
  simpl. tauto.
Qed.

(** The names that end in [.js], and the keys of the stats among
    them: what [generateBundleStats] writes satisfies [file_names]. *)
Lemma ends_in_js_iff name :
  ends_in_js name = true <-> exists stem, name = (stem ++ ".js")%string.
Proof.
  split.
  - induction name as [|c rest IH]; cbn [ends_in_js]; intros H;
      apply orb_true_iff in H; destruct H as [H|H]; try discriminate.
    + apply String.eqb_eq in H. exists "". now rewrite H.
    + destruct (IH H) as [stem ->]. now exists (String c stem).
  - intros [stem ->]. induction stem as [|c stem IH]; [reflexivity|].
    cbn [append ends_in_js]. rewrite IH. apply orb_true_r.
Qed.

Lemma generateBundleStats_file_names dir :
  file_names (generateBundleStats dir) = true.
Proof.
  unfold file_names. apply forallb_forall. intros name Hin.
  apply generateBundleStats_In_keys, in_map_iff in Hin.
  destruct Hin as (e & <- & He). apply filter_In in He. destruct He as [_ Hjs].
  unfold is_js_file in Hjs. apply andb_true_iff in Hjs. destruct Hjs as [_ Hx].
  apply String.eqb_eq in Hx. apply ends_in_js_iff, cleanName_keeps_js.
  now apply extname_suffix.
Qed.

(** The object written is the array of sorted entries itself. *)
Lemma generateBundleStats_sorted_entries dir :
  generateBundleStats dir
  = Array_sort by_size_desc (collect_stats (filter is_js_file dir)).
Proof.
  unfold generateBundleStats. apply obj_of_entries_NoDup.
  unfold obj_keys. eapply Permutation_NoDup.
  - apply Permutation_map. apply Array_sort_Permutation.
  - apply collect_stats_NoDup.
Qed.

Lemma collect_stats_In files x :
  In x (collect_stats files) -> In x (map stats_entry files).
Proof.
  rewrite collect_stats_entries. unfold obj_of_entries. intros H.
  apply fold_obj_set_In in H. destruct H as [[]|H]. exact H.
Qed.

Lemma from_last_dot_js stem :
  Str.from_last_dot (stem ++ ".js") = Some ".js".
Proof.
  induction stem as [|c stem IH]; [reflexivity|].
  cbn [append Str.from_last_dot]. now rewrite IH.
Qed.

Lemma extname_js_iff file :
  Str.extname file = ".js"
  <-> exists stem, stem <> "" /\ file = (stem ++ ".js")%string.
Proof.
  split.
  - intros H. destruct (extname_suffix file H) as [[|c p] ->].
    + discriminate H.
    + exists (String c p). split; [discriminate|reflexivity].
  - intros ([|c stem] & Hne & ->); [congruence|].
    cbn [append]. unfold Str.extname.
    rewrite from_last_dot_js.
    destruct (String.eqb_spec (String c (stem ++ ".js")) "..") as [E|_]; auto.
    apply (f_equal String.length) in E. cbn [String.length] in E.
    rewrite length_append in E. cbn in E. lia.
Qed.

(** X26. The filter of [generateBundleStats] keeps an entry of the
    build folder exactly when it is a file whose name ends in [.js],
    in lower case, with at least one character before it: a file named
    [.js] has no extension, and [.JS] is another extension. *)
Theorem is_js_file_iff (e : DirEntry) :
  is_js_file e = true
  <-> entry_isFile e = true
      /\ exists stem, stem <> "" /\ entry_name e = (stem ++ ".js")%string.
Proof.
  unfold is_js_file. rewrite andb_true_iff, String.eqb_eq, extname_js_iff.
  tauto.
Qed.

(** X6. The keys of the stats are exactly the clean names of the
    entries of the build folder that are files and have the extension
    [.js]: a directory, or a file with another extension, gives no
    key.  No key occurs twice. *)
Theorem generateBundleStats_keys (dir : list DirEntry) (name : string) :
  (In name (obj_keys (generateBundleStats dir))
   <-> exists e, In e dir /\ entry_isFile e = true
                 /\ Str.extname (entry_name e) = ".js"
                 /\ cleanName (entry_name e) = name)
  /\ NoDup (obj_keys (generateBundleStats dir)).
Proof.
  split.
  - rewrite generateBundleStats_In_keys, in_map_iff. split.
    + intros (e & <- & He). apply filter_In in He. destruct He as [He Hjs].
      unfold is_js_file in Hjs. apply andb_true_iff in Hjs.
      destruct Hjs as [Hf Hx]. apply String.eqb_eq in Hx. exists e. auto.
    + intros (e & He & Hf & Hx & <-). exists e. split; auto.
      apply filter_In. split; auto. unfold is_js_file.
      rewrite Hf, Hx. reflexivity.
  - rewrite generateBundleStats_sorted_entries. unfold obj_keys.
    eapply Permutation_NoDup.
    + apply Permutation_map. apply Array_sort_Permutation.
    + apply collect_stats_NoDup.
Qed.

(** X7. Every key of the stats ends in [.js]: each of the three
    replacements puts [.js] back where it cuts. *)
Theorem generateBundleStats_keys_end_in_js (dir : list DirEntry) (name : string) :
  In name (obj_keys (generateBundleStats dir)) ->
  exists stem, name = (stem ++ ".js")%string.
Proof.
  rewrite generateBundleStats_In_keys, in_map_iff.
  intros (e & <- & He). apply filter_In in He. destruct He as [_ Hjs].
  unfold is_js_file in Hjs. apply andb_true_iff in Hjs. destruct Hjs as [_ Hx].
  apply String.eqb_eq in Hx. apply cleanName_keeps_js. now apply extname_suffix.
Qed.

(** X7 on the sample folder: the key [main.js]. *)
Lemma generateBundleStats_keys_end_in_js_sample :
  In "main.js" (obj_keys (generateBundleStats Sample.dir))
  /\ exists stem, "main.js" = (stem ++ ".js")%string.
Proof.
  assert (H : In "main.js" (obj_keys (generateBundleStats Sample.dir))).
  { apply generateBundleStats_In_keys. vm_compute. auto. }
  split; [exact H|].
  exact (generateBundleStats_keys_end_in_js Sample.dir "main.js" H).
Defined.

(** X8. When the byte counts of the folder are numbers (not [NaN]),
    the entries of the stats are in descending order of size: the size
    of each entry is greater than or equal to the size of the next. *)
Theorem generateBundleStats_sorted (dir : list DirEntry) :
  (forall e, In e dir -> is_nan (entry_bytes e) = false) ->
  ordered_by size_ge (generateBundleStats dir) = true.
Proof.
  intros Hbytes. rewrite generateBundleStats_sorted_entries.
  apply (ordered_by_weaken (fun x => is_nan (size (snd x)) = false)
           (in_order by_size_desc)).
  - intros a b Ha Hb Hab. unfold in_order, by_size_desc in Hab.
    apply negb_true_iff in Hab. now apply sub_not_positive_ge.
  - apply Forall_forall. intros x Hx.
    apply (Permutation_in _ (Permutation_sym (Array_sort_Permutation _ _))) in Hx.
    apply collect_stats_In, in_map_iff in Hx. destruct Hx as (e & <- & He).
    apply filter_In in He. destruct He as [He _].
    cbn [snd stats_entry size]. apply sizeKB_not_nan. auto.
  - apply Array_sort_ordered. intros a b. unfold by_size_desc.
    apply sub_positive_antisym.
Qed.

Lemma sample_dir_bytes e :
  In e Sample.dir ->
  ge (entry_bytes e) 0%float = true /\ is_nan (entry_bytes e) = false.
Proof.
  intros [<-|[<-|[<-|[<-|[<-|[]]]]]]; split; reflexivity.
Defined.

(** X8 on the sample folder. *)
Lemma generateBundleStats_sorted_sample :
  ordered_by size_ge (generateBundleStats Sample.dir) = true.
Proof.
  exact (generateBundleStats_sorted Sample.dir
           (fun e He => proj2 (sample_dir_bytes e He))).
Defined.

(** X9. When the files of the folder get pairwise distinct clean
    names, the entry under each name does not depend on the order in
    which the folder is listed. *)
Theorem generateBundleStats_scan_order (dir dir' : list DirEntry) (name : string) :
  Permutation dir dir' ->
  NoDup (map (fun e => cleanName (entry_name e)) (filter is_js_file dir)) ->
  obj_get (generateBundleStats dir) name = obj_get (generateBundleStats dir') name.
Proof.
  intros Hp Hd. rewrite !generateBundleStats_get, !collect_stats_entries.
  assert (Hp' : Permutation (map stats_entry (filter is_js_file dir))
                  (map stats_entry (filter is_js_file dir'))).
  { apply Permutation_map. clear Hd. induction Hp; simpl; auto.
    - destruct (is_js_file x); auto.
    - destruct (is_js_file x), (is_js_file y); auto. apply perm_swap.
    - eapply perm_trans; eauto. }
  assert (Hk : forall l, obj_keys (map stats_entry l)
                         = map (fun e => cleanName (entry_name e)) l).
  { intros l. unfold obj_keys. now rewrite map_map. }
  fold stats_entry.
  rewrite !obj_of_entries_NoDup.
  - apply obj_get_Permutation; auto. now rewrite Hk.
  - unfold obj_keys. eapply Permutation_NoDup.
    + apply Permutation_map. exact Hp'.
    + fold (obj_keys (map stats_entry (filter is_js_file dir))). now rewrite Hk.
  - now rewrite Hk.
Qed.

(** X9 on a sample: the folder without its first file, listed forwards
    and backwards. *)
Lemma generateBundleStats_scan_order_sample :
  obj_get (generateBundleStats (tl Sample.dir)) "main.js"
  = obj_get (generateBundleStats (rev (tl Sample.dir))) "main.js".
Proof.
  exact (generateBundleStats_scan_order (tl Sample.dir) (rev (tl Sample.dir))
           "main.js" (Permutation_rev _)
           (distinct_NoDup
              (map (fun e => cleanName (entry_name e))
                 (filter is_js_file (tl Sample.dir)))
              eq_refl)).
Defined.

(** X10. When the byte counts of the folder are [>= 0], so is every
    size of the stats; in particular no size is [NaN]. *)
Theorem generateBundleStats_sizes_ge_zero
    (dir : list DirEntry) (name : string) (data : BundleEntry) :
  (forall e, In e dir -> ge (entry_bytes e) 0%float = true) ->
  obj_get (generateBundleStats dir) name = Some data ->
  ge (size data) 0%float = true /\ is_nan (size data) = false.
Proof.
  intros Hbytes Hget. rewrite generateBundleStats_get in Hget.
  apply obj_get_Some_In, collect_stats_In, in_map_iff in Hget.
  destruct Hget as (e & [= _ <-] & He). apply filter_In in He.
  destruct He as [He _]. cbn [size].
  pose proof (sizeKB_ge_zero _ (Hbytes e He)) as H.
  split; [exact H|now apply ge_zero_not_nan].
Qed.

(** X10 on the sample folder: the entry of [vendor.js], 4 KB. *)
Lemma generateBundleStats_sizes_ge_zero_sample :
  obj_get (generateBundleStats Sample.dir) "vendor.js"
  = Some {| size := 4%float |}
  /\ ge 4%float 0%float = true /\ is_nan 4%float = false.
Proof.
  split; [reflexivity|].
  exact (generateBundleStats_sizes_ge_zero Sample.dir "vendor.js"
           {| size := 4%float |}
           (fun e He => proj1 (sample_dir_bytes e He)) eq_refl).
Defined.

(** ** compareBundleSizes in closed form *)

Lemma Diff_eta d :
  d = {| added := added d; removed := removed d; changed := changed d;
         same := same d;
         summary := {| totalAdded := totalAdded (summary d);
                       totalRemoved := totalRemoved (summary d);
                       sizeIncrease := sizeIncrease (summary d);
                       sizeDecrease := sizeDecrease (summary d);
                       countChanged := countChanged (summary d) |} |}.
Proof. now destruct d as [? ? ? ? []]. Qed.

(** The loop over [Object.entries(current)], started on a [diff] that
    holds none of the names still to come: each bucket grows at its
    end, and each total by the entries that join its bucket. *)
Lemma loop_closed_form
    (config : Config.t) (baseline l : BundleMap) (diff : Diff) :
  NoDup (obj_keys l) ->
  (forall k, In k (obj_keys l) ->
     ~ In k (obj_keys (added diff)) /\ ~ In k (obj_keys (changed diff))
     /\ ~ In k (obj_keys (same diff))) ->
  fold_left (classify config baseline) l diff
  = {| added := added diff ++ only_in l baseline;
       removed := removed diff;
       changed := changed diff ++ changed_files config baseline l;
       same := same diff ++ same_files config baseline l;
       summary := {|
         totalAdded :=
           sum_from (totalAdded (summary diff)) (sizes_of (only_in l baseline));
         totalRemoved := totalRemoved (summary diff);
         sizeIncrease :=
           increase_from (sizeIncrease (summary diff))
             (changed_files config baseline l);
         sizeDecrease :=
           decrease_from (sizeDecrease (summary diff))
             (changed_files config baseline l);
         countChanged :=
           count_from (countChanged (summary diff))
             (List.length (changed_files config baseline l)) |} |}.
Proof.
  revert diff. induction l as [|[file fileData] l IH]; intros diff Hd Hfresh.
  - cbn. rewrite !app_nil_r. apply Diff_eta.
  - inversion Hd as [|? ? Hfile Hd']; subst.
    destruct (Hfresh file (or_introl eq_refl)) as (Ha & Hc & Hs).
    cbn [fold_left]. rewrite IH; auto.
    + unfold only_in, changed_files, same_files, classify.
      cbn [filter flat_map fst snd].
      destruct (obj_get baseline file) as [masterData|] eqn:Em.
      * unfold processChangedFile.
        destruct (ge (sizeDiffPercent fileData masterData) _) eqn:Eg;
          cbn [added removed changed same summary totalAdded totalRemoved
                 sizeIncrease sizeDecrease countChanged app].
        -- rewrite (obj_set_fresh _ _ _ Hc), <- app_assoc. cbn [app].
           unfold count_from. cbn [List.length]. rewrite Nat.iter_succ_r.
           reflexivity.
        -- rewrite (obj_set_fresh _ _ _ Hs), <- app_assoc. reflexivity.
      * unfold addNewFile.
        cbn [added removed changed same summary totalAdded totalRemoved
               sizeIncrease sizeDecrease countChanged].
        rewrite (obj_set_fresh _ _ _ Ha), <- app_assoc. reflexivity.
    + intros k Hk.
      assert (Hne : file <> k).
      { intros ->. apply Hfile. exact Hk. }
      destruct (Hfresh k (or_intror Hk)) as (Hka & Hkc & Hks).
      pose proof (classify_other config baseline diff file fileData k Hne)
        as (E1 & E2 & E3).
      rewrite <- !obj_get_None in *. cbv zeta in E1, E2, E3.
      now rewrite E1, E2, E3.
Qed.

Lemma changed_files_keys config baseline l k :
  In k (obj_keys (changed_files config baseline l)) -> In k (obj_keys l).
Proof.
  unfold obj_keys, changed_files. rewrite !in_map_iff.
  intros ([k' v] & <- & Hin). apply in_flat_map in Hin.
  destruct Hin as (kv & Hkv & Hin). exists kv. split; auto.
  destruct (obj_get baseline (fst kv)); [|destruct Hin].
  destruct (ge _ _); [|destruct Hin].
  destruct Hin as [[= <- _]|[]]. reflexivity.
Qed.

Lemma changed_files_NoDup config baseline l :
  NoDup (obj_keys l) -> NoDup (obj_keys (changed_files config baseline l)).
Proof.
  induction l as [|[k c] l IH]; intros Hd; [constructor|].
  inversion Hd as [|? ? Hk Hd']; subst. specialize (IH Hd').
  unfold changed_files. cbn [flat_map fst snd].
  destruct (obj_get baseline k) as [m|]; auto.
  destruct (ge _ _); auto. cbn [app]. constructor; auto.
  intros Hin. apply Hk. now apply changed_files_keys in Hin.
Qed.

(** The loop over [Object.entries(master)]. *)
Lemma removed_closed_form (currentStats l : BundleMap) (diff : Diff) :
  NoDup (obj_keys l) ->
  (forall k, In k (obj_keys l) -> ~ In k (obj_keys (removed diff))) ->
  processRemovedFiles l currentStats diff
  = {| added := added diff;
       removed := removed diff ++ only_in l currentStats;
       changed := changed diff;
       same := same diff;
       summary := {|
         totalAdded := totalAdded (summary diff);
         totalRemoved :=
           sum_from (totalRemoved (summary diff))
             (sizes_of (only_in l currentStats));
         sizeIncrease := sizeIncrease (summary diff);
         sizeDecrease := sizeDecrease (summary diff);
         countChanged := countChanged (summary diff) |} |}.
Proof.
  unfold processRemovedFiles.
  revert diff. induction l as [|[file fileData] l IH]; intros diff Hd Hfresh.
  - cbn. rewrite app_nil_r. apply Diff_eta.
  - inversion Hd as [|? ? Hfile Hd']; subst.
    pose proof (Hfresh file (or_introl eq_refl)) as Hr.
    cbn [fold_left]. unfold only_in. cbn [filter fst].
    destruct (obj_get currentStats file) eqn:Ec.
    + apply IH; auto. intros k Hk. apply Hfresh. now right.
    + rewrite IH; auto.
      * cbn [added removed changed same summary totalAdded totalRemoved
               sizeIncrease sizeDecrease countChanged].
        rewrite (obj_set_fresh _ _ _ Hr), <- app_assoc. reflexivity.
      * intros k Hk. cbn [removed]. rewrite obj_keys_set.
        intros [->|Hin]; [tauto|]. revert Hin. apply Hfresh. now right.
Qed.

(** The whole of [compareBundleSizes] on two objects. *)
Lemma compareBundleSizes_closed_form
    (config : Config.t) (masterStats currentStats : BundleMap) :
  NoDup (obj_keys masterStats) -> NoDup (obj_keys currentStats) ->
  compareBundleSizes config masterStats currentStats
  = {| added := only_in currentStats masterStats;
       removed := only_in masterStats currentStats;
       changed :=
         Array_sort by_difference_desc
           (changed_files config masterStats currentStats);
       same := same_files config masterStats currentStats;
       summary := {|
         totalAdded :=
           round2 (sum_from 0%float (sizes_of (only_in currentStats masterStats)));
         totalRemoved :=
           round2 (sum_from 0%float (sizes_of (only_in masterStats currentStats)));
         sizeIncrease :=
           round2 (increase_from 0%float
                     (changed_files config masterStats currentStats));
         sizeDecrease :=
           round2 (decrease_from 0%float
                     (changed_files config masterStats currentStats));
         countChanged :=
           count_from 0%float
             (List.length (changed_files config masterStats currentStats)) |} |}.
Proof.
  intros Hm Hc. unfold compareBundleSizes, processAddedAndChangedFiles.
  rewrite (loop_closed_form config masterStats currentStats initializeDiff Hc)
    by (intros k _; cbn; tauto).
  cbn [added removed changed same summary totalAdded totalRemoved
         sizeIncrease sizeDecrease countChanged initializeDiff app].
  assert (Hs : sortChangedFiles (changed_files config masterStats currentStats)
               = Array_sort by_difference_desc
                   (changed_files config masterStats currentStats)).
  { apply sortChangedFiles_sorted. now apply changed_files_NoDup. }
  destruct (changed_files config masterStats currentStats) as [|x cf] eqn:Ecf.
  - cbn [obj_keys map].
    rewrite removed_closed_form by (auto; intros k _; cbn; tauto).
    reflexivity.
  - cbn [obj_keys map].
    rewrite removed_closed_form by (auto; intros k _; cbn; tauto).
    cbn [added removed changed same summary totalAdded totalRemoved
           sizeIncrease sizeDecrease countChanged finalizeDiff app].
    rewrite Hs. reflexivity.
Qed.

(** X11. The buckets as lists.  [added] holds the entries of the
    current stats whose name the baseline lacks, in the order of the
    current stats, each with the entry of the current stats; [removed]
    those of the baseline whose name the current stats lack, in the
    order of the baseline; [same] the sizes of the unchanged files in
    the order of the current stats; and [changed] the sorted array of
    the changed files.  (The keys of the two maps are file names.) *)
Theorem compareBundleSizes_bucket_order
    (config : Config.t) (masterStats currentStats : BundleMap) :
  file_names masterStats = true -> file_names currentStats = true ->
  NoDup (obj_keys masterStats) -> NoDup (obj_keys currentStats) ->
  let diff := compareBundleSizes config masterStats currentStats in
  added diff = only_in currentStats masterStats
  /\ removed diff = only_in masterStats currentStats
  /\ same diff = same_files config masterStats currentStats
  /\ changed diff
     = Array_sort by_difference_desc
         (changed_files config masterStats currentStats).
Proof.
  intros _ _ Hm Hc. cbv zeta. rewrite compareBundleSizes_closed_form; auto.
Qed.

(** X11 on the sample stats. *)
Lemma compareBundleSizes_bucket_order_sample :
  let diff :=
    compareBundleSizes Sample.config Sample.masterStats Sample.currentStats in
  added diff = only_in Sample.currentStats Sample.masterStats
  /\ removed diff = only_in Sample.masterStats Sample.currentStats
  /\ same diff = same_files Sample.config Sample.masterStats Sample.currentStats
  /\ changed diff
     = Array_sort by_difference_desc
         (changed_files Sample.config Sample.masterStats Sample.currentStats).
Proof.
  exact (compareBundleSizes_bucket_order Sample.config Sample.masterStats
           Sample.currentStats eq_refl eq_refl sample_masterStats_NoDup
           sample_currentStats_NoDup).
Defined.

(** X12. The summary agrees with the buckets.  [totalAdded] and
    [totalRemoved] are the sums, from left to right and rounded to two
    decimals at the end, of the sizes in [added] and in [removed];
    [countChanged] is [0] incremented once for each entry of [changed];
    [sizeIncrease] and [sizeDecrease] are the rounded sums of the
    positive size differences, and of the absolute values of the
    others, over the changed files in the order in which they are
    processed, which [changed] holds in sorted order.  (The keys of
    the two maps are file names.) *)
Theorem compareBundleSizes_summary
    (config : Config.t) (masterStats currentStats : BundleMap) :
  file_names masterStats = true -> file_names currentStats = true ->
  NoDup (obj_keys masterStats) -> NoDup (obj_keys currentStats) ->
  let diff := compareBundleSizes config masterStats currentStats in
  let processed := changed_files config masterStats currentStats in
  totalAdded (summary diff) = round2 (sum_from 0%float (sizes_of (added diff)))
  /\ totalRemoved (summary diff)
     = round2 (sum_from 0%float (sizes_of (removed diff)))
  /\ countChanged (summary diff)
     = count_from 0%float (List.length (changed diff))
  /\ Permutation processed (changed diff)
  /\ sizeIncrease (summary diff) = round2 (increase_from 0%float processed)
  /\ sizeDecrease (summary diff) = round2 (decrease_from 0%float processed).
Proof.
  intros _ _ Hm Hc. cbv zeta. rewrite compareBundleSizes_closed_form; auto.
  cbn [added removed changed same summary totalAdded totalRemoved
         sizeIncrease sizeDecrease countChanged].
  pose proof (Array_sort_Permutation by_difference_desc
                (changed_files config masterStats currentStats)) as Hp.
  rewrite <- (Permutation_length Hp). auto 10.
Qed.

(** X12 on the sample stats. *)
Lemma compareBundleSizes_summary_sample :
  let diff :=
    compareBundleSizes Sample.config Sample.masterStats Sample.currentStats in
  let processed :=
    changed_files Sample.config Sample.masterStats Sample.currentStats in
  totalAdded (summary diff) = round2 (sum_from 0%float (sizes_of (added diff)))
  /\ totalRemoved (summary diff)
     = round2 (sum_from 0%float (sizes_of (removed diff)))
  /\ countChanged (summary diff)
     = count_from 0%float (List.length (changed diff))
  /\ Permutation processed (changed diff)
  /\ sizeIncrease (summary diff) = round2 (increase_from 0%float processed)
  /\ sizeDecrease (summary diff) = round2 (decrease_from 0%float processed).
Proof.
  exact (compareBundleSizes_summary Sample.config Sample.masterStats
           Sample.currentStats eq_refl eq_refl sample_masterStats_NoDup
           sample_currentStats_NoDup).
Defined.

Section SignInvariant.
Variable config : Config.t.
Variable baseline : BundleMap.

Lemma classify_sizes_ge_zero diff entry :
  sizes_ge_zero diff -> sizes_ge_zero (classify config baseline diff entry).
Proof.
  intros [Hi Hd]. destruct entry as [file fileData]. unfold classify.
  destruct (obj_get baseline file) as [masterData|]; [|exact (conj Hi Hd)].
  unfold processChangedFile.
  destruct (ge (sizeDiffPercent fileData masterData) _) eqn:Eg;
    [|exact (conj Hi Hd)].
  unfold sizes_ge_zero. cbn [summary sizeIncrease sizeDecrease].
  destruct (gt (sizeDiff fileData masterData) 0%float) eqn:Egt.
  - split; auto. apply add_ge_zero; auto. now apply gt_zero_ge.
  - split; auto. apply add_ge_zero; auto. apply abs_ge_zero.
    exact (percent_ge_not_nan _ _ _ Eg).
Qed.

Lemma loop_sizes_ge_zero l diff :
  sizes_ge_zero diff ->
  sizes_ge_zero (fold_left (classify config baseline) l diff).
Proof.
  revert diff. induction l as [|x l IH]; intros diff H; simpl; auto.
  apply IH. now apply classify_sizes_ge_zero.
Qed.
End SignInvariant.

Lemma processRemovedFiles_sizes baseline currentStats diff :
  sizeIncrease (summary (processRemovedFiles baseline currentStats diff))
  = sizeIncrease (summary diff)
  /\ sizeDecrease (summary (processRemovedFiles baseline currentStats diff))
     = sizeDecrease (summary diff).
Proof.
  unfold processRemovedFiles. revert diff.
  induction baseline as [|[file fileData] l IH]; intros diff; simpl; auto.
  destruct (obj_get currentStats file); auto.
  destruct (IH {|
           added := added diff;
           removed := obj_set (removed diff) file fileData;
           changed := changed diff;
           same := same diff;
           summary := {|
             totalAdded := totalAdded (summary diff);
             totalRemoved := (totalRemoved (summary diff) + size fileData)%float;
             sizeIncrease := sizeIncrease (summary diff);
             sizeDecrease := sizeDecrease (summary diff);
             countChanged := countChanged (summary diff)
           |}
         |}) as [-> ->]. auto.
Qed.

(** X13. Whatever the two maps hold, [sizeIncrease] and [sizeDecrease]
    of the summary are numbers [>= 0] (possibly [Infinity]), never
    negative and never [NaN]: a file enters [changed] only when its
    size difference is a number, and what is added to either total is
    [> 0] or an absolute value. *)
Theorem size_changes_not_negative
    (config : Config.t) (masterStats currentStats : BundleMap) :
  let diff := compareBundleSizes config masterStats currentStats in
  ge (sizeIncrease (summary diff)) 0%float = true
  /\ ge (sizeDecrease (summary diff)) 0%float = true.
Proof.
  cbv zeta. unfold compareBundleSizes.
  cbn [finalizeDiff summary sizeIncrease sizeDecrease].
  destruct (processRemovedFiles_sizes masterStats currentStats
              (processAddedAndChangedFiles config masterStats currentStats
                 initializeDiff)) as [-> ->].
  assert (H : sizes_ge_zero
                (processAddedAndChangedFiles config masterStats currentStats
                   initializeDiff)).
  { unfold processAddedAndChangedFiles.
    pose proof (loop_sizes_ge_zero config masterStats currentStats
                  initializeDiff (conj eq_refl eq_refl)) as H.
    destruct (obj_keys (changed _)); exact H. }
  destruct H as [Hi Hd]. split; now apply round2_ge_zero.
Qed.

(** Stats compared with themselves, under a positive threshold. *)
Lemma compareBundleSizes_same_stats (config : Config.t) (stats : BundleMap) :
  gt (Config.changeThreshold config) 0%float = true ->
  NoDup (obj_keys stats) ->
  compareBundleSizes config stats stats = all_same stats.
Proof.
  intros Ht Hd. rewrite compareBundleSizes_closed_form; auto.
  assert (Hget : forall kv, In kv stats -> obj_get stats (fst kv) = Some (snd kv)).
  { intros [k v] Hin. now apply obj_In_get. }
  assert (Ho : only_in stats stats = []).
  { apply filter_none. intros kv Hin. now rewrite (Hget kv Hin). }
  assert (Hcf : changed_files config stats stats = []).
  { apply flat_map_none. intros kv Hin. rewrite (Hget kv Hin).
    unfold sizeDiffPercent, sizeDiff, Math_abs.
    now rewrite self_percent_below. }
  assert (Hs : same_files config stats stats
               = map (fun kv => (fst kv, size (snd kv))) stats).
  { apply flat_map_map. intros kv Hin. rewrite (Hget kv Hin).
    unfold sizeDiffPercent, sizeDiff, Math_abs.
    now rewrite self_percent_below. }
  rewrite Ho, Hcf, Hs. reflexivity.
Qed.

(** X14. A build compared with itself, under a threshold above zero:
    every file is in [same] (also a file of size [0], whose percentage
    is [NaN]), nothing is added, removed or changed, every total is
    [0], and the verdict is a pass whatever the sizes and the limits
    are, since no file is checked.  (The keys of the stats are file
    names.) *)
Theorem unchanged_build_passes (config : Config.t) (stats : BundleMap) :
  file_names stats = true ->
  gt (Config.changeThreshold config) 0%float = true ->
  NoDup (obj_keys stats) ->
  compareBundleSizes config stats stats = all_same stats
  /\ isSuccess (checkFileSize config (compareBundleSizes config stats stats))
     = true.
Proof.
  intros _ Ht Hd. rewrite compareBundleSizes_same_stats; auto.
Qed.

(** X14 on the sample stats, which hold a file of 300 KB. *)
Lemma unchanged_build_passes_sample :
  compareBundleSizes Sample.config Sample.currentStats Sample.currentStats
  = all_same Sample.currentStats
  /\ isSuccess
       (checkFileSize Sample.config
          (compareBundleSizes Sample.config Sample.currentStats
             Sample.currentStats))
     = true.
Proof.
  exact (unchanged_build_passes Sample.config Sample.currentStats eq_refl
           eq_refl sample_currentStats_NoDup).
Defined.

(** X15. Exchanging the roles of the two stats files exchanges [added]
    and [removed], entry by entry and in the same order, and with them
    [totalAdded] and [totalRemoved]; the threshold plays no part in
    either bucket. *)
Theorem compareBundleSizes_swap
    (config config' : Config.t) (masterStats currentStats : BundleMap) :
  NoDup (obj_keys masterStats) -> NoDup (obj_keys currentStats) ->
  let diff := compareBundleSizes config masterStats currentStats in
  let back := compareBundleSizes config' currentStats masterStats in
  added diff = removed back /\ removed diff = added back
  /\ totalAdded (summary diff) = totalRemoved (summary back)
  /\ totalRemoved (summary diff) = totalAdded (summary back).
Proof.
  intros Hm Hc. cbv zeta. rewrite !compareBundleSizes_closed_form; auto.
Qed.

(** X15 on the sample stats. *)
Lemma compareBundleSizes_swap_sample :
  let diff :=
    compareBundleSizes Sample.config Sample.masterStats Sample.currentStats in
  let back :=
    compareBundleSizes Sample.config Sample.currentStats Sample.masterStats in
  added diff = removed back /\ removed diff = added back
  /\ totalAdded (summary diff) = totalRemoved (summary back)
  /\ totalRemoved (summary diff) = totalAdded (summary back).
Proof.
  exact (compareBundleSizes_swap Sample.config Sample.config Sample.masterStats
           Sample.currentStats sample_masterStats_NoDup
           sample_currentStats_NoDup).
Defined.

(** X16. An empty stats file on either side.  Against an empty
    baseline every file of the current stats is added, in order, and
    [totalAdded] is the rounded sum of all sizes; against empty current
    stats every file of the baseline is removed; nothing is changed or
    unchanged in either case.  (The keys of the stats are file
    names.) *)
Theorem compareBundleSizes_empty_side (config : Config.t) (stats : BundleMap) :
  file_names stats = true ->
  NoDup (obj_keys stats) ->
  let first := compareBundleSizes config [] stats in
  let last := compareBundleSizes config stats [] in
  (added first = stats /\ removed first = [] /\ changed first = []
   /\ same first = []
   /\ totalAdded (summary first) = round2 (sum_from 0%float (sizes_of stats)))
  /\ (removed last = stats /\ added last = [] /\ changed last = []
      /\ same last = []
      /\ totalRemoved (summary last) = round2 (sum_from 0%float (sizes_of stats))).
Proof.
  intros _ Hd. cbv zeta.
  rewrite (compareBundleSizes_closed_form config [] stats (NoDup_nil _) Hd).
  rewrite (compareBundleSizes_closed_form config stats [] Hd (NoDup_nil _)).
  cbn [added removed changed same summary totalAdded totalRemoved].
  assert (Ho : only_in stats [] = stats).
  { apply filter_all. reflexivity. }
  assert (Hc : changed_files config [] stats = []).
  { apply flat_map_none. reflexivity. }
  assert (Hs : same_files config [] stats = []).
  { apply flat_map_none. reflexivity. }
  rewrite Ho, Hc, Hs. cbn. auto 10.
Qed.

(** X16 on the sample stats. *)
Lemma compareBundleSizes_empty_side_sample :
  let first := compareBundleSizes Sample.config [] Sample.currentStats in
  let last := compareBundleSizes Sample.config Sample.currentStats [] in
  (added first = Sample.currentStats /\ removed first = []
   /\ changed first = [] /\ same first = []
   /\ totalAdded (summary first)
      = round2 (sum_from 0%float (sizes_of Sample.currentStats)))
  /\ (removed last = Sample.currentStats /\ added last = []
      /\ changed last = [] /\ same last = []
      /\ totalRemoved (summary last)
         = round2 (sum_from 0%float (sizes_of Sample.currentStats))).
Proof.
  exact (compareBundleSizes_empty_side Sample.config Sample.currentStats
           eq_refl sample_currentStats_NoDup).
Defined.

(** X17. Raising the threshold never adds a file to [changed]: with
    [low] and [high] two configurations whose thresholds satisfy
    [high >= low], every entry of [changed] under [high] is the same
    entry of [changed] under [low], and every entry of [same] under
    [low] is in [same] under [high]. *)
Theorem raising_the_threshold
    (low high : Config.t) (masterStats currentStats : BundleMap) (file : string) :
  NoDup (obj_keys currentStats) ->
  ge (Config.changeThreshold high) (Config.changeThreshold low) = true ->
  (forall e,
     obj_get (changed (compareBundleSizes high masterStats currentStats)) file
     = Some e ->
     obj_get (changed (compareBundleSizes low masterStats currentStats)) file
     = Some e)
  /\ (forall s,
        obj_get (same (compareBundleSizes low masterStats currentStats)) file
        = Some s ->
        obj_get (same (compareBundleSizes high masterStats currentStats)) file
        = Some s).
Proof.
  intros Hd Ht.
  pose proof (compareBundleSizes_buckets high masterStats currentStats file Hd)
    as (_ & Hc2 & Hs2 & _).
  pose proof (compareBundleSizes_buckets low masterStats currentStats file Hd)
    as (_ & Hc1 & Hs1 & _).
  cbv zeta in *. rewrite Hc1, Hc2, Hs1, Hs2.
  destruct (obj_get currentStats file) as [c|]; [|split; discriminate].
  destruct (obj_get masterStats file) as [m|]; [|split; discriminate].
  destruct (ge (sizeDiffPercent c m) (Config.changeThreshold high)) eqn:E2.
  - rewrite (ge_trans _ _ _ E2 Ht). split; [auto|discriminate].
  - split; [discriminate|].
    destruct (ge (sizeDiffPercent c m) (Config.changeThreshold low)); auto.
    discriminate.
Qed.

(** X17 on the sample stats: the default threshold of 5 and one of 20,
    for [a.js] (100 KB to 50 KB, changed under both). *)
Lemma raising_the_threshold_sample :
  let high :=
    constructor (Options.with_changeThreshold 20%float Options.empty) in
  (forall e,
     obj_get
       (changed (compareBundleSizes high Sample.masterStats Sample.currentStats))
       "a.js" = Some e ->
     obj_get
       (changed
          (compareBundleSizes Sample.config Sample.masterStats
             Sample.currentStats))
       "a.js" = Some e)
  /\ (forall s,
        obj_get
          (same
             (compareBundleSizes Sample.config Sample.masterStats
                Sample.currentStats))
          "a.js" = Some s ->
        obj_get
          (same (compareBundleSizes high Sample.masterStats Sample.currentStats))
          "a.js" = Some s).
Proof.
  exact (raising_the_threshold Sample.config
           (constructor (Options.with_changeThreshold 20%float Options.empty))
           Sample.masterStats Sample.currentStats "a.js"
           sample_currentStats_NoDup eq_refl).
Defined.

(** X22. The sign of [difference] tells the direction of the change:
    for every entry of [changed], a difference above zero means that
    the current size is greater than the baseline size, and a
    difference below zero that it is smaller (a difference that rounds
    to zero tells nothing). *)
Theorem changed_difference_sign
    (config : Config.t) (masterStats currentStats : BundleMap)
    (file : string) (e : ChangedEntry) :
  NoDup (obj_keys currentStats) ->
  obj_get (changed (compareBundleSizes config masterStats currentStats)) file
  = Some e ->
  (gt (difference e) 0%float = true -> gt (current e) (master e) = true)
  /\ (lt (difference e) 0%float = true -> lt (current e) (master e) = true).
Proof.
  intros Hd He.
  pose proof (compareBundleSizes_buckets config masterStats currentStats file Hd)
    as (_ & Hc & _). cbv zeta in Hc. rewrite Hc in He.
  destruct (obj_get currentStats file) as [c|]; [|discriminate].
  destruct (obj_get masterStats file) as [m|]; [|discriminate].
  destruct (ge _ _); [|discriminate]. injection He as <-.
  cbn [difference current master]. unfold sizeDiff.
  destruct (round2_sign (size c - size m)%float) as [Hp Hn].
  destruct (sub_sign (size m) (size c)) as [Hp' Hn']. auto.
Qed.

(** X22 on the sample stats: [b.js], 10 KB to 11 KB. *)
Lemma changed_difference_sign_sample :
  let e := {| current := 11%float; master := 10%float;
              difference := 1%float |} in
  obj_get
    (changed
       (compareBundleSizes Sample.config Sample.masterStats Sample.currentStats))
    "b.js" = Some e
  /\ (gt (difference e) 0%float = true -> gt (current e) (master e) = true)
  /\ (lt (difference e) 0%float = true -> lt (current e) (master e) = true).
Proof.
  intros e. split; [reflexivity|].
  exact (changed_difference_sign Sample.config Sample.masterStats
           Sample.currentStats "b.js" e sample_currentStats_NoDup eq_refl).
Defined.

(** X25. The order of the properties of the baseline matters only
    for the order of [removed]: a baseline with the same entries in
    another order gives the same [added], [changed] and [same], the
    same totals but [totalRemoved] (a sum in another order), and a
    [removed] with the same entries. *)
Theorem compareBundleSizes_baseline_order
    (config : Config.t) (masterStats masterStats' currentStats : BundleMap) :
  NoDup (obj_keys masterStats) -> NoDup (obj_keys currentStats) ->
  Permutation masterStats masterStats' ->
  let diff := compareBundleSizes config masterStats currentStats in
  let diff' := compareBundleSizes config masterStats' currentStats in
  added diff' = added diff /\ changed diff' = changed diff
  /\ same diff' = same diff /\ Permutation (removed diff) (removed diff')
  /\ totalAdded (summary diff') = totalAdded (summary diff)
  /\ sizeIncrease (summary diff') = sizeIncrease (summary diff)
  /\ sizeDecrease (summary diff') = sizeDecrease (summary diff)
  /\ countChanged (summary diff') = countChanged (summary diff).
Proof.
  intros Hm Hc Hp. cbv zeta.
  assert (Hm' : NoDup (obj_keys masterStats')).
  { unfold obj_keys. eapply Permutation_NoDup; [|exact Hm].
    now apply Permutation_map. }
  assert (Hget : forall k, obj_get masterStats k = obj_get masterStats' k).
  { intros k. now apply obj_get_Permutation. }
  rewrite !compareBundleSizes_closed_form by assumption.
  cbn [added removed changed same summary totalAdded totalRemoved
         sizeIncrease sizeDecrease countChanged].
  assert (Ha : only_in currentStats masterStats'
               = only_in currentStats masterStats).
  { unfold only_in. apply filter_ext. intros kv. now rewrite Hget. }
  assert (Hcf : changed_files config masterStats' currentStats
                = changed_files config masterStats currentStats).
  { unfold changed_files. apply flat_map_ext. intros kv. now rewrite Hget. }
  assert (Hs : same_files config masterStats' currentStats
               = same_files config masterStats currentStats).
  { unfold same_files. apply flat_map_ext. intros kv. now rewrite Hget. }
  rewrite Ha, Hcf, Hs. repeat split; auto.
  unfold only_in. now apply Permutation_filter.
Qed.

(** X25 on the sample stats: the baseline reversed. *)
Lemma compareBundleSizes_baseline_order_sample :
  let diff :=
    compareBundleSizes Sample.config Sample.masterStats Sample.currentStats in
  let diff' :=
    compareBundleSizes Sample.config (rev Sample.masterStats)
      Sample.currentStats in
  added diff' = added diff /\ changed diff' = changed diff
  /\ same diff' = same diff /\ Permutation (removed diff) (removed diff')
  /\ totalAdded (summary diff') = totalAdded (summary diff)
  /\ sizeIncrease (summary diff') = sizeIncrease (summary diff)
  /\ sizeDecrease (summary diff') = sizeDecrease (summary diff)
  /\ countChanged (summary diff') = countChanged (summary diff).
Proof.
  exact (compareBundleSizes_baseline_order Sample.config Sample.masterStats
           (rev Sample.masterStats) Sample.currentStats
           sample_masterStats_NoDup sample_currentStats_NoDup
           (Permutation_rev _)).
Defined.

(** ** checkFileSize: the order of the report and the verdict *)

Lemma checked_sizes_obj_keys diff :
  obj_keys (checked_sizes diff)
  = obj_keys (added diff) ++ obj_keys (changed diff).
Proof.
  unfold checked_sizes, obj_keys. rewrite map_app, !map_map. f_equal;
    apply map_ext; now intros [k v].
Qed.

(** When no name is both added and changed, the object that
    [extractFileSizes] builds lists the added files, then the changed
    ones. *)
Lemma extractFileSizes_checked_sizes diff :
  NoDup (obj_keys (added diff) ++ obj_keys (changed diff)) ->
  extractFileSizes diff = checked_sizes diff.
Proof.
  intros Hd. rewrite <- checked_sizes_obj_keys in Hd.
  unfold extractFileSizes, checked_sizes in *.
  unfold obj_keys in Hd. rewrite map_app in Hd.
  pose proof (NoDup_app_remove_r _ _ Hd) as Ha.
  pose proof (NoDup_app_remove_l _ _ Hd) as Hc.
  rewrite !obj_of_entries_NoDup by assumption.
  rewrite (fold_obj_set_app _ []); [|exact Ha]. cbn [app].
  apply fold_obj_set_app. unfold obj_keys. now rewrite map_app.
Qed.

Lemma compareBundleSizes_checked_NoDup
    (config : Config.t) (masterStats currentStats : BundleMap) :
  NoDup (obj_keys currentStats) ->
  let diff := compareBundleSizes config masterStats currentStats in
  NoDup (obj_keys (added diff) ++ obj_keys (changed diff)).
Proof.
  intros Hd diff.
  destruct (compareBundleSizes_NoDup config masterStats currentStats)
    as (Ha & _ & Hc & _).
  apply NoDup_app; auto. intros k Hka Hkc.
  destruct (compareBundleSizes_keys config masterStats currentStats k Hd)
    as (Hadd & _ & Hboth & _).
  apply Hadd in Hka. destruct Hka as [_ Hnot]. apply Hnot.
  apply Hboth. now left.
Qed.

(** X18. On the result of [compareBundleSizes] the files are checked
    in the order added files first (in the order of the current stats),
    then changed files (in their sorted order), and each failed list
    keeps that order: it is the sublist of the checked files that fail
    its test.  (The keys of the two maps are file names.) *)
Theorem checkFileSize_report_order
    (config settings : Config.t) (masterStats currentStats : BundleMap) :
  file_names masterStats = true -> file_names currentStats = true ->
  NoDup (obj_keys currentStats) ->
  let diff := compareBundleSizes config masterStats currentStats in
  extractFileSizes diff = checked_sizes diff
  /\ FailedFiles.aboveAverageFiles (checkFileSize settings diff)
     = map failed_of (filter (fails_above settings) (checked_sizes diff))
  /\ FailedFiles.belowAverageFiles (checkFileSize settings diff)
     = map failed_of (filter (fails_below settings) (checked_sizes diff)).
Proof.
  intros _ _ Hd diff.
  pose proof (extractFileSizes_checked_sizes diff
                (compareBundleSizes_checked_NoDup config masterStats
                   currentStats Hd)) as He.
  split; auto. unfold checkFileSize. rewrite checkFileSize_loop, He.
  split; reflexivity.
Qed.

(** X18 on the sample stats. *)
Lemma checkFileSize_report_order_sample :
  let diff :=
    compareBundleSizes Sample.config Sample.masterStats Sample.currentStats in
  extractFileSizes diff = checked_sizes diff
  /\ FailedFiles.aboveAverageFiles (checkFileSize Sample.config diff)
     = map failed_of (filter (fails_above Sample.config) (checked_sizes diff))
  /\ FailedFiles.belowAverageFiles (checkFileSize Sample.config diff)
     = map failed_of (filter (fails_below Sample.config) (checked_sizes diff)).
Proof.
  exact (checkFileSize_report_order Sample.config Sample.config
           Sample.masterStats Sample.currentStats eq_refl eq_refl
           sample_currentStats_NoDup).
Defined.

(** X19. For any [diff], no file name occurs twice in
    [aboveAverageFiles], and none twice in [belowAverageFiles]: a name
    that is both added and changed is checked once, with its current
    size. *)
Theorem checkFileSize_names_distinct (config : Config.t) (diff : Diff) :
  NoDup (map fileName
           (FailedFiles.aboveAverageFiles (checkFileSize config diff)))
  /\ NoDup (map fileName
              (FailedFiles.belowAverageFiles (checkFileSize config diff))).
Proof.
  unfold checkFileSize. rewrite checkFileSize_loop.
  cbn [FailedFiles.aboveAverageFiles FailedFiles.belowAverageFiles app].
  rewrite !map_map. cbn [failed_of fileName].
  split; apply (filter_keys_NoDup _ (extractFileSizes diff)),
    extractFileSizes_NoDup.
Qed.

(** The verdict in terms of the two tests. *)
Lemma isSuccess_checkFileSize (config : Config.t) (diff : Diff) :
  isSuccess (checkFileSize config diff) = true
  <-> forall fileName fileSize,
        In (fileName, fileSize) (extractFileSizes diff) ->
        isAboveAverageFile config fileName fileSize = false
        /\ isBelowAverageFile config fileName fileSize = false.
Proof.
  rewrite isSuccess_spec. split.
  - intros [Ha Hb] n s Hin.
    destruct (isAboveAverageFile config n s) eqn:Ea.
    + assert (H : In {| fileName := n; fileSize := s |}
                    (FailedFiles.aboveAverageFiles (checkFileSize config diff))).
      { apply checkFileSize_above. auto. }
      rewrite Ha in H. destruct H.
    + split; auto. destruct (isBelowAverageFile config n s) eqn:Eb; auto.
      assert (H : In {| fileName := n; fileSize := s |}
                    (FailedFiles.belowAverageFiles (checkFileSize config diff))).
      { apply checkFileSize_below. auto. }
      rewrite Hb in H. destruct H.
  - intros H. split.
    + destruct (FailedFiles.aboveAverageFiles (checkFileSize config diff))
        as [|f l] eqn:E; auto.
      assert (Hf : In f (FailedFiles.aboveAverageFiles (checkFileSize config diff))).
      { rewrite E. now left. }
      apply checkFileSize_above in Hf. destruct Hf as [Hin Ha].
      destruct (H _ _ Hin). congruence.
    + destruct (FailedFiles.belowAverageFiles (checkFileSize config diff))
        as [|f l] eqn:E; auto.
      assert (Hf : In f (FailedFiles.belowAverageFiles (checkFileSize config diff))).
      { rewrite E. now left. }
      apply checkFileSize_below in Hf. destruct Hf as (Hin & _ & Hb).
      destruct (H _ _ Hin). congruence.
Qed.

(** X20. The verdict on the result of [checkFileSize] is a pass
    exactly when every checked file passes both tests: no checked file
    is above the upper limit without being exempt, and none is under
    the lower limit without being exempt. *)
Theorem verdict_iff_all_within_budget (config : Config.t) (diff : Diff) :
  isSuccess (checkFileSize config diff) = true
  <-> forall fileName fileSize,
        In (fileName, fileSize) (extractFileSizes diff) ->
        isAboveAverageFile config fileName fileSize = false
        /\ isBelowAverageFile config fileName fileSize = false.
Proof. exact (isSuccess_checkFileSize config diff). Qed.

(** X23. Widening the budget never turns a pass into a fail: with an
    upper limit that is greater or equal, a lower limit that is smaller
    or equal, and allowlists that hold at least the same names, a diff
    that passes under the strict configuration passes under the
    lenient one. *)
Theorem widening_the_budget (strict lenient : Config.t) (diff : Diff) :
  ge (Config.splittingUpperLimit lenient) (Config.splittingUpperLimit strict)
  = true ->
  ge (Config.splittingLowerLimit strict) (Config.splittingLowerLimit lenient)
  = true ->
  (forall name, In name (Config.aboveAverageFiles strict) ->
                In name (Config.aboveAverageFiles lenient)) ->
  (forall name, In name (Config.belowAverageFiles strict) ->
                In name (Config.belowAverageFiles lenient)) ->
  isSuccess (checkFileSize strict diff) = true ->
  isSuccess (checkFileSize lenient diff) = true.
Proof.
  intros Hup Hlow Ha Hb. rewrite !isSuccess_checkFileSize.
  intros H n s Hin. destruct (H n s Hin) as [Hsa Hsb]. clear H.
  unfold isAboveAverageFile, isBelowAverageFile, gt, lt, ge in *.
  rewrite leb_spec in Hup, Hlow. split.
  - destruct (Config.splittingUpperLimit lenient <? s)%float eqn:E; auto.
    rewrite ltb_spec in E.
    pose proof (SFleb_ltb_trans _ _ _ Hup E) as E'. rewrite <- ltb_spec in E'.
    rewrite E' in Hsa. cbn [andb] in *. apply negb_false_iff in Hsa.
    apply Array_includes_In, Ha, Array_includes_In in Hsa. now rewrite Hsa.
  - destruct (s <? Config.splittingLowerLimit lenient)%float eqn:E; auto.
    rewrite ltb_spec in E.
    pose proof (SFltb_leb_trans _ _ _ E Hlow) as E'. rewrite <- ltb_spec in E'.
    rewrite E' in Hsb. cbn [andb] in *.
    apply andb_false_iff in Hsb. destruct Hsb as [Hsb|Hsb].
    + apply negb_false_iff in Hsb.
      apply Array_includes_In, Hb, Array_includes_In in Hsb. now rewrite Hsb.
    + rewrite Hsb. apply andb_false_r.
Qed.

(** X23 on a sample: [a.js] shrinks from 100 KB to 50 KB and passes
    under the default limits, hence under an upper limit of 300 KB. *)
Lemma widening_the_budget_sample :
  isSuccess
    (checkFileSize
       (constructor (Options.with_splittingUpperLimit 300%float Options.empty))
       (compareBundleSizes Sample.config [("a.js", Sample.entry 100%float)]
          [("a.js", Sample.entry 50%float)]))
  = true.
Proof.
  exact (widening_the_budget Sample.config
           (constructor
              (Options.with_splittingUpperLimit 300%float Options.empty))
           (compareBundleSizes Sample.config [("a.js", Sample.entry 100%float)]
              [("a.js", Sample.entry 50%float)])
           eq_refl eq_refl (fun name H => H) (fun name H => H) eq_refl).
Defined.

(** X24. What [{ ...addedFiles, ...changedFiles }] holds under a name,
    for any [diff] whose buckets are objects: the current size of the
    changed entry when there is one, otherwise the size of the added
    entry, otherwise nothing. *)
Theorem extractFileSizes_lookup (diff : Diff) (fileName : string) :
  NoDup (obj_keys (added diff)) -> NoDup (obj_keys (changed diff)) ->
  obj_get (extractFileSizes diff) fileName
  = match obj_get (changed diff) fileName with
    | Some fileData => Some (current fileData)
    | None => option_map size (obj_get (added diff) fileName)
    end.
Proof.
  intros Ha Hc. unfold extractFileSizes.
  rewrite !obj_of_entries_NoDup by (rewrite obj_keys_map; assumption).
  rewrite !fold_obj_set_get by (rewrite obj_keys_map; assumption).
  rewrite !obj_get_map. cbn [obj_get].
  destruct (obj_get (changed diff) fileName); cbn [option_map]; auto.
  now destruct (obj_get (added diff) fileName).
Qed.

(** X24 on a sample: a name that is both added (7 KB) and changed
    (current size 9 KB). *)
Lemma extractFileSizes_lookup_sample :
  let diff := {|
    added := [("x.js", Sample.entry 7%float)];
    removed := [];
    changed := [("x.js", {| current := 9%float; master := 1%float;
                            difference := 8%float |})];
    same := [];
    summary := summary initializeDiff |} in
  obj_get (extractFileSizes diff) "x.js" = Some 9%float.
Proof.
  intros diff.
  exact (extractFileSizes_lookup diff "x.js"
           (distinct_NoDup ["x.js"] eq_refl) (distinct_NoDup ["x.js"] eq_refl)).
Defined.

(** X21. Both limits are exclusive: a file whose size equals the upper
    limit is not above it, and one whose size equals the lower limit
    is not below it.  A size that is [NaN] fails neither test. *)
Theorem limits_are_exclusive
    (config : Config.t) (fileName : string) (fileSize : number) :
  ((fileSize =? Config.splittingUpperLimit config)%float = true ->
   isAboveAverageFile config fileName fileSize = false)
  /\ ((fileSize =? Config.splittingLowerLimit config)%float = true ->
      isBelowAverageFile config fileName fileSize = false)
  /\ (is_nan fileSize = true ->
      isAboveAverageFile config fileName fileSize = false
      /\ isBelowAverageFile config fileName fileSize = false).
Proof.
  unfold isAboveAverageFile, isBelowAverageFile, gt, lt.
  split; [|split].
  - intros H. apply eqb_not_lt in H. destruct H as [_ ->]. reflexivity.
  - intros H. apply eqb_not_lt in H. destruct H as [-> _]. reflexivity.
  - intros H.
    destruct (nan_not_lt fileSize (Config.splittingUpperLimit config) H)
      as [_ ->].
    destruct (nan_not_lt fileSize (Config.splittingLowerLimit config) H)
      as [-> _]. split; reflexivity.
Qed.

(** X21 on the default limits: files of exactly 250 KB and 20 KB. *)
Lemma limits_are_exclusive_sample :
  isAboveAverageFile Sample.config "n.js" 250%float = false
  /\ isBelowAverageFile Sample.config "n.js" 20%float = false.
Proof.
  split.
  - exact (proj1 (limits_are_exclusive Sample.config "n.js" 250%float) eq_refl).
  - exact (proj1 (proj2 (limits_are_exclusive Sample.config "n.js" 20%float))
             eq_refl).
Defined.
